(** * LoadExc client: the camera publisher pipeline and the control message

    A shallow embedding of
      - [python_client/camera_publisher.py]: the three-stage pipeline
        (capture thread, processing thread, publish timer) and its two
        bounded [queue.Queue(maxsize=2)] relays,
      - [python_client/control_message.py]: [UnifiedControlMessage],
      - [python_client/client.py]: [control_callback] and the I420 part of
        [publish_video_frame],
    followed by the properties proved about them.

    Python values are modelled as follows: [int] is [Z]; a [float] is
    the rational that its binary64 value is, or a non-finite value;
    a [str] is the [string] of the bytes of its UTF-8 form and [bytes] is
    [list byte]; an exception is a value of [exn], and code that can
    raise returns a [result]. *)

From Stdlib Require Import Strings.String Strings.Ascii Strings.Byte DecimalString.
From Stdlib Require Import List ZArith QArith Bool Lia.
From Stdlib Require Floats.SpecFloat.
Import ListNotations.

Set Implicit Arguments.
Set Warnings "-register-all".

Local Open Scope Z_scope.

(* ===================================================================== *)
(** * Exceptions and results *)
(* ===================================================================== *)

(** The exception classes that the modelled code raises or catches. *)
Inductive exn : Type :=
| QueueFull                         (* queue.Full *)
| QueueEmpty                        (* queue.Empty *)
| Cv2Error (what : string)          (* cv2.error *)
| JSONDecodeError                   (* json.JSONDecodeError *)
| KeyError (key : string)
| TypeError
| AttributeError
| ValueError
| RecursionError
| SinkError                         (* any exception of publisher.publish *)
| SystemExit (code : Z).            (* raised by sys.exit *)

(** [except Exception] catches every class above except [SystemExit],
    which derives from [BaseException]. *)
Definition is_Exception (e : exn) : bool :=
  match e with
  | SystemExit _ => false
  | _ => true
  end.

Inductive result (A : Type) : Type :=
| Ok (a : A)
| Raise (e : exn).
Arguments Ok {A} a.
Arguments Raise {A} e.

(* ===================================================================== *)
(** * [queue.Queue] *)
(* ===================================================================== *)

(** A FIFO queue: [put] appends on the right, [get] removes on the left.
    [maxsize <= 0] means unbounded, as in the standard library. *)
Record Queue (A : Type) : Type := mkQueue {
  maxsize : Z;
  items : list A
}.

Section QueueOps.
Context {A : Type}.

Definition new_queue (maxsize : Z) : Queue A := mkQueue maxsize [].

Definition qsize (q : Queue A) : Z := Z.of_nat (length (items q)).

Definition full (q : Queue A) : bool :=
  (0 <? maxsize q) && (maxsize q <=? qsize q).

Definition put_nowait (q : Queue A) (x : A) : result (Queue A) :=
  if full q then Raise QueueFull
  else Ok (mkQueue (maxsize q) (items q ++ [x])).

Definition get_nowait (q : Queue A) : result (A * Queue A) :=
  match items q with
  | [] => Raise QueueEmpty
  | x :: rest => Ok (x, mkQueue (maxsize q) rest)
  end.

(** [get(timeout=t)] as seen by a consumer that is the only thread
    running during the wait: an item is returned if there is one, and
    otherwise the wait times out with [queue.Empty]. *)
Definition get_timeout (q : Queue A) (timeout : Q) : result (A * Queue A) :=
  get_nowait q.

(** The drop-oldest put written out in [capture_loop] (lines 138-145) and
    again in [processing_loop] (lines 188-195):
<<
    try:
        q.put_nowait(x)
    except queue.Full:
        try:
            q.get_nowait()
            q.put_nowait(x)
        except queue.Empty:
            pass
>>
    A [queue.Full] of the inner [put_nowait] is not handled there. *)
Definition try_put (q : Queue A) (x : A) : result (Queue A) :=
  match put_nowait q x with
  | Ok q' => Ok q'
  | Raise QueueFull =>
      match get_nowait q with
      | Ok (_, q1) => put_nowait q1 x
      | Raise QueueEmpty => Ok q
      | Raise e => Raise e
      end
  | Raise e => Raise e
  end.

(** The non-blocking take of the consumer side. *)
Definition try_take (q : Queue A) : result (A * Queue A) := get_nowait q.

(** A run of drop-oldest puts, stopping at the first exception. *)
Fixpoint try_put_all (q : Queue A) (xs : list A) : result (Queue A) :=
  match xs with
  | [] => Ok q
  | x :: xs' =>
      match try_put q x with
      | Ok q' => try_put_all q' xs'
      | Raise e => Raise e
      end
  end.
End QueueOps.

(* ===================================================================== *)
(** * Images, capture devices and the observable events *)
(* ===================================================================== *)

(** A [numpy.ndarray] of dtype [uint8] that holds an image: shape
    [(rows, cols, channels)] (a two-dimensional array has [channels = 1])
    and the flat C-order buffer that [tobytes] returns. *)
Record ndarray : Type := mkArray {
  rows : Z;
  cols : Z;
  channels : Z;
  buf : list byte
}.

Definition tobytes (a : ndarray) : list byte := buf a.

(** The buffer has one byte per element of the shape. *)
Definition well_shaped (a : ndarray) : Prop :=
  0 <= rows a /\ 0 <= cols a /\ 0 <= channels a /\
  Z.of_nat (List.length (buf a)) = rows a * cols a * channels a.

(** [sensor_msgs.msg.Image], with the header flattened. *)
Record Image : Type := mkImage {
  stamp : Z;
  frame_id : string;
  height : Z;
  width : Z;
  img_encoding : string;
  is_bigendian : Z;
  step : Z;
  data : list byte
}.

(** The first argument of [cv2.VideoCapture]: a device index or a path. *)
Inductive camera_source : Type :=
| SrcIndex (i : Z)
| SrcPath (p : string).

Inductive backend : Type := CAP_V4L2 | CAP_ANY.

Inductive level : Type := INFO | WARN | ERROR.

(** The log lines of the modelled code, one constructor per message
    template, carrying the values its f-string interpolates. *)
Inductive log_msg : Type :=
| MsgUnsupportedEncoding (encoding : string)
| MsgCannotOpenCamera (src : camera_source)
| MsgCameraTroubleshooting
| MsgFourccSet (fourcc : string)
| MsgFourccFailed (e : exn)
| MsgCameraParams (w h : Z) (fps : Q)
| MsgCaptureThreadStarted
| MsgProcessingThreadStarted
| MsgProcessingError (e : exn)
| MsgPublishError (e : exn)
| MsgControlReceived (head : string)
| MsgControlParseFailed
| MsgControlHandlingError (e : exn).

Inductive queue_id : Type := RawQueue | ProcessedQueue.

(** What a run does to the world outside the interpreter state. *)
Inductive event : Type :=
| EvRead (ok : bool)                           (* cap.read() *)
| EvSleep (seconds : Q)                        (* time.sleep *)
| EvGetNowait (q : queue_id) (got : bool)      (* q.get_nowait() *)
| EvGetBlocking (q : queue_id) (timeout : Q) (got : bool)
| EvClockNow (t : Z)                           (* get_clock().now() *)
| EvPublish (img : Image)                      (* publisher.publish(img) *)
| EvLog (lv : level) (msg : log_msg)           (* get_logger().<lv>(msg) *)
| EvPrint (e : exn)                            (* print of a parse failure *)
| EvCapSet (prop : string) (value : Q)         (* cap.set *)
| EvCapRelease.                                (* cap.release() *)

(* ===================================================================== *)
(** * The monad of the embedding *)
(* ===================================================================== *)

(** A computation reads and writes a state [S], may raise, and emits
    events.  The state written before a raise survives it, as the fields
    of a Python object do. *)
Definition M (S A : Type) : Type := S -> result A * S * list event.

Definition ret {S A} (a : A) : M S A := fun s => (Ok a, s, []).

Definition bind {S A B} (m : M S A) (k : A -> M S B) : M S B :=
  fun s =>
    match m s with
    | (Ok a, s1, t1) =>
        match k a s1 with
        | (r, s2, t2) => (r, s2, t1 ++ t2)
        end
    | (Raise e, s1, t1) => (Raise e, s1, t1)
    end.

Definition raise {S A} (e : exn) : M S A := fun s => (Raise e, s, []).

Definition lift {S A} (r : result A) : M S A := fun s => (r, s, []).

Definition gets {S A} (f : S -> A) : M S A := fun s => (Ok (f s), s, []).

Definition modify {S} (f : S -> S) : M S unit := fun s => (Ok tt, f s, []).

Definition emit {S} (e : event) : M S unit := fun s => (Ok tt, s, [e]).

(** [try: m  except <the classes selected by catches> as e: handler e] *)
Definition try_except {S A} (m : M S A) (catches : exn -> bool)
    (handler : exn -> M S A) : M S A :=
  fun s =>
    match m s with
    | (Ok a, s1, t1) => (Ok a, s1, t1)
    | (Raise e, s1, t1) =>
        if catches e then
          match handler e s1 with
          | (r, s2, t2) => (r, s2, t1 ++ t2)
          end
        else (Raise e, s1, t1)
    end.

Declare Scope py_scope.
Delimit Scope py_scope with py.
Notation "x <- m ;; k" := (bind m (fun x => k))
  (at level 61, m at next level, right associativity) : py_scope.
Notation "m ;;; k" := (bind m (fun _ => k))
  (at level 61, right associativity) : py_scope.

(* ===================================================================== *)
(** * [cv2.cvtColor] *)
(* ===================================================================== *)

Inductive color_code : Type := COLOR_BGR2YUV_I420 | COLOR_BGR2RGB.

(** The indices [0, 1, ..., n-1]. *)
Definition zrange (n : Z) : list Z := map Z.of_nat (seq 0 (Z.to_nat n)).

(** Element [(r, c, k)] of an image array. *)
Definition at_ (a : ndarray) (r c k : Z) : byte :=
  nth (Z.to_nat ((r * cols a + c) * channels a + k)) (buf a) x00.

Section Cv2.
(** The colour arithmetic of the imaging library, from a (B, G, R)
    triple to one luma or chroma sample, is left open: the layout of
    the result is what the pipeline relies on. *)
Variables luma chroma_u chroma_v : byte -> byte -> byte -> byte.

Definition sample (f : byte -> byte -> byte -> byte)
    (a : ndarray) (r c : Z) : byte :=
  f (at_ a r c 0) (at_ a r c 1) (at_ a r c 2).

(** [COLOR_BGR2RGB]: three channels out, the first and third swapped
    (a fourth input channel is dropped). *)
Definition bgr2rgb (a : ndarray) : ndarray :=
  mkArray (rows a) (cols a) 3
    (flat_map
       (fun r =>
          flat_map (fun c => [at_ a r c 2; at_ a r c 1; at_ a r c 0])
                   (zrange (cols a)))
       (zrange (rows a))).

(** One plane of the planar output: [f] sampled on a grid of
    [h] by [w] points, [stride] pixels apart in both directions. *)
Definition plane (f : byte -> byte -> byte -> byte) (a : ndarray)
    (h w stride : Z) : list byte :=
  flat_map (fun r => map (fun c => sample f a (stride * r) (stride * c))
                         (zrange w))
           (zrange h).

(** [COLOR_BGR2YUV_I420]: a single-channel array of [rows * 3 / 2] rows
    and [cols] columns: the full-resolution Y plane, then the U plane
    and the V plane, each subsampled by two in both directions. *)
Definition bgr2yuv_i420 (a : ndarray) : ndarray :=
  mkArray (rows a * 3 / 2) (cols a) 1
    (plane luma a (rows a) (cols a) 1
     ++ plane chroma_u a (rows a / 2) (cols a / 2) 2
     ++ plane chroma_v a (rows a / 2) (cols a / 2) 2).

(** The conversion rejects an empty image, a channel count other than
    3 or 4, and, for the planar output, an odd width or height. *)
Definition cvtColor (a : ndarray) (code : color_code) : result ndarray :=
  if (rows a <=? 0) || (cols a <=? 0) then
    Raise (Cv2Error "(-215:Assertion failed) !_src.empty()")
  else if negb ((channels a =? 3) || (channels a =? 4)) then
    Raise (Cv2Error "Invalid number of channels in input image")
  else
    match code with
    | COLOR_BGR2RGB => Ok (bgr2rgb a)
    | COLOR_BGR2YUV_I420 =>
        if Z.even (cols a) && Z.even (rows a) then Ok (bgr2yuv_i420 a)
        else
          Raise (Cv2Error
            "(-215:Assertion failed) sz.width % 2 == 0 && sz.height % 2 == 0")
    end.
End Cv2.

(* ===================================================================== *)
(** * [camera_publisher.py] *)
(* ===================================================================== *)

Local Open Scope string_scope.

(** [str.lower] as far as an encoding name can tell: the letters A-Z are
    mapped to a-z and every other byte is kept.  (A text with a
    character outside ASCII does not lowercase to bgr8, rgb8 or i420, so
    the membership test below decides as Python's does.) *)
Definition lower_ascii (c : ascii) : ascii :=
  let n := nat_of_ascii c in
  if ((65 <=? n) && (n <=? 90))%nat then ascii_of_nat (n + 32) else c.

Fixpoint lower (s : string) : string :=
  match s with
  | EmptyString => EmptyString
  | String c s' => String (lower_ascii c) (lower s')
  end.

(** [s in (t1, ..., tn)] for strings. *)
Definition str_in (s : string) (ts : list string) : bool :=
  existsb (String.eqb s) ts.

(** A [str] is modelled by the bytes of its UTF-8 form: a character is a
    byte that is not a continuation byte (10xxxxxx), together with the
    continuation bytes that follow it. *)
Definition is_continuation (c : ascii) : bool :=
  let n := nat_of_ascii c in ((128 <=? n) && (n <? 192))%nat.

(** The first byte of each character of a [str]. *)
Fixpoint first_bytes (s : string) : list ascii :=
  match s with
  | EmptyString => []
  | String c s' =>
      if is_continuation c then first_bytes s' else c :: first_bytes s'
  end.

(** [s[:n]]: the first [n] characters. *)
Fixpoint py_prefix (n : nat) (s : string) : string :=
  match s with
  | EmptyString => EmptyString
  | String c s' =>
      if is_continuation c then String c (py_prefix n s')
      else match n with
           | O => EmptyString
           | S n' => String c (py_prefix n' s')
           end
  end.

(** A C [int]: the value modulo 2^32 that lies in [-2^31, 2^31). *)
Definition int32 (z : Z) : Z := (z + 2 ^ 31) mod 2 ^ 32 - 2 ^ 31.

(** [x > y] on floats. *)
Definition Qgt_bool (x y : Q) : bool := negb (Qle_bool x y).

(** The decimal rendering of an integer, as an f-string produces it. *)
Definition str_of_int (z : Z) : string :=
  DecimalString.NilZero.string_of_int (Z.to_int z).

(** What the machine answers when the program opens and queries a
    capture device. *)
Record Device : Type := mkDevice {
  probe : camera_source -> backend -> bool;  (* does VideoCapture open? *)
  actual_w : Z;                              (* CAP_PROP_FRAME_WIDTH *)
  actual_h : Z;                              (* CAP_PROP_FRAME_HEIGHT *)
  actual_fps : Q                             (* CAP_PROP_FPS *)
}.

Record VideoCapture : Type := mkCapture {
  cap_source : camera_source;
  cap_backend : backend;
  isOpened : bool
}.

(** [cv2.VideoCapture(src, backend)] *)
Definition cv2_VideoCapture (dev : Device) (src : camera_source)
    (b : backend) : VideoCapture :=
  mkCapture src b (probe dev src b).

(** [cap.release()] *)
Definition release {S} (c : VideoCapture) : M S VideoCapture :=
  fun s => (Ok (mkCapture (cap_source c) (cap_backend c) false), s,
            [EvCapRelease]).

Local Open Scope py_scope.

(** [open_camera], lines 19-37; [None] is [None]. *)
Definition open_camera {S} (dev : Device) (camera_source : camera_source)
    : M S (option VideoCapture) :=
  let cap := cv2_VideoCapture dev camera_source CAP_V4L2 in
  if isOpened cap then ret (Some cap)
  else
    _ <- release cap ;;
    match camera_source with
    | SrcIndex i =>
        let device_path := SrcPath ("/dev/video" ++ str_of_int i) in
        let cap := cv2_VideoCapture dev device_path CAP_V4L2 in
        if isOpened cap then ret (Some cap)
        else
          _ <- release cap ;;
          let cap := cv2_VideoCapture dev device_path CAP_ANY in
          if isOpened cap then ret (Some cap) else ret None
    | SrcPath _ =>
        let cap := cv2_VideoCapture dev camera_source CAP_ANY in
        if isOpened cap then ret (Some cap) else ret None
    end.

(** [cv2.VideoWriter_fourcc] applied to the unpacked string: the string
    is unpacked into its characters and the function takes four of them, anything else is a
    [TypeError].  Of each character the binding keeps the first byte of
    its UTF-8 form, and the code is the C [int]
    [c1 + (c2 << 8) + (c3 << 16) + (c4 << 24)]. *)
Definition VideoWriter_fourcc (fourcc : string) : result Z :=
  match first_bytes fourcc with
  | [c1; c2; c3; c4] =>
      Ok (int32 (Z.of_nat (nat_of_ascii c1)
                 + Z.shiftl (Z.of_nat (nat_of_ascii c2)) 8
                 + Z.shiftl (Z.of_nat (nat_of_ascii c3)) 16
                 + Z.shiftl (Z.of_nat (nat_of_ascii c4)) 24))
  | _ => Raise TypeError
  end.

(** The tuple [(data, h, w, encoding, step)] put on the second queue. *)
Definition packaged : Type := (list byte * Z * Z * string * Z)%type.

(** The fields of [LoadExcCameraPublisher] that the pipeline reads or
    writes.  ([bridge], [start_time] and the thread handles are never read
    after construction.) *)
Record Publisher : Type := mkPublisher {
  topic : string;
  display : bool;
  target_fps : Q;
  frame_interval : Q;
  frame_count : Z;
  encoding : string;
  cap : option VideoCapture;
  raw_frame_queue : Queue ndarray;
  processed_frame_queue : Queue packaged;
  running : bool;
  debug_overlay : bool;
  timer_period : Q
}.

Definition set_frame_count (n : Z) (s : Publisher) : Publisher :=
  mkPublisher (topic s) (display s) (target_fps s) (frame_interval s) n
    (encoding s) (cap s) (raw_frame_queue s) (processed_frame_queue s)
    (running s) (debug_overlay s) (timer_period s).

Definition set_cap (c : option VideoCapture) (s : Publisher) : Publisher :=
  mkPublisher (topic s) (display s) (target_fps s) (frame_interval s)
    (frame_count s) (encoding s) c (raw_frame_queue s)
    (processed_frame_queue s) (running s) (debug_overlay s) (timer_period s).

Definition set_raw_frame_queue (q : Queue ndarray) (s : Publisher)
    : Publisher :=
  mkPublisher (topic s) (display s) (target_fps s) (frame_interval s)
    (frame_count s) (encoding s) (cap s) q (processed_frame_queue s)
    (running s) (debug_overlay s) (timer_period s).

Definition set_processed_frame_queue (q : Queue packaged) (s : Publisher)
    : Publisher :=
  mkPublisher (topic s) (display s) (target_fps s) (frame_interval s)
    (frame_count s) (encoding s) (cap s) (raw_frame_queue s) q
    (running s) (debug_overlay s) (timer_period s).

Definition set_running (b : bool) (s : Publisher) : Publisher :=
  mkPublisher (topic s) (display s) (target_fps s) (frame_interval s)
    (frame_count s) (encoding s) (cap s) (raw_frame_queue s)
    (processed_frame_queue s) b (debug_overlay s) (timer_period s).

(** [if c: m] *)
Definition when {S} (c : bool) (m : M S unit) : M S unit :=
  if c then m else ret tt.

(** The encoding check of [__init__], lines 62-65: the effective
    encoding, after the warning when the argument is not supported. *)
Definition resolve_encoding {S} (encoding : string) : M S string :=
  let self_encoding := lower encoding in
  if negb (str_in self_encoding ["bgr8"; "rgb8"; "i420"]) then
    emit (EvLog WARN (MsgUnsupportedEncoding encoding)) ;;;
    ret "i420"
  else ret self_encoding.

(** [LoadExcCameraPublisher.__init__], lines 41-112.  The object exists
    only if the constructor returns; [sys.exit(1)] is [SystemExit 1]. *)
Definition init (dev : Device) (camera_source : camera_source)
    (topic : string) (width height : Z) (fps : Q) (display : bool)
    (encoding fourcc : string) : M unit Publisher :=
  let frame_interval := if Qgt_bool fps 0 then (1 / fps)%Q else 0%Q in
  self_encoding <- resolve_encoding encoding ;;
  self_cap <- open_camera dev camera_source ;;
  cap <- match self_cap with
         | Some c =>
             if isOpened c then ret c
             else
               emit (EvLog ERROR (MsgCannotOpenCamera camera_source)) ;;;
               emit (EvLog ERROR MsgCameraTroubleshooting) ;;;
               raise (SystemExit 1)
         | None =>
             emit (EvLog ERROR (MsgCannotOpenCamera camera_source)) ;;;
             emit (EvLog ERROR MsgCameraTroubleshooting) ;;;
             raise (SystemExit 1)
         end ;;
  when (negb (fourcc =? ""))
    (try_except
       (fourcc_code <- lift (VideoWriter_fourcc fourcc) ;;
        emit (EvCapSet "CAP_PROP_FOURCC" (inject_Z fourcc_code)) ;;;
        emit (EvLog INFO (MsgFourccSet fourcc)))
       is_Exception
       (fun e => emit (EvLog WARN (MsgFourccFailed e)))) ;;;
  when (negb (width =? 0)%Z)
    (emit (EvCapSet "CAP_PROP_FRAME_WIDTH" (inject_Z width))) ;;;
  when (negb (height =? 0)%Z)
    (emit (EvCapSet "CAP_PROP_FRAME_HEIGHT" (inject_Z height))) ;;;
  when (negb (Qeq_bool fps 0))
    (emit (EvCapSet "CAP_PROP_FPS" fps)) ;;;
  emit (EvLog INFO
          (MsgCameraParams (actual_w dev) (actual_h dev) (actual_fps dev))) ;;;
  emit (EvLog INFO MsgCaptureThreadStarted) ;;;
  emit (EvLog INFO MsgProcessingThreadStarted) ;;;
  ret (mkPublisher topic display fps frame_interval 0 self_encoding
         (Some cap) (new_queue 2) (new_queue 2) true false
         (if Qgt_bool frame_interval 0 then frame_interval else 0%Q)).

(** Queue operations on the fields of the node. *)
Definition raw_put_nowait (frame : ndarray) : M Publisher unit :=
  fun s =>
    match put_nowait (raw_frame_queue s) frame with
    | Ok q => (Ok tt, set_raw_frame_queue q s, [])
    | Raise e => (Raise e, s, [])
    end.

Definition raw_get_nowait : M Publisher ndarray :=
  fun s =>
    match get_nowait (raw_frame_queue s) with
    | Ok (x, q) => (Ok x, set_raw_frame_queue q s, [EvGetNowait RawQueue true])
    | Raise e => (Raise e, s, [EvGetNowait RawQueue false])
    end.

Definition raw_get (timeout : Q) : M Publisher ndarray :=
  fun s =>
    match get_timeout (raw_frame_queue s) timeout with
    | Ok (x, q) =>
        (Ok x, set_raw_frame_queue q s, [EvGetBlocking RawQueue timeout true])
    | Raise e => (Raise e, s, [EvGetBlocking RawQueue timeout false])
    end.

Definition processed_put_nowait (item : packaged) : M Publisher unit :=
  fun s =>
    match put_nowait (processed_frame_queue s) item with
    | Ok q => (Ok tt, set_processed_frame_queue q s, [])
    | Raise e => (Raise e, s, [])
    end.

Definition processed_get_nowait : M Publisher packaged :=
  fun s =>
    match get_nowait (processed_frame_queue s) with
    | Ok (x, q) =>
        (Ok x, set_processed_frame_queue q s, [EvGetNowait ProcessedQueue true])
    | Raise e => (Raise e, s, [EvGetNowait ProcessedQueue false])
    end.

Definition is_Full (e : exn) : bool :=
  match e with QueueFull => true | _ => false end.

Definition is_Empty (e : exn) : bool :=
  match e with QueueEmpty => true | _ => false end.

(** How a [while self.running] loop of the model stopped: the guard was
    seen false, or the model ran out of steps with the loop still alive. *)
Inductive loop_end : Type := Exited | StillLooping.

(** One pass through the body of [capture_loop], lines 134-145, for the
    answer [(ok, frame)] of [cap.read()]. *)
Definition capture_iter (rd : bool * ndarray) : M Publisher unit :=
  let '(ok, frame) := rd in
  emit (EvRead ok) ;;;
  if negb ok then
    emit (EvSleep (1 # 100))
  else
    try_except (raw_put_nowait frame) is_Full
      (fun _ =>
         try_except
           (_ <- raw_get_nowait ;;
            raw_put_nowait frame)
           is_Empty
           (fun _ => ret tt)).

(** [capture_loop], lines 131-145, run on the successive answers of
    [cap.read()]. *)
Fixpoint capture_loop (reads : list (bool * ndarray)) : M Publisher loop_end :=
  match reads with
  | [] => r <- gets running ;; ret (if r then StillLooping else Exited)
  | rd :: reads' =>
      r <- gets running ;;
      if r then capture_iter rd ;;; capture_loop reads'
      else ret Exited
  end.

Section Pipeline.
Variables luma chroma_u chroma_v : byte -> byte -> byte -> byte.

(** Lines 160-185 of [processing_loop] without the frame counter: from
    the raw frame to the tuple that is queued. *)
Definition package_frame (self_encoding : string) (frame : ndarray)
    : result packaged :=
  let h := rows frame in
  let w := cols frame in
  if self_encoding =? "i420" then
    match cvtColor luma chroma_u chroma_v frame COLOR_BGR2YUV_I420 with
    | Ok yuv => Ok (tobytes yuv, h, w, "i420", w)
    | Raise e => Raise e
    end
  else if self_encoding =? "rgb8" then
    match cvtColor luma chroma_u chroma_v frame COLOR_BGR2RGB with
    | Ok rgb => Ok (tobytes rgb, h, w, "rgb8", (w * 3)%Z)
    | Raise e => Raise e
    end
  else
    Ok (tobytes frame, h, w, "bgr8", (w * 3)%Z).

(** One pass through the body of [processing_loop], lines 156-201. *)
Definition processing_iter : M Publisher unit :=
  try_except
    (frame <- raw_get 1 ;;
     modify (fun s => set_frame_count (frame_count s + 1) s) ;;;
     self_encoding <- gets encoding ;;
     processed_data <- lift (package_frame self_encoding frame) ;;
     try_except (processed_put_nowait processed_data) is_Full
       (fun _ =>
          try_except
            (_ <- processed_get_nowait ;;
             processed_put_nowait processed_data)
            is_Empty
            (fun _ => ret tt)))
    is_Exception
    (fun e =>
       match e with
       | QueueEmpty => ret tt
       | _ => emit (EvLog ERROR (MsgProcessingError e))
       end).

(** [processing_loop], lines 153-201, for at most [fuel] passes. *)
Fixpoint processing_loop (fuel : nat) : M Publisher loop_end :=
  match fuel with
  | O => r <- gets running ;; ret (if r then StillLooping else Exited)
  | S fuel' =>
      r <- gets running ;;
      if r then processing_iter ;;; processing_loop fuel'
      else ret Exited
  end.
End Pipeline.

(** [publish_frame], lines 203-227, on a timer tick at which the clock
    reads [now] and the topic answers a publish call with [sink]. *)
Definition publish_frame (now : Z) (sink : Image -> result unit)
    : M Publisher unit :=
  try_except
    (item <- processed_get_nowait ;;
     let '(data, h, w, encoding, step) := item in
     emit (EvClockNow now) ;;;
     let img := mkImage now "camera_link" h w encoding 0 step data in
     emit (EvPublish img) ;;;
     lift (sink img))
    is_Exception
    (fun e =>
       match e with
       | QueueEmpty => ret tt
       | _ => emit (EvLog ERROR (MsgPublishError e))
       end).

(** [destroy_node], lines 229-233. *)
Definition destroy_node : M Publisher unit :=
  modify (set_running false) ;;;
  c <- gets cap ;;
  match c with
  | Some c => c' <- release c ;; modify (set_cap (Some c'))
  | None => ret tt
  end.

(* ===================================================================== *)
(** * Python values and [json.loads] *)
(* ===================================================================== *)

(** A [float] is a binary64 value: the rational that a finite one is
    (the sign of a zero is not kept), or a non-finite value. *)
Inductive pyfloat : Type :=
| FNum (q : Q)
| FNaN
| FInf (negative : bool).

(** The values [json.loads] can return.  A [dict] keeps its keys in
    insertion order and holds each key once. *)
Inductive pyval : Type :=
| PyNone
| PyBool (b : bool)
| PyInt (z : Z)
| PyFloat (f : pyfloat)
| PyStr (s : string)
| PyList (l : list pyval)
| PyDict (d : list (string * pyval)).

Definition dict_get (d : list (string * pyval)) (k : string) : option pyval :=
  match find (fun kv => fst kv =? k) d with
  | Some kv => Some (snd kv)
  | None => None
  end.

(** [d[k] = v] *)
Fixpoint dict_set (d : list (string * pyval)) (k : string) (v : pyval)
    : list (string * pyval) :=
  match d with
  | [] => [(k, v)]
  | (k', v') :: d' =>
      if k' =? k then (k, v) :: d' else (k', v') :: dict_set d' k v
  end.

(** [needle in hay] for two strings. *)
Fixpoint str_contains (needle hay : string) : bool :=
  if prefix needle hay then true
  else match hay with
       | EmptyString => false
       | String _ hay' => str_contains needle hay'
       end.

(** [x == s] for a string literal [s]. *)
Definition py_eq_str (x : pyval) (s : string) : bool :=
  match x with
  | PyStr t => t =? s
  | _ => false
  end.

(** [k in x] for a string literal [k]. *)
Definition py_in (k : string) (x : pyval) : result bool :=
  match x with
  | PyDict d => Ok (match dict_get d k with Some _ => true | None => false end)
  | PyList l => Ok (existsb (fun y => py_eq_str y k) l)
  | PyStr s => Ok (str_contains k s)
  | PyNone | PyBool _ | PyInt _ | PyFloat _ => Raise TypeError
  end.

(** [x[k]] for a string literal [k]. *)
Definition py_getitem (x : pyval) (k : string) : result pyval :=
  match x with
  | PyDict d =>
      match dict_get d k with
      | Some v => Ok v
      | None => Raise (KeyError k)
      end
  | _ => Raise TypeError
  end.

(** [x.get(k, default)]: only a [dict] has the method. *)
Definition py_get (x : pyval) (k : string) (default : pyval) : result pyval :=
  match x with
  | PyDict d =>
      match dict_get d k with
      | Some v => Ok v
      | None => Ok default
      end
  | _ => Raise AttributeError
  end.

(** ** The decoder *)

Definition dquote : ascii := "034"%char.
Definition backslash : ascii := "092"%char.

(** [dq s] is [s] with every apostrophe turned into a double quote; it
    lets JSON text be written as one literal. *)
Fixpoint dq (s : string) : string :=
  match s with
  | EmptyString => EmptyString
  | String c s' => String (if (c =? "'")%char then dquote else c) (dq s')
  end.

Definition is_ws (c : ascii) : bool :=
  ((c =? " ") || (c =? "009") || (c =? "010") || (c =? "013"))%char.

Fixpoint skip_ws (s : string) : string :=
  match s with
  | String c s' => if is_ws c then skip_ws s' else s
  | EmptyString => s
  end.

Definition is_digit (c : ascii) : bool :=
  let n := nat_of_ascii c in ((48 <=? n) && (n <=? 57))%nat.

Definition digit_val (c : ascii) : Z := Z.of_nat (nat_of_ascii c) - 48.

Definition hex_val (c : ascii) : option Z :=
  let n := nat_of_ascii c in
  if ((48 <=? n) && (n <=? 57))%nat then Some (Z.of_nat n - 48)
  else if ((65 <=? n) && (n <=? 70))%nat then Some (Z.of_nat n - 55)
  else if ((97 <=? n) && (n <=? 102))%nat then Some (Z.of_nat n - 87)
  else None.

(** The longest prefix of digits, and what follows it. *)
Fixpoint take_digits (s : string) : list ascii * string :=
  match s with
  | String c s' =>
      if is_digit c then
        let (ds, rest) := take_digits s' in (c :: ds, rest)
      else ([], s)
  | EmptyString => ([], s)
  end.

Definition digits_to_Z (ds : list ascii) : Z :=
  fold_left (fun acc c => 10 * acc + digit_val c) ds 0.

(** What the decoder depends on in the interpreter that runs it: how
    many containers deep the scanner gets before the recursion limit
    stops it, and [sys.get_int_max_str_digits()], where 0 is no limit
    (an interpreter without the limit behaves as with 0). *)
Record Interpreter : Type := mkInterpreter {
  recursion_room : nat;
  int_max_str_digits : nat
}.

(** [int(text)] refuses a text of [digits] digits beyond the limit; the
    limit is looked at only for more than 640 digits. *)
Definition exceeds_int_limit (py : Interpreter) (digits : nat) : bool :=
  ((640 <? digits) && (0 <? int_max_str_digits py)
   && (int_max_str_digits py <? digits))%nat.

(** The rational [m * 2 ^ e], negated when [negative]. *)
Definition dyadic (negative : bool) (m : positive) (e : Z) : Q :=
  let n := if negative then Z.neg m else Z.pos m in
  if (0 <=? e)%Z then inject_Z (n * 2 ^ e)
  else Qred (n # Z.to_pos (2 ^ (- e))).

(** [float(text)] for a text that denotes [m * 10 ^ e]: the binary64
    value nearest to it, ties to even, infinite beyond the range. *)
Definition float_of_decimal (m e : Z) : pyfloat :=
  let (n, d) :=
    if (0 <=? e)%Z then (Z.abs m * 10 ^ e, 1) else (Z.abs m, 10 ^ (- e)) in
  match n with
  | Z.pos p =>
      match SpecFloat.SFdiv 53 1024
              (SpecFloat.S754_finite (m <? 0)%Z p 0)
              (SpecFloat.S754_finite false (Z.to_pos d) 0) with
      | SpecFloat.S754_finite negative mz ez => FNum (dyadic negative mz ez)
      | SpecFloat.S754_infinity negative => FInf negative
      | SpecFloat.S754_zero _ => FNum 0
      | SpecFloat.S754_nan => FNaN
      end
  | _ => FNum 0
  end.

(** A number as the decoder's pattern matches it: an optional minus
    sign; then a single 0, or a nonzero digit and any digits; then, if
    present and complete, a dot with at least one digit; then, if present
    and complete, e or E, an optional sign and at least one digit.  The
    value is an [int] when there is neither fraction nor exponent, which
    the interpreter may refuse for its length, and a [float] otherwise.
    [None]: the text does not start with a number. *)
Definition scan_number (py : Interpreter) (s : string)
    : option (result (pyval * string)) :=
  let (sign, s1) :=
    match s with
    | String "-" r => (-1, r)
    | _ => (1, s)
    end in
  match s1 with
  | String c r =>
      if is_digit c then
        let (ipart, s2) :=
          if (c =? "0")%char then ([c], r) else take_digits s1 in
        let (frac, s3) :=
          match s2 with
          | String "." r2 =>
              match take_digits r2 with
              | ([], _) => (None, s2)
              | (fd, r3) => (Some fd, r3)
              end
          | _ => (None, s2)
          end in
        let (ex, s4) :=
          match s3 with
          | String e r3 =>
              if ((e =? "e") || (e =? "E"))%char then
                let (esign, r4) :=
                  match r3 with
                  | String "+" r' => (1, r')
                  | String "-" r' => (-1, r')
                  | _ => (1, r3)
                  end in
                match take_digits r4 with
                | ([], _) => (None, s3)
                | (ed, r5) => (Some (esign * digits_to_Z ed), r5)
                end
              else (None, s3)
          | EmptyString => (None, s3)
          end in
        match frac, ex with
        | None, None =>
            if exceeds_int_limit py (List.length ipart)
            then Some (Raise ValueError)
            else Some (Ok (PyInt (sign * digits_to_Z ipart), s4))
        | _, _ =>
            let fd := match frac with Some fd => fd | None => [] end in
            let e := match ex with Some e => e | None => 0 end in
            Some (Ok (PyFloat
                        (float_of_decimal
                           (sign * digits_to_Z (ipart ++ fd)%list)
                           (e - Z.of_nat (List.length fd))),
                      s4))
        end
      else None
  | EmptyString => None
  end.

Definition byte_char (z : Z) : ascii := ascii_of_nat (Z.to_nat z).

(** [chr(cp)], in UTF-8 (a lone surrogate is written like any other
    three-byte code point). *)
Definition chr_utf8 (cp : Z) : string :=
  if (cp <? 128)%Z then String (byte_char cp) ""
  else if (cp <? 2048)%Z then
    String (byte_char (192 + Z.shiftr cp 6))
      (String (byte_char (128 + Z.land cp 63)) "")
  else if (cp <? 65536)%Z then
    String (byte_char (224 + Z.shiftr cp 12))
      (String (byte_char (128 + Z.land (Z.shiftr cp 6) 63))
         (String (byte_char (128 + Z.land cp 63)) ""))
  else
    String (byte_char (240 + Z.shiftr cp 18))
      (String (byte_char (128 + Z.land (Z.shiftr cp 12) 63))
         (String (byte_char (128 + Z.land (Z.shiftr cp 6) 63))
            (String (byte_char (128 + Z.land cp 63)) ""))).

(** Four hexadecimal digits. *)
Definition hex4 (s : string) : option (Z * string) :=
  match s with
  | String a (String b (String c (String d rest))) =>
      match hex_val a, hex_val b, hex_val c, hex_val d with
      | Some x, Some y, Some z, Some w =>
          Some (((x * 16 + y) * 16 + z) * 16 + w, rest)
      | _, _, _, _ => None
      end
  | _ => None
  end.

Definition simple_escape (c : ascii) : option ascii :=
  if (c =? dquote)%char then Some dquote
  else if (c =? backslash)%char then Some backslash
  else if (c =? "/")%char then Some "/"%char
  else if (c =? "b")%char then Some "008"%char
  else if (c =? "f")%char then Some "012"%char
  else if (c =? "n")%char then Some "010"%char
  else if (c =? "r")%char then Some "013"%char
  else if (c =? "t")%char then Some "009"%char
  else None.

(** The text after a \u escape's first four digits: a high surrogate
    followed by an escaped low surrogate makes one code point. *)
Definition join_surrogates (uni : Z) (s : string) : option (Z * string) :=
  if ((55296 <=? uni) && (uni <=? 56319))%Z then
    match s with
    | String b (String u s') =>
        if ((b =? backslash) && (u =? "u"))%char then
          match hex4 s' with
          | Some (uni2, s'') =>
              if ((56320 <=? uni2) && (uni2 <=? 57343))%Z then
                Some (65536 + Z.lor (Z.shiftl (uni - 55296) 10) (uni2 - 56320),
                      s'')
              else Some (uni, s)
          | None => None
          end
        else Some (uni, s)
    | _ => Some (uni, s)
    end
  else Some (uni, s).

(** A string, from just after its opening quote to its closing quote. *)
Fixpoint scan_string (fuel : nat) (s : string) : option (string * string) :=
  match fuel with
  | O => None
  | S fuel' =>
      match s with
      | EmptyString => None
      | String c r =>
          if (c =? dquote)%char then Some ("", r)
          else if (c =? backslash)%char then
            match r with
            | EmptyString => None
            | String e r1 =>
                if (e =? "u")%char then
                  match hex4 r1 with
                  | Some (uni, r2) =>
                      match join_surrogates uni r2 with
                      | Some (cp, r3) =>
                          match scan_string fuel' r3 with
                          | Some (body, rest) =>
                              Some (chr_utf8 cp ++ body, rest)
                          | None => None
                          end
                      | None => None
                      end
                  | None => None
                  end
                else
                  match simple_escape e with
                  | Some x =>
                      match scan_string fuel' r1 with
                      | Some (body, rest) => Some (String x body, rest)
                      | None => None
                      end
                  | None => None
                  end
            end
          else if (nat_of_ascii c <? 32)%nat then None
          else
            match scan_string fuel' r with
            | Some (body, rest) => Some (String c body, rest)
            | None => None
            end
      end
  end.

(** [drop_prefix p s] is what follows [p] in [s], when [s] starts with it. *)
Fixpoint drop_prefix (p s : string) : option string :=
  match p with
  | EmptyString => Some s
  | String a p' =>
      match s with
      | String b s' => if (a =? b)%char then drop_prefix p' s' else None
      | EmptyString => None
      end
  end.

Definition scan_literal (py : Interpreter) (s : string)
    : result (pyval * string) :=
  match drop_prefix "null" s with
  | Some r => Ok (PyNone, r)
  | None =>
  match drop_prefix "true" s with
  | Some r => Ok (PyBool true, r)
  | None =>
  match drop_prefix "false" s with
  | Some r => Ok (PyBool false, r)
  | None =>
  match scan_number py s with
  | Some vr => vr
  | None =>
  match drop_prefix "NaN" s with
  | Some r => Ok (PyFloat FNaN, r)
  | None =>
  match drop_prefix "Infinity" s with
  | Some r => Ok (PyFloat (FInf false), r)
  | None =>
  match drop_prefix "-Infinity" s with
  | Some r => Ok (PyFloat (FInf true), r)
  | None => Raise JSONDecodeError
  end end end end end end end.

(** One JSON value at the start of [s]; the members of an object after
    its first quote has been seen; the elements of an array.  [room] is
    the number of containers the scanner may still enter: entering one
    more is a [RecursionError].  The first error met in the text is the
    one raised. *)
Fixpoint scan_once (py : Interpreter) (room fuel : nat) (s : string)
    {struct fuel} : result (pyval * string) :=
  match fuel with
  | O => Raise JSONDecodeError
  | S fuel' =>
      match s with
      | EmptyString => Raise JSONDecodeError
      | String c r =>
          if (c =? dquote)%char then
            match scan_string (S (String.length r)) r with
            | Some (str, rest) => Ok (PyStr str, rest)
            | None => Raise JSONDecodeError
            end
          else if (c =? "{")%char then
            match room with
            | O => Raise RecursionError
            | S room' =>
                match skip_ws r with
                | String "}" rest => Ok (PyDict [], rest)
                | r1 => scan_members py room' fuel' [] r1
                end
            end
          else if (c =? "[")%char then
            match room with
            | O => Raise RecursionError
            | S room' =>
                match skip_ws r with
                | String "]" rest => Ok (PyList [], rest)
                | r1 => scan_elems py room' fuel' [] r1
                end
            end
          else scan_literal py s
      end
  end
with scan_members (py : Interpreter) (room fuel : nat)
    (acc : list (string * pyval)) (s : string) {struct fuel}
    : result (pyval * string) :=
  match fuel with
  | O => Raise JSONDecodeError
  | S fuel' =>
      match s with
      | EmptyString => Raise JSONDecodeError
      | String c r =>
          if (c =? dquote)%char then
            match scan_string (S (String.length r)) r with
            | Some (key, r1) =>
                match skip_ws r1 with
                | String ":" r2 =>
                    match scan_once py room fuel' (skip_ws r2) with
                    | Ok (v, r3) =>
                        let acc' := dict_set acc key v in
                        match skip_ws r3 with
                        | String "}" rest => Ok (PyDict acc', rest)
                        | String "," r4 =>
                            scan_members py room fuel' acc' (skip_ws r4)
                        | _ => Raise JSONDecodeError
                        end
                    | Raise e => Raise e
                    end
                | _ => Raise JSONDecodeError
                end
            | None => Raise JSONDecodeError
            end
          else Raise JSONDecodeError
      end
  end
with scan_elems (py : Interpreter) (room fuel : nat) (acc : list pyval)
    (s : string) {struct fuel} : result (pyval * string) :=
  match fuel with
  | O => Raise JSONDecodeError
  | S fuel' =>
      match scan_once py room fuel' s with
      | Ok (v, r1) =>
          match skip_ws r1 with
          | String "]" rest => Ok (PyList (acc ++ [v])%list, rest)
          | String "," r2 =>
              scan_elems py room fuel' (acc ++ [v])%list (skip_ws r2)
          | _ => Raise JSONDecodeError
          end
      | Raise e => Raise e
      end
  end.

(** [json.loads]: one value, with whitespace allowed around it and
    nothing else after it. *)
Definition json_loads (py : Interpreter) (s : string) : result pyval :=
  let s0 := skip_ws s in
  match scan_once py (recursion_room py) (2 * String.length s0 + 2) s0 with
  | Ok (v, rest) =>
      match skip_ws rest with
      | EmptyString => Ok v
      | String _ _ => Raise JSONDecodeError
      end
  | Raise e => Raise e
  end.

(* ===================================================================== *)
(** * [control_message.py] *)
(* ===================================================================== *)

(** The attributes of [UnifiedControlMessage].  They are annotated
    [float], [str] and [int] but [update_from_json] stores whatever the
    message holds, so each is a Python value. *)
Record UnifiedControlMessage : Type := mkControl {
  rotation : pyval;
  brake : pyval;
  throttle : pyval;
  gear : pyval;
  boom : pyval;
  bucket : pyval;
  left_track : pyval;
  right_track : pyval;
  swing : pyval;
  stick : pyval;
  device_type : string;
  timestamp : pyval
}.

Definition zero : pyval := PyFloat (FNum 0).

(** [UnifiedControlMessage()], lines 13-32, when
    [int(time.time() * 1000)] is [now_ms]. *)
Definition new_control_message (now_ms : Z) : UnifiedControlMessage :=
  mkControl zero zero zero (PyStr "N") zero zero zero zero zero zero
    "wheel_loader" (PyInt now_ms).

Definition set_rotation (v : pyval) (m : UnifiedControlMessage) :=
  mkControl v (brake m) (throttle m) (gear m) (boom m) (bucket m)
    (left_track m) (right_track m) (swing m) (stick m) (device_type m)
    (timestamp m).
Definition set_brake (v : pyval) (m : UnifiedControlMessage) :=
  mkControl (rotation m) v (throttle m) (gear m) (boom m) (bucket m)
    (left_track m) (right_track m) (swing m) (stick m) (device_type m)
    (timestamp m).
Definition set_throttle (v : pyval) (m : UnifiedControlMessage) :=
  mkControl (rotation m) (brake m) v (gear m) (boom m) (bucket m)
    (left_track m) (right_track m) (swing m) (stick m) (device_type m)
    (timestamp m).
Definition set_gear (v : pyval) (m : UnifiedControlMessage) :=
  mkControl (rotation m) (brake m) (throttle m) v (boom m) (bucket m)
    (left_track m) (right_track m) (swing m) (stick m) (device_type m)
    (timestamp m).
Definition set_boom (v : pyval) (m : UnifiedControlMessage) :=
  mkControl (rotation m) (brake m) (throttle m) (gear m) v (bucket m)
    (left_track m) (right_track m) (swing m) (stick m) (device_type m)
    (timestamp m).
Definition set_bucket (v : pyval) (m : UnifiedControlMessage) :=
  mkControl (rotation m) (brake m) (throttle m) (gear m) (boom m) v
    (left_track m) (right_track m) (swing m) (stick m) (device_type m)
    (timestamp m).
Definition set_left_track (v : pyval) (m : UnifiedControlMessage) :=
  mkControl (rotation m) (brake m) (throttle m) (gear m) (boom m) (bucket m)
    v (right_track m) (swing m) (stick m) (device_type m) (timestamp m).
Definition set_right_track (v : pyval) (m : UnifiedControlMessage) :=
  mkControl (rotation m) (brake m) (throttle m) (gear m) (boom m) (bucket m)
    (left_track m) v (swing m) (stick m) (device_type m) (timestamp m).
Definition set_swing (v : pyval) (m : UnifiedControlMessage) :=
  mkControl (rotation m) (brake m) (throttle m) (gear m) (boom m) (bucket m)
    (left_track m) (right_track m) v (stick m) (device_type m) (timestamp m).
Definition set_stick (v : pyval) (m : UnifiedControlMessage) :=
  mkControl (rotation m) (brake m) (throttle m) (gear m) (boom m) (bucket m)
    (left_track m) (right_track m) (swing m) v (device_type m) (timestamp m).
Definition set_timestamp (v : pyval) (m : UnifiedControlMessage) :=
  mkControl (rotation m) (brake m) (throttle m) (gear m) (boom m) (bucket m)
    (left_track m) (right_track m) (swing m) (stick m) (device_type m) v.

(** [self.<field> = v_obj.get(key, self.<field>)] *)
Definition assign_get (v_obj : pyval) (key : string)
    (field : UnifiedControlMessage -> pyval)
    (set_field : pyval -> UnifiedControlMessage -> UnifiedControlMessage)
    : M UnifiedControlMessage unit :=
  current <- gets field ;;
  v <- lift (py_get v_obj key current) ;;
  modify (set_field v).

(** [a and b], where [b] is evaluated only if [a] holds. *)
Definition and_then {S} (a : bool) (b : M S bool) : M S bool :=
  if a then b else ret false.

(** The classes named by
    [except (json.JSONDecodeError, KeyError, TypeError)]. *)
Definition is_parse_error (e : exn) : bool :=
  match e with
  | JSONDecodeError | KeyError _ | TypeError => true
  | _ => false
  end.

(** Lines 50-58: the nine axes, each taken from [v_obj] when it has the
    key and kept otherwise. *)
Definition assign_axes (v_obj : pyval) : M UnifiedControlMessage unit :=
  assign_get v_obj "rotation" rotation set_rotation ;;;
  assign_get v_obj "brake" brake set_brake ;;;
  assign_get v_obj "throttle" throttle set_throttle ;;;
  assign_get v_obj "boom" boom set_boom ;;;
  assign_get v_obj "bucket" bucket set_bucket ;;;
  assign_get v_obj "leftTrack" left_track set_left_track ;;;
  assign_get v_obj "rightTrack" right_track set_right_track ;;;
  assign_get v_obj "swing" swing set_swing ;;;
  assign_get v_obj "stick" stick set_stick.

(** The body of the [try] of [update_from_json], lines 37-60. *)
Definition update_body (py : Interpreter) (json_data : string)
    : M UnifiedControlMessage bool :=
  data <- lift (json_loads py json_data) ;;
  has_t <- lift (py_in "t" data) ;;
  (if has_t then
     t <- lift (py_getitem data "t") ;;
     modify (set_timestamp t)
   else ret tt) ;;;
  has_type <- lift (py_in "type" data) ;;
  (if has_type then
     msg_type <- lift (py_getitem data "type") ;;
     is_gear <- and_then (py_eq_str msg_type "gear") (lift (py_in "gear" data)) ;;
     if is_gear then
       g <- lift (py_getitem data "gear") ;;
       modify (set_gear g)
     else
       is_analog <-
         and_then (py_eq_str msg_type "analog") (lift (py_in "v" data)) ;;
       if is_analog then
         v_obj <- lift (py_getitem data "v") ;;
         assign_axes v_obj
       else ret tt
   else ret tt) ;;;
  ret true.

(** [update_from_json], lines 34-63. *)
Definition update_from_json (py : Interpreter) (json_data : string)
    : M UnifiedControlMessage bool :=
  try_except (update_body py json_data) is_parse_error
    (fun e => emit (EvPrint e) ;;; ret false).

(* ===================================================================== *)
(** * [client.py] *)
(* ===================================================================== *)

(** The control state of [LoadExcClient]. *)
Record LoadExcClient : Type := mkClient {
  control_data : UnifiedControlMessage
}.

(** Run a method on a local object: events and exceptions pass through,
    and the object as the method left it is returned with the result. *)
Definition on_object {S T A} (obj : T) (m : M T A) : M S (A * T) :=
  fun s =>
    match m obj with
    | (Ok a, obj', t) => (Ok (a, obj'), s, t)
    | (Raise e, _, t) => (Raise e, s, t)
    end.

(** [s[:100]] *)
Definition head100 (s : string) : string := py_prefix 100 s.

(** [control_callback], lines 95-112, for a message with text [msg_data]
    received when [int(time.time() * 1000)] is [now_ms]. *)
Definition control_callback (py : Interpreter) (msg_data : string)
    (now_ms : Z) : M LoadExcClient unit :=
  try_except
    (let new_control := new_control_message now_ms in
     r <- on_object new_control (update_from_json py msg_data) ;;
     let '(parsed, new_control) := r in
     if parsed then
       modify (fun _ => mkClient new_control) ;;;
       emit (EvLog INFO (MsgControlReceived (head100 msg_data)))
     else
       emit (EvLog WARN MsgControlParseFailed))
    is_Exception
    (fun e => emit (EvLog ERROR (MsgControlHandlingError e))).

Section ClientVideo.
Variables luma chroma_u chroma_v : byte -> byte -> byte -> byte.

(** The inner [try] of [publish_video_frame], lines 128-161, for the
    rendered BGR frame, without the local preview. *)
Definition publish_rendered {S} (now : Z) (sink : Image -> result unit)
    (frame : ndarray) : M S unit :=
  try_except
    (yuv_frame <-
       lift (cvtColor luma chroma_u chroma_v frame COLOR_BGR2YUV_I420) ;;
     emit (EvClockNow now) ;;;
     let ros_image :=
       mkImage now "camera_link" (rows frame) (cols frame) "i420" 0
         (cols yuv_frame) (tobytes yuv_frame) in
     emit (EvPublish ros_image) ;;;
     lift (sink ros_image))
    is_Exception
    (fun e => emit (EvLog ERROR (MsgPublishError e))).
End ClientVideo.

(* ===================================================================== *)
(** * Vocabulary of the properties, and sample data *)
(* ===================================================================== *)

Local Open Scope list_scope.
Local Open Scope Z_scope.

(** The last [n] elements of a list. *)
Definition last_n {A} (n : nat) (l : list A) : list A :=
  skipn (List.length l - n) l.

(** A queue as [queue.Queue(maxsize=c)] keeps it: never above capacity. *)
Definition within_capacity {A} (c : nat) (q : Queue A) : Prop :=
  maxsize q = Z.of_nat c /\ (List.length (items q) <= c)%nat.

(** Both relays of a node are within their capacity of two. *)
Definition relays_within_capacity (st : Publisher) : Prop :=
  within_capacity 2 (raw_frame_queue st) /\
  within_capacity 2 (processed_frame_queue st).

(** The state after the processing thread took a frame off the raw queue,
    leaving [rest] there, and counted it. *)
Definition after_take (rest : list ndarray) (st : Publisher) : Publisher :=
  set_frame_count (frame_count st + 1)
    (set_raw_frame_queue (mkQueue (maxsize (raw_frame_queue st)) rest) st).

(** Readings of a trace: the images handed to the topic, the clock
    values read, the number of non-blocking takes on a queue, and the
    number of calls that can wait (a blocking get or a sleep). *)
Definition published (tr : list event) : list Image :=
  flat_map (fun ev => match ev with EvPublish img => [img] | _ => [] end) tr.

Definition clock_reads (tr : list event) : list Z :=
  flat_map (fun ev => match ev with EvClockNow t => [t] | _ => [] end) tr.

Definition takes (q : queue_id) (tr : list event) : nat :=
  List.length
    (filter (fun ev =>
               match ev, q with
               | EvGetNowait RawQueue _, RawQueue => true
               | EvGetNowait ProcessedQueue _, ProcessedQueue => true
               | _, _ => false
               end) tr).

Definition waits (tr : list event) : nat :=
  List.length
    (filter (fun ev =>
               match ev with
               | EvGetBlocking _ _ _ | EvSleep _ => true
               | _ => false
               end) tr).

(** The encoding the constructor settles on for an argument. *)
Definition effective_encoding (encoding : string) : string :=
  if str_in (lower encoding) ["bgr8"; "rgb8"; "i420"]%string
  then lower encoding else "i420"%string.

(** A machine on which every capture device opens, and one on which
    none does. *)
Definition friendly_device : Device :=
  mkDevice (fun _ _ => true) 1280 720 30.

Definition dead_device : Device :=
  mkDevice (fun _ _ => false) 0 0 0.

(** Sample colour arithmetic: the green, blue and red channel as they are. *)
Definition sample_luma (b g r : byte) : byte := g.
Definition sample_u (b g r : byte) : byte := b.
Definition sample_v (b g r : byte) : byte := r.

(** A 2 x 2 BGR frame. *)
Definition frame_2x2 : ndarray :=
  mkArray 2 2 3 [x01; x02; x03; x04; x05; x06; x07; x08; x09; x0a; x0b; x0c].

(** A 1 x 3 BGR frame: its width is odd. *)
Definition frame_1x3 : ndarray :=
  mkArray 1 3 3 [x01; x02; x03; x04; x05; x06; x07; x08; x09].

(** A black 1280 x 720 BGR frame. *)
Definition frame_720p : ndarray :=
  mkArray 720 1280 3 (repeat x00 (Z.to_nat (720 * 1280 * 3))).

(** A running node with the given encoding and raw queue, as the
    constructor leaves its other fields for a 15 fps camera. *)
Definition sample_node (enc : string) (raw : list ndarray) : Publisher :=
  mkPublisher "/camera_front_wide" false 15 (1 # 15) 0 enc
    (Some (mkCapture (SrcIndex 0) CAP_V4L2 true))
    (mkQueue 2 raw) (new_queue 2) true false (1 # 15).

(** The analog message of the end-to-end scenario, and an earlier one
    that turns the wheel. *)
Definition throttle_message : string :=
  dq "{'type':'analog','v':{'throttle':0.5},'t':1000}".

Definition rotation_message : string :=
  dq "{'type':'analog','v':{'rotation':0.7},'t':900}".

Definition half : pyval := PyFloat (FNum (1 # 2)).

(** A decoded object carries no payload that [update_from_json] applies:
    its "type" is absent, or is neither "gear" with a "gear" key nor
    "analog" with a "v" key. *)
Definition payload_missing (d : list (string * pyval)) : Prop :=
  match dict_get d "type" with
  | None => True
  | Some ty =>
      (py_eq_str ty "gear" = true -> dict_get d "gear" = None) /\
      (py_eq_str ty "analog" = true -> dict_get d "v" = None)
  end.

(** The message with its timestamp replaced by the "t" of the object,
    when the object has one. *)
Definition touch_timestamp (d : list (string * pyval))
    (m : UnifiedControlMessage) : UnifiedControlMessage :=
  match dict_get d "t" with
  | Some t => set_timestamp t m
  | None => m
  end.

(** The outcomes of [json.loads] on which [update_from_json] answers
    [False]: a [JSONDecodeError]; the scalars, which support neither [in]
    nor indexing; and the strings and lists in which the membership test
    for "t" or "type" succeeds, so that the indexing that follows
    fails. *)
Definition answers_false (decoded : result pyval) : bool :=
  match decoded with
  | Raise JSONDecodeError => true
  | Raise _ => false
  | Ok (PyDict _) => false
  | Ok (PyList l) =>
      existsb (fun y => py_eq_str y "t") l
      || existsb (fun y => py_eq_str y "type") l
  | Ok (PyStr s) => str_contains "t" s || str_contains "type" s
  | Ok _ => true
  end.

(** A topic that refuses every image. *)
Definition failing_sink (img : Image) : result unit := Raise SinkError.

(** An interpreter with CPython's default limit of 4300 digits and room
    for 900 nested containers, and one like it without the digit
    limit. *)
Definition cpython : Interpreter := mkInterpreter 900 4300.

Definition no_digit_limit : Interpreter := mkInterpreter 900 0.

Fixpoint zeros (n : nat) : string :=
  match n with
  | O => EmptyString
  | S n' => String "0" (zeros n')
  end.

(** An object whose only member is the integer 10^4300, which has 4301
    digits. *)
Definition long_integer_message : string :=
  (dq "{'a':1" ++ zeros 4300 ++ "}")%string.

(** The exception classes that [json.loads] raises. *)
Definition raised_by_loads (e : exn) : Prop :=
  e = JSONDecodeError \/ e = ValueError \/ e = RecursionError.

(** The exception classes named in the [except] clause of
    [update_from_json]. *)
Definition caught_by_update (e : exn) : Prop :=
  e = JSONDecodeError \/ (exists key, e = KeyError key) \/ e = TypeError.

(** The three encodings of the node, as the constructor names them. *)
Definition supported_encodings : list string := ["bgr8"; "rgb8"; "i420"].

(** [c] is the character [k] of a name in lower case, or its capital. *)
Definition spells (c k : ascii) : bool :=
  (c =? k)%char
  || ((97 <=? nat_of_ascii k) && (nat_of_ascii k <=? 122)
      && (nat_of_ascii k =? nat_of_ascii c + 32))%nat.

(** [s] is [name] up to the case of its letters. *)
Fixpoint spelling (s name : string) : bool :=
  match s, name with
  | EmptyString, EmptyString => true
  | String c s', String k name' => spells c k && spelling s' name'
  | _, _ => false
  end.

(** [len(s)] *)
Definition py_len (s : string) : nat := List.length (first_bytes s).

(** The four characters M, J, P and e with an acute accent, whose UTF-8
    form has five bytes. *)
Definition mjpe_acute : string :=
  String "M" (String "J" (String "P" (String "195" (String "169" "")))).

Definition gear_message : string := dq "{'type':'gear','gear':'D','t':800}".

(* ===================================================================== *)
(** * The rest of the node, the client and the control message *)
(* ===================================================================== *)

(** ** Schedules of the pipeline

    The three stages run concurrently.  A schedule lists their passes in
    the order in which they take effect, each pass taken as a whole: a
    pass of [capture_loop] for one answer of [cap.read()], a pass of
    [processing_loop], a tick of the publish timer, and [destroy_node].
    A loop whose guard [self.running] is false does not run its body. *)
Inductive action : Type :=
| ACapture (rd : bool * ndarray)
| AProcess
| ATick (now : Z) (sink : Image -> result unit)
| ADestroy.

(** [while self.running: body], one evaluation of the guard. *)
Definition guarded (body : M Publisher unit) : M Publisher unit :=
  r <- gets running ;;
  if r then body else ret tt.

Section Schedules.
Variables luma chroma_u chroma_v : byte -> byte -> byte -> byte.

Definition do_action (a : action) : M Publisher unit :=
  match a with
  | ACapture rd => guarded (capture_iter rd)
  | AProcess => guarded (processing_iter luma chroma_u chroma_v)
  | ATick now sink => publish_frame now sink
  | ADestroy => destroy_node
  end.

Fixpoint run (acts : list action) : M Publisher unit :=
  match acts with
  | [] => ret tt
  | a :: acts' => do_action a ;;; run acts'
  end.

(** The packaged tuples of the frames of a list that convert, in order. *)
Definition pack (enc : string) (frames : list ndarray) : list packaged :=
  flat_map (fun f =>
              match package_frame luma chroma_u chroma_v enc f with
              | Ok p => [p]
              | Raise _ => []
              end) frames.
End Schedules.

(** The frames that [cap.read()] delivers in a schedule, and in a list of
    answers. *)
Definition good_reads (reads : list (bool * ndarray)) : list ndarray :=
  flat_map (fun rd : bool * ndarray => if fst rd then [snd rd] else [])
    reads.

Definition frames_read (acts : list action) : list ndarray :=
  flat_map (fun a =>
              match a with
              | ACapture (true, f) => [f]
              | _ => []
              end) acts.

(** The tuple an image was built from. *)
Definition tuple_of_image (img : Image) : packaged :=
  (data img, height img, width img, img_encoding img, step img).

(** [l1] is [l2] with some elements left out. *)
Inductive subseq {A : Type} : list A -> list A -> Prop :=
| subseq_nil : subseq [] []
| subseq_skip x l1 l2 : subseq l1 l2 -> subseq l1 (x :: l2)
| subseq_take x l1 l2 : subseq l1 l2 -> subseq (x :: l1) (x :: l2).

(** The number of log lines of a level in a trace. *)
Definition logged (lv : level) (tr : list event) : nat :=
  List.length
    (filter (fun ev =>
               match ev, lv with
               | EvLog INFO _, INFO | EvLog WARN _, WARN
               | EvLog ERROR _, ERROR => true
               | _, _ => false
               end) tr).

(** The attempts of [open_camera] on a source, in the order it makes
    them. *)
Definition attempts (src : camera_source) : list (camera_source * backend) :=
  match src with
  | SrcIndex i =>
      [(src, CAP_V4L2);
       (SrcPath ("/dev/video" ++ str_of_int i)%string, CAP_V4L2);
       (SrcPath ("/dev/video" ++ str_of_int i)%string, CAP_ANY)]
  | SrcPath _ => [(src, CAP_V4L2); (src, CAP_ANY)]
  end.

(** ** [control_message.py]: [to_dict] *)

(** [to_dict], lines 83-98. *)
Definition to_dict (m : UnifiedControlMessage) : pyval :=
  PyDict [("rotation", rotation m);
          ("brake", brake m);
          ("throttle", throttle m);
          ("gear", gear m);
          ("boom", boom m);
          ("bucket", bucket m);
          ("left_track", left_track m);
          ("right_track", right_track m);
          ("swing", swing m);
          ("stick", stick m);
          ("device_type", PyStr (device_type m));
          ("timestamp", timestamp m)]%string.

(** The value an axis takes from a payload: the payload's, when it has
    the key, and the present one otherwise. *)
Definition pick (dv : list (string * pyval)) (key : string) (old : pyval)
    : pyval :=
  match dict_get dv key with
  | Some v => v
  | None => old
  end.

(** The message after an analog payload [dv] was applied to it. *)
Definition with_axes (dv : list (string * pyval)) (m : UnifiedControlMessage)
    : UnifiedControlMessage :=
  mkControl (pick dv "rotation" (rotation m)) (pick dv "brake" (brake m))
    (pick dv "throttle" (throttle m)) (gear m)
    (pick dv "boom" (boom m)) (pick dv "bucket" (bucket m))
    (pick dv "leftTrack" (left_track m))
    (pick dv "rightTrack" (right_track m))
    (pick dv "swing" (swing m)) (pick dv "stick" (stick m))
    (device_type m) (timestamp m).

(** ** [client.py]: status, video tick and preview window *)

(** [get_control_status], lines 190-193. *)
Definition get_control_status : M LoadExcClient pyval :=
  gets (fun c => to_dict (control_data c)).

Section ClientTick.
Variables luma chroma_u chroma_v : byte -> byte -> byte -> byte.

(** What the renderer answers for a control state: the BGR frame it
    draws, or the exception it raises. *)
Variable render : UnifiedControlMessage -> result ndarray.

(** [publish_video_frame], lines 114-164, without the local preview, on
    a tick at which [int(time.time() * 1000)] is [now_ms] and the node
    clock reads [now].  [current_control] is the client's own control
    object, so the assignment to its timestamp is an assignment to
    [self.control_data.timestamp].  The result is the exception that the
    outer handler logged, if any. *)
Definition publish_video_frame (now_ms now : Z)
    (sink : Image -> result unit) : M LoadExcClient (option exn) :=
  try_except
    (modify (fun c =>
               mkClient (set_timestamp (PyInt now_ms) (control_data c))) ;;;
     current_control <- gets control_data ;;
     frame <- lift (render current_control) ;;
     publish_rendered luma chroma_u chroma_v now sink frame ;;;
     ret None)
    is_Exception
    (fun e => ret (Some e)).
End ClientTick.

(** The lines that the preview methods log. *)
Inductive preview_msg : Type :=
| PvSized (w h : Z)        (* info, setup_preview_window *)
| PvSetupFailed            (* error, setup_preview_window *)
| PvResized (w h : Z)      (* info, resize_preview_window *)
| PvResizeFailed           (* error, resize_preview_window *)
| PvEnabled                (* info, toggle_preview *)
| PvDisabled               (* info, toggle_preview *)
| PvClosed.                (* info, close_preview *)

(** The preview attributes of [LoadExcClient], with the lines logged. *)
Record Preview : Type := mkPreview {
  show_preview : bool;
  preview_width : Z;
  preview_height : Z;
  preview_log : list preview_msg
}.

Definition pv_log (msg : preview_msg) (p : Preview) : Preview :=
  mkPreview (show_preview p) (preview_width p) (preview_height p)
    (preview_log p ++ [msg]).

Definition pv_show (b : bool) (p : Preview) : Preview :=
  mkPreview b (preview_width p) (preview_height p) (preview_log p).

(** [setup_preview_window], lines 85-93; [window_ok] tells whether the
    window calls of the method go through or raise. *)
Definition setup_preview_window (window_ok : bool) (p : Preview) : Preview :=
  if window_ok then pv_log (PvSized (preview_width p) (preview_height p)) p
  else pv_show false (pv_log PvSetupFailed p).

(** [resize_preview_window], lines 166-175. *)
Definition resize_preview_window (window_ok : bool) (width height : Z)
    (p : Preview) : Preview :=
  if show_preview p then
    let p1 := mkPreview (show_preview p) width height (preview_log p) in
    if window_ok then pv_log (PvResized width height) p1
    else pv_log PvResizeFailed p1
  else p.

(** [toggle_preview], lines 177-188. *)
Definition toggle_preview (window_ok : bool) (p : Preview) : Preview :=
  let p1 := pv_show (negb (show_preview p)) p in
  if show_preview p1 then
    pv_log PvEnabled (setup_preview_window window_ok p1)
  else
    if window_ok then pv_log PvDisabled p1 else p1.

(** [close_preview], lines 195-202. *)
Definition close_preview (window_ok : bool) (p : Preview) : Preview :=
  if show_preview p then
    if window_ok then pv_log PvClosed p else p
  else p.

(** ** [test_camera_i420.py]: the format name of a FOURCC code *)

(** Line 49: the four low bytes of the code, lowest first, as
    characters. *)
Definition fourcc_name (actual_fourcc : Z) : string :=
  String.concat EmptyString
    (map (fun i => chr_utf8 (Z.land (Z.shiftr actual_fourcc (8 * i)) 255))
         [0; 1; 2; 3]).

Definition is_ascii (c : ascii) : Prop := (nat_of_ascii c < 128)%nat.

(** ** Vocabulary for schedules *)

(** A topic whose failures are ordinary exceptions (not a
    [SystemExit]). *)
Definition tame_sink (sink : Image -> result unit) : Prop :=
  forall img e, sink img = Raise e -> is_Exception e = true.

Definition tame_action (a : action) : Prop :=
  match a with
  | ATick _ sink => tame_sink sink
  | _ => True
  end.

(** The fields that only the constructor writes. *)
Definition same_configuration (st st' : Publisher) : Prop :=
  topic st' = topic st /\ display st' = display st /\
  target_fps st' = target_fps st /\ frame_interval st' = frame_interval st /\
  encoding st' = encoding st /\ debug_overlay st' = debug_overlay st /\
  timer_period st' = timer_period st.

(** A frame as the camera delivers it: three channels, one byte each. *)
Definition bgr_frame (f : ndarray) : Prop :=
  well_shaped f /\ channels f = 3.

Section ScheduleVocabulary.
Variables luma chroma_u chroma_v : byte -> byte -> byte -> byte.

(** What a stretch of a schedule did to a node: [st1] and [tr1] are the
    node and the trace after it, [acts] its actions, and [taken] the
    frames that left the raw queue in it.  The relays are within
    capacity, the configuration is as before, the flag has not come back
    up, every frame taken was counted, the frames taken or still queued
    are frames that were queued or read, in that order, and the tuples
    published or still queued are tuples that were queued or packaged
    from the frames taken, in that order. *)
Definition history (acts : list action) (st st1 : Publisher)
    (tr1 : list event) (taken : list ndarray) : Prop :=
  relays_within_capacity st1 /\
  same_configuration st st1 /\
  (running st = false -> running st1 = false) /\
  frame_count st1 = frame_count st + Z.of_nat (List.length taken) /\
  subseq (taken ++ items (raw_frame_queue st1))
         (items (raw_frame_queue st) ++ frames_read acts) /\
  subseq (map tuple_of_image (published tr1)
          ++ items (processed_frame_queue st1))
         (items (processed_frame_queue st)
          ++ pack luma chroma_u chroma_v (encoding st) taken) /\
  Forall (fun img => frame_id img = "camera_link"%string /\
                     is_bigendian img = 0)
         (published tr1).
End ScheduleVocabulary.

(** What a published image must satisfy for a node of encoding [enc]
    whose camera delivered [frames]: the header constants, the node's
    encoding, the size of one of the frames, and a stride and payload
    that agree with them (the payload is [step * height] bytes for the
    packed encodings and [step * height * 3 / 2] for i420). *)
Definition consistent_image (enc : string) (frames : list ndarray)
    (img : Image) : Prop :=
  frame_id img = "camera_link"%string /\
  is_bigendian img = 0 /\
  img_encoding img = enc /\
  (exists f, In f frames /\ height img = rows f /\ width img = cols f) /\
  if (enc =? "i420")%string then
    step img = width img /\
    2 * Z.of_nat (List.length (data img)) = 3 * (step img * height img)
  else
    step img = width img * 3 /\
    Z.of_nat (List.length (data img)) = step img * height img.

(** An action of one of the two loops or [destroy_node], not a tick. *)
Definition not_a_tick (a : action) : Prop :=
  match a with
  | ATick _ _ => False
  | _ => True
  end.

(** The handle [open_camera] hands out for the first attempt that opens. *)
Definition first_opening (dev : Device) (src : camera_source)
    : option VideoCapture :=
  match find (fun a : camera_source * backend => probe dev (fst a) (snd a))
             (attempts src) with
  | Some (p, b) => Some (mkCapture p b true)
  | None => None
  end.

(** A Python value other than a [dict]. *)
Definition not_an_object (v : pyval) : Prop :=
  match v with
  | PyDict _ => False
  | _ => True
  end.

(** ** Sample data for the statements below *)

Definition accepting_sink (img : Image) : result unit := Ok tt.

(** A schedule: two frames are read, one is processed and published,
    the node is destroyed, and a late pass of each loop follows. *)
Definition sample_schedule : list action :=
  [ACapture (true, frame_2x2); ACapture (false, frame_2x2);
   ACapture (true, frame_1x3); AProcess; ATick 7 accepting_sink;
   ADestroy; AProcess; ACapture (true, frame_2x2)].

(** A renderer that draws a black 2 x 2 frame whatever the state. *)
Definition sample_render (m : UnifiedControlMessage) : result ndarray :=
  Ok (mkArray 2 2 3 (repeat x00 12)).

(** A message whose analog payload is the [to_dict] form of a state with
    rotation 0.25 and left track 0.5. *)
Definition echoed_state : UnifiedControlMessage :=
  set_left_track half
    (set_rotation (PyFloat (FNum (1 # 4))) (new_control_message 5)).

Definition echo_message : string :=
  dq ("{'type':'analog','v':{'rotation':0.25,'brake':0.0,'throttle':0.0,"
      ++ "'gear':'N','boom':0.0,'bucket':0.0,'left_track':0.5,"
      ++ "'right_track':0.0,'swing':0.0,'stick':0.0,"
      ++ "'device_type':'wheel_loader','timestamp':5}}")%string.

(* ===================================================================== *)
(** * Properties *)
(* ===================================================================== *)

(** ** The relay queue *)

Section RelayQueue.
Context {A : Type}.
Implicit Types (q : Queue A) (x : A) (l xs : list A).

Lemma last_n_short n l : (List.length l <= n)%nat -> last_n n l = l.
Proof.
  intros H. unfold last_n.
  replace (List.length l - n)%nat with 0%nat by lia. reflexivity.
Qed.

Lemma length_last_n n l : List.length (last_n n l) = Nat.min n (List.length l).
Proof. unfold last_n. rewrite length_skipn. lia. Qed.

Lemma last_n_app n l xs :
  last_n n (last_n n l ++ xs) = last_n n (l ++ xs).
Proof.
  unfold last_n at 1 3. rewrite !length_app, length_last_n, !skipn_app.
  rewrite length_last_n. unfold last_n. rewrite skipn_skipn.
  f_equal; f_equal; lia.
Qed.

Lemma last_n_app_long n l xs :
  (n <= List.length xs)%nat -> last_n n (l ++ xs) = last_n n xs.
Proof.
  intros H. unfold last_n. rewrite length_app, skipn_app.
  rewrite skipn_all2 by lia. simpl. f_equal. lia.
Qed.

Lemma last_n_snoc_full n y l x :
  List.length (y :: l) = n -> last_n n ((y :: l) ++ [x]) = l ++ [x].
Proof.
  intros H. unfold last_n. rewrite length_app. simpl List.length in *.
  replace (S (List.length l) + 1 - n)%nat with 1%nat by lia. reflexivity.
Qed.

(** One drop-oldest put on a queue of positive capacity always goes
    through and leaves the newest [c] items. *)
Lemma try_put_within_capacity (c : nat) q x :
  (0 < c)%nat -> within_capacity c q ->
  try_put q x = Ok (mkQueue (Z.of_nat c) (last_n c (items q ++ [x]))).
Proof.
  intros Hc [Hm Hlen]. unfold try_put, put_nowait, full, qsize.
  rewrite Hm.
  destruct (Z.of_nat c <=? Z.of_nat (List.length (items q))) eqn:Hfull.
  - apply Z.leb_le in Hfull.
    assert (Heq : List.length (items q) = c) by lia.
    replace (0 <? Z.of_nat c) with true by (symmetry; apply Z.ltb_lt; lia).
    simpl. unfold get_nowait.
    destruct (items q) as [|y l] eqn:Hit; [simpl in Heq; lia|].
    simpl maxsize. simpl items. rewrite Hm.
    replace (0 <? Z.of_nat c) with true by (symmetry; apply Z.ltb_lt; lia).
    replace (Z.of_nat c <=? Z.of_nat (List.length l)) with false
      by (symmetry; apply Z.leb_gt; simpl in Heq; lia).
    simpl. change (y :: l ++ [x]) with ((y :: l) ++ [x]).
    now rewrite last_n_snoc_full by exact Heq.
  - rewrite andb_false_r. apply Z.leb_gt in Hfull.
    rewrite last_n_short; [reflexivity|]. rewrite length_app. simpl. lia.
Qed.

Lemma try_put_all_within_capacity (c : nat) xs : forall q,
  (0 < c)%nat -> within_capacity c q ->
  exists q', try_put_all q xs = Ok q' /\ within_capacity c q' /\
             items q' = last_n c (items q ++ xs).
Proof.
  induction xs as [|x xs IH]; intros q Hc Hq.
  - exists q. simpl. rewrite app_nil_r.
    destruct Hq as [Hm Hl]. rewrite last_n_short by exact Hl.
    repeat split; assumption.
  - simpl. rewrite (try_put_within_capacity x Hc Hq).
    set (q1 := mkQueue (Z.of_nat c) (last_n c (items q ++ [x]))).
    assert (H1 : within_capacity c q1).
    { split; [reflexivity|]. unfold q1. simpl. rewrite length_last_n. lia. }
    destruct (IH q1 Hc H1) as (q' & Hrun & Hq' & Hitems).
    exists q'. repeat split; try assumption; try apply Hq'.
    rewrite Hitems. unfold q1. simpl. rewrite last_n_app.
    now rewrite <- app_assoc.
Qed.
End RelayQueue.

(** C1.  On a relay queue of capacity 2, in any state it can be in, a run
    of drop-oldest puts that ends with the items [a] then [b] leaves
    exactly those two: the next take returns [a], the one after returns
    [b], and a third finds the queue empty, so nothing older than two
    puts ago is ever taken.  In particular ten puts into the fresh queue
    followed by one take give the ninth item. *)
Theorem relay_queue_keeps_last_two :
  (forall (A : Type) (q0 : Queue A) (older : list A) (a b : A),
      within_capacity 2 q0 ->
      exists q,
        try_put_all q0 (older ++ [a; b]) = Ok q /\
        items q = [a; b] /\
        try_take q = Ok (a, mkQueue 2 [b]) /\
        try_take (mkQueue 2 [b]) = Ok (b, mkQueue 2 []) /\
        try_take (mkQueue 2 (@nil A)) = Raise QueueEmpty) /\
  (forall (A : Type) (x1 x2 x3 x4 x5 x6 x7 x8 x9 x10 : A),
      exists q,
        try_put_all (new_queue 2) [x1; x2; x3; x4; x5; x6; x7; x8; x9; x10]
          = Ok q /\
        try_take q = Ok (x9, mkQueue 2 [x10])).
Proof.
  assert (G : forall (A : Type) (q0 : Queue A) (older : list A) (a b : A),
      within_capacity 2 q0 ->
      exists q,
        try_put_all q0 (older ++ [a; b]) = Ok q /\
        items q = [a; b] /\
        try_take q = Ok (a, mkQueue 2 [b]) /\
        try_take (mkQueue 2 [b]) = Ok (b, mkQueue 2 []) /\
        try_take (mkQueue 2 (@nil A)) = Raise QueueEmpty).
  { intros A q0 older a b Hq.
    destruct (try_put_all_within_capacity (older ++ [a; b]) (c := 2) (q := q0))
      as (q & Hrun & [Hm _] & Hitems); [lia | exact Hq |].
    rewrite app_assoc, last_n_app_long in Hitems by (simpl; lia).
    change (last_n 2 [a; b]) with [a; b] in Hitems.
    exists q. repeat split; try assumption.
    unfold try_take, get_nowait. now rewrite Hitems, Hm. }
  split; [exact G|].
  intros A x1 x2 x3 x4 x5 x6 x7 x8 x9 x10.
  destruct (G A (new_queue 2) [x1; x2; x3; x4; x5; x6; x7; x8] x9 x10)
    as (q & Hrun & _ & Htake & _).
  { split; [reflexivity | simpl; lia]. }
  exists q. split; assumption.
Qed.

Lemma relay_queue_keeps_last_two_witness :
  within_capacity 2 (mkQueue 2 [7; 8]) /\
  exists q,
    try_put_all (mkQueue 2 [7; 8]) ([1; 2; 3] ++ [4; 5]) = Ok q /\
    items q = [4; 5] /\
    try_take q = Ok (4, mkQueue 2 [5]) /\
    try_take (mkQueue 2 [5]) = Ok (5, mkQueue 2 []) /\
    try_take (mkQueue 2 (@nil Z)) = Raise QueueEmpty.
Proof.
  split.
  - split; [reflexivity | simpl; lia].
  - apply (proj1 relay_queue_keeps_last_two Z (mkQueue 2 [7; 8]) [1; 2; 3] 4 5).
    split; [reflexivity | simpl; lia].
Defined.

(** ** Layout of converted images *)

Lemma length_zrange n : List.length (zrange n) = Z.to_nat n.
Proof. unfold zrange. now rewrite length_map, length_seq. Qed.

Lemma length_flat_map_const {A B} (f : A -> list B) (k : nat) (l : list A) :
  (forall x, List.length (f x) = k) ->
  List.length (flat_map f l) = (List.length l * k)%nat.
Proof.
  intros Hf. induction l as [|x l IH]; simpl; [reflexivity|].
  now rewrite length_app, Hf, IH.
Qed.

Section Layout.
Variables luma chroma_u chroma_v : byte -> byte -> byte -> byte.

Lemma length_plane f a h w stride :
  List.length (plane f a h w stride) = (Z.to_nat h * Z.to_nat w)%nat.
Proof.
  unfold plane.
  rewrite length_flat_map_const with (k := Z.to_nat w).
  - now rewrite length_zrange.
  - intros r. now rewrite length_map, length_zrange.
Qed.

Lemma Zlength_plane f a h w stride :
  0 <= h -> 0 <= w ->
  Z.of_nat (List.length (plane f a h w stride)) = h * w.
Proof. intros Hh Hw. rewrite length_plane. lia. Qed.

(** The planar buffer: a full plane and two quarter planes. *)
Lemma Zlength_i420 a :
  0 <= rows a -> 0 <= cols a ->
  Z.of_nat (List.length (tobytes (bgr2yuv_i420 luma chroma_u chroma_v a)))
  = rows a * cols a + 2 * ((rows a / 2) * (cols a / 2)).
Proof.
  intros Hr Hc. unfold tobytes, bgr2yuv_i420. simpl buf.
  rewrite !length_app, !Nat2Z.inj_add, !Zlength_plane; try lia;
    apply Z.div_pos; lia.
Qed.

Lemma Zlength_i420_even a :
  0 <= rows a -> 0 <= cols a ->
  Z.even (rows a) = true -> Z.even (cols a) = true ->
  2 * Z.of_nat (List.length (tobytes (bgr2yuv_i420 luma chroma_u chroma_v a)))
  = 3 * (cols a * rows a).
Proof.
  intros Hr Hc Er Ec. rewrite Zlength_i420 by assumption.
  apply Z.even_spec in Er. apply Z.even_spec in Ec.
  destruct Er as [r Er]. destruct Ec as [c Ec]. rewrite Er, Ec.
  rewrite !(Z.mul_comm 2), !Z.div_mul by lia. ring.
Qed.

Lemma Zlength_rgb a :
  0 <= rows a -> 0 <= cols a ->
  Z.of_nat (List.length (tobytes (bgr2rgb a))) = cols a * rows a * 3.
Proof.
  intros Hr Hc. unfold tobytes, bgr2rgb. simpl buf.
  rewrite length_flat_map_const with (k := (Z.to_nat (cols a) * 3)%nat).
  - rewrite length_zrange. lia.
  - intros r. rewrite length_flat_map_const with (k := 3%nat).
    + now rewrite length_zrange.
    + reflexivity.
Qed.

(** The conversion only ever fails with the library's own error. *)
Lemma cvtColor_raises a code e :
  cvtColor luma chroma_u chroma_v a code = Raise e ->
  exists what, e = Cv2Error what.
Proof.
  unfold cvtColor.
  destruct (_ || _); [intros [= <-]; eauto|].
  destruct (negb _); [intros [= <-]; eauto|].
  destruct code; [|discriminate].
  destruct (_ && _); [discriminate | intros [= <-]; eauto].
Qed.

Lemma cvtColor_i420_ok a :
  0 < rows a -> 0 < cols a -> channels a = 3 ->
  Z.even (rows a) = true -> Z.even (cols a) = true ->
  cvtColor luma chroma_u chroma_v a COLOR_BGR2YUV_I420
  = Ok (bgr2yuv_i420 luma chroma_u chroma_v a).
Proof.
  intros Hr Hc Hch Er Ec. unfold cvtColor.
  replace (rows a <=? 0) with false by (symmetry; apply Z.leb_gt; lia).
  replace (cols a <=? 0) with false by (symmetry; apply Z.leb_gt; lia).
  rewrite Hch, Er, Ec. reflexivity.
Qed.

Lemma cvtColor_rgb_ok a :
  0 < rows a -> 0 < cols a -> channels a = 3 ->
  cvtColor luma chroma_u chroma_v a COLOR_BGR2RGB = Ok (bgr2rgb a).
Proof.
  intros Hr Hc Hch. unfold cvtColor.
  replace (rows a <=? 0) with false by (symmetry; apply Z.leb_gt; lia).
  replace (cols a <=? 0) with false by (symmetry; apply Z.leb_gt; lia).
  rewrite Hch. reflexivity.
Qed.

Lemma cvtColor_ok_inv a code b :
  cvtColor luma chroma_u chroma_v a code = Ok b ->
  0 < rows a /\ 0 < cols a /\
  match code with
  | COLOR_BGR2RGB => b = bgr2rgb a
  | COLOR_BGR2YUV_I420 =>
      b = bgr2yuv_i420 luma chroma_u chroma_v a /\
      Z.even (rows a) = true /\ Z.even (cols a) = true
  end.
Proof.
  unfold cvtColor.
  destruct (rows a <=? 0) eqn:Hr; [discriminate|].
  destruct (cols a <=? 0) eqn:Hc; [discriminate|]. simpl.
  apply Z.leb_gt in Hr. apply Z.leb_gt in Hc.
  destruct (negb _); [discriminate|].
  destruct code.
  - destruct (Z.even (cols a)) eqn:Ec; [|discriminate].
    destruct (Z.even (rows a)) eqn:Er; [|discriminate].
    simpl. intros [= <-]. auto.
  - intros [= <-]. auto.
Qed.

Lemma package_frame_raises enc frame e :
  package_frame luma chroma_u chroma_v enc frame = Raise e ->
  exists what, e = Cv2Error what.
Proof.
  unfold package_frame.
  destruct (enc =? "i420")%string.
  - destruct (cvtColor _ _ _ _ _) eqn:H; [discriminate|].
    intros [= <-]. eapply cvtColor_raises; eassumption.
  - destruct (enc =? "rgb8")%string; [|discriminate].
    destruct (cvtColor _ _ _ _ _) eqn:H; [discriminate|].
    intros [= <-]. eapply cvtColor_raises; eassumption.
Qed.
End Layout.

(** ** The processing stage *)

Ltac unfold_monad :=
  unfold try_except, bind, ret, raise, lift, gets, modify, emit, when.

Section Processing.
Variables luma chroma_u chroma_v : byte -> byte -> byte -> byte.

Local Abbreviation package_frame := (package_frame luma chroma_u chroma_v).
Local Abbreviation processing_iter := (processing_iter luma chroma_u chroma_v).
Local Abbreviation processing_loop := (processing_loop luma chroma_u chroma_v).

(** A pass that finds a frame and converts it queues the packaged
    tuple as the newest item of the second relay. *)
Lemma processing_iter_packages st frame rest p :
  items (raw_frame_queue st) = frame :: rest ->
  package_frame (encoding st) frame = Ok p ->
  within_capacity 2 (processed_frame_queue st) ->
  processing_iter st =
    (Ok tt,
     set_processed_frame_queue
       (mkQueue 2 (last_n 2 (items (processed_frame_queue st) ++ [p])))
       (after_take rest st),
     EvGetBlocking RawQueue 1 true ::
     (if full (processed_frame_queue st)
      then [EvGetNowait ProcessedQueue true] else [])).
Proof.
  intros Hraw Hpack Hcap.
  pose proof (try_put_within_capacity p (c := 2) ltac:(lia) Hcap) as Hput.
  destruct Hcap as [Hm Hlen].
  unfold processing_iter, raw_get, get_timeout, get_nowait.
  unfold_monad. rewrite Hraw. simpl. rewrite Hpack.
  unfold processed_put_nowait, processed_get_nowait. simpl.
  unfold try_put in Hput.
  destruct (put_nowait (processed_frame_queue st) p) as [q1|e1] eqn:Hp1.
  - injection Hput as ->.
    assert (Hf : full (processed_frame_queue st) = false).
    { unfold put_nowait in Hp1. destruct (full _); [discriminate|reflexivity]. }
    rewrite Hf. reflexivity.
  - assert (Hf : full (processed_frame_queue st) = true).
    { unfold put_nowait in Hp1. destruct (full _); [reflexivity|discriminate]. }
    rewrite Hf.
    assert (He : e1 = QueueFull).
    { unfold put_nowait in Hp1. rewrite Hf in Hp1. congruence. }
    subst e1. simpl.
    destruct (get_nowait (processed_frame_queue st)) as [[y q2]|e2] eqn:Hg.
    + simpl. rewrite Hput. reflexivity.
    + unfold get_nowait in Hg.
      destruct (items (processed_frame_queue st)) eqn:Hit; [|discriminate].
      unfold full, qsize in Hf. rewrite Hit, Hm in Hf. discriminate.
Qed.

(** A pass whose conversion fails logs the error and is over: the frame
    has left the raw queue and nothing reaches the second relay. *)
Lemma processing_iter_conversion_failure st frame rest e :
  items (raw_frame_queue st) = frame :: rest ->
  package_frame (encoding st) frame = Raise e ->
  processing_iter st =
    (Ok tt, after_take rest st,
     [EvGetBlocking RawQueue 1 true; EvLog ERROR (MsgProcessingError e)]).
Proof.
  intros Hraw Hpack.
  destruct (package_frame_raises _ _ _ _ _ Hpack) as [what ->].
  unfold processing_iter, raw_get, get_timeout, get_nowait.
  unfold_monad. rewrite Hraw. simpl. rewrite Hpack. reflexivity.
Qed.

(** A pass that finds the raw queue empty times out and changes nothing. *)
Lemma processing_iter_idle st :
  items (raw_frame_queue st) = [] ->
  processing_iter st = (Ok tt, st, [EvGetBlocking RawQueue 1 false]).
Proof.
  intros Hraw.
  unfold processing_iter, raw_get, get_timeout, get_nowait.
  unfold_monad. rewrite Hraw. reflexivity.
Qed.

Lemma processing_loop_step fuel st r st1 t1 :
  running st = true ->
  processing_iter st = (Ok r, st1, t1) ->
  processing_loop (S fuel) st =
    (let '(res, st2, t2) := processing_loop fuel st1 in (res, st2, t1 ++ t2)).
Proof.
  intros Hrun Hit. simpl. unfold bind at 1. unfold gets. rewrite Hrun.
  unfold bind at 1. rewrite Hit.
  destruct (processing_loop fuel st1) as [[res st2] t2]. reflexivity.
Qed.

(** Once the flag is down the loop leaves at its next guard and does
    nothing more. *)
Lemma processing_loop_stops fuel st :
  running st = false -> processing_loop fuel st = (Ok Exited, st, []).
Proof.
  intros Hrun. destruct fuel; simpl; unfold_monad; now rewrite Hrun.
Qed.
End Processing.

Section PipelineClaims.
Variables luma chroma_u chroma_v : byte -> byte -> byte -> byte.

Local Abbreviation package_frame := (package_frame luma chroma_u chroma_v).
Local Abbreviation processing_iter := (processing_iter luma chroma_u chroma_v).
Local Abbreviation processing_loop := (processing_loop luma chroma_u chroma_v).

(** C2, as amended.  For every well-shaped three-channel raw frame of
    height [h] and width [w] and every target encoding among i420, rgb8
    and bgr8: the frame is packaged whenever it is non-empty (and, for
    i420, of even width and height); a packaged tuple keeps [h], [w] and
    the encoding; for rgb8 and bgr8 the payload has [w * h * 3] bytes and
    the stride is [w * 3]; for i420 the payload has [w * h * 3 / 2] bytes
    and the stride is [w], the row length of the luma plane; and a pass of
    the processing loop that takes the frame queues that tuple as the
    newest item of the second relay. *)
Theorem package_frame_layout (frame : ndarray) (enc : string) :
  well_shaped frame ->
  channels frame = 3 ->
  In enc ["i420"; "rgb8"; "bgr8"]%string ->
  (0 < rows frame -> 0 < cols frame ->
   (enc = "i420"%string ->
    Z.even (rows frame) = true /\ Z.even (cols frame) = true) ->
   exists p, package_frame enc frame = Ok p) /\
  (forall data h w e step,
     package_frame enc frame = Ok (data, h, w, e, step) ->
     h = rows frame /\ w = cols frame /\ e = enc /\
     (enc = "i420"%string ->
      2 * Z.of_nat (List.length data) = 3 * (w * h) /\ step = w) /\
     (enc <> "i420"%string ->
      Z.of_nat (List.length data) = w * h * 3 /\ step = w * 3)) /\
  (forall st rest p,
     items (raw_frame_queue st) = frame :: rest ->
     encoding st = enc ->
     within_capacity 2 (processed_frame_queue st) ->
     package_frame enc frame = Ok p ->
     exists st' tr,
       processing_iter st = (Ok tt, st', tr) /\
       items (processed_frame_queue st')
       = last_n 2 (items (processed_frame_queue st) ++ [p])).
Proof.
  intros (Hr & Hc & _ & Hlen) Hch Henc.
  split; [|split].
  - intros Hr0 Hc0 Heven.
    destruct Henc as [<-|[<-|[<-|[]]]]; unfold package_frame; simpl.
    + destruct Heven as [Er Ec]; [reflexivity|].
      rewrite cvtColor_i420_ok by assumption. eauto.
    + rewrite cvtColor_rgb_ok by assumption. eauto.
    + eauto.
  - intros data h w e step.
    destruct Henc as [<-|[<-|[<-|[]]]]; unfold package_frame; simpl.
    + destruct (cvtColor _ _ _ _ _) as [yuv|] eqn:Hcv; [|discriminate].
      apply cvtColor_ok_inv in Hcv. destruct Hcv as (_ & _ & -> & Er & Ec).
      intros [= <- <- <- <- <-].
      split; [reflexivity|split; [reflexivity|split; [reflexivity|split]]].
      * intros _. split; [now apply Zlength_i420_even | reflexivity].
      * intros Hne. now contradiction Hne.
    + destruct (cvtColor _ _ _ _ _) as [rgb|] eqn:Hcv; [|discriminate].
      apply cvtColor_ok_inv in Hcv. destruct Hcv as (_ & _ & ->).
      intros [= <- <- <- <- <-].
      split; [reflexivity|split; [reflexivity|split; [reflexivity|split]]].
      * discriminate.
      * intros _. split; [now apply Zlength_rgb | reflexivity].
    + intros [= <- <- <- <- <-].
      split; [reflexivity|split; [reflexivity|split; [reflexivity|split]]].
      * discriminate.
      * intros _. split; [|reflexivity].
        unfold tobytes. rewrite Hlen, Hch. ring.
  - intros st rest p Hraw <- Hcap Hp.
    do 2 eexists. split.
    + eapply processing_iter_packages; eassumption.
    + reflexivity.
Qed.

(** C5.  A raw 1280 x 720 three-channel frame processed with target
    encoding i420 is packaged with a payload of exactly
    1280 * 720 * 3 / 2 = 1,382,400 bytes and row stride 1280, the width of
    the luma plane; the image that the client builds from a rendered
    frame of that size has the same payload length and stride. *)
Theorem i420_payload_1280x720 (frame : ndarray) :
  rows frame = 720 -> cols frame = 1280 -> channels frame = 3 ->
  (exists data,
     package_frame "i420" frame = Ok (data, 720, 1280, "i420"%string, 1280) /\
     Z.of_nat (List.length data) = 1382400 /\
     1382400 = 1280 * 720 * 3 / 2) /\
  (forall (S : Type) (s : S) now sink,
     exists img r tail,
       publish_rendered luma chroma_u chroma_v now sink frame s
       = (r, s, EvClockNow now :: EvPublish img :: tail) /\
       height img = 720 /\ width img = 1280 /\
       img_encoding img = "i420"%string /\ step img = 1280 /\
       Z.of_nat (List.length (data img)) = 1382400).
Proof.
  intros Hr Hc Hch.
  assert (Hcv : cvtColor luma chroma_u chroma_v frame COLOR_BGR2YUV_I420
                = Ok (bgr2yuv_i420 luma chroma_u chroma_v frame)).
  { apply cvtColor_i420_ok; rewrite ?Hr, ?Hc; try reflexivity; assumption. }
  assert (Hlen : Z.of_nat (List.length
                   (tobytes (bgr2yuv_i420 luma chroma_u chroma_v frame)))
                 = 1382400).
  { rewrite Zlength_i420 by (rewrite ?Hr, ?Hc; lia).
    rewrite Hr, Hc. reflexivity. }
  split.
  - exists (tobytes (bgr2yuv_i420 luma chroma_u chroma_v frame)).
    split; [|split; [exact Hlen | reflexivity]].
    unfold package_frame.
    change ("i420" =? "i420")%string with true. cbv iota.
    rewrite Hcv, Hr, Hc. reflexivity.
  - intros S s now sink. unfold publish_rendered. unfold_monad.
    rewrite Hcv.
    set (img := mkImage now "camera_link" (rows frame) (cols frame) "i420" 0
                  (cols (bgr2yuv_i420 luma chroma_u chroma_v frame))
                  (tobytes (bgr2yuv_i420 luma chroma_u chroma_v frame))).
    assert (Himg : height img = 720 /\ width img = 1280 /\
                   img_encoding img = "i420"%string /\ step img = 1280 /\
                   Z.of_nat (List.length (data img)) = 1382400).
    { unfold img. cbn [height width img_encoding step data].
      unfold bgr2yuv_i420 at 1. cbn [cols]. auto. }
    exists img.
    destruct (sink img) as [[]|e].
    + exists (Ok tt), []. split; [reflexivity | exact Himg].
    + destruct (is_Exception e).
      * exists (Ok tt), [EvLog ERROR (MsgPublishError e)].
        split; [reflexivity | exact Himg].
      * exists (Raise e), []. split; [reflexivity | exact Himg].
Qed.

(** C7.  When the conversion of the frame that the processing loop took
    from the raw queue fails, the pass logs the error and ends normally;
    the frame is gone from the raw queue, nothing is added to the second
    relay, the lifecycle flag is untouched, and the loop goes on with its
    next pass from that state: the failure does not end the pipeline and
    the frame is not tried again. *)
Theorem conversion_failure_drops_frame
    (st : Publisher) (frame : ndarray) (rest : list ndarray) (e : exn)
    (fuel : nat) :
  running st = true ->
  items (raw_frame_queue st) = frame :: rest ->
  package_frame (encoding st) frame = Raise e ->
  processing_iter st =
    (Ok tt, after_take rest st,
     [EvGetBlocking RawQueue 1 true; EvLog ERROR (MsgProcessingError e)]) /\
  items (raw_frame_queue (after_take rest st)) = rest /\
  processed_frame_queue (after_take rest st) = processed_frame_queue st /\
  running (after_take rest st) = true /\
  processing_loop (S fuel) st =
    (let '(res, st2, t2) := processing_loop fuel (after_take rest st) in
     (res, st2,
      [EvGetBlocking RawQueue 1 true; EvLog ERROR (MsgProcessingError e)]
      ++ t2)).
Proof.
  intros Hrun Hraw Hpack.
  pose proof (@processing_iter_conversion_failure luma chroma_u chroma_v
                st frame rest e Hraw Hpack) as Hit.
  repeat split; try assumption.
  now apply processing_loop_step with (r := tt).
Qed.
End PipelineClaims.

Lemma package_frame_layout_witness :
  well_shaped frame_2x2 /\
  channels frame_2x2 = 3 /\
  In "rgb8"%string ["i420"; "rgb8"; "bgr8"]%string /\
  (forall data h w e step,
     package_frame sample_luma sample_u sample_v "rgb8" frame_2x2
     = Ok (data, h, w, e, step) ->
     h = rows frame_2x2 /\ w = cols frame_2x2 /\ e = "rgb8"%string /\
     ("rgb8"%string = "i420"%string ->
      2 * Z.of_nat (List.length data) = 3 * (w * h) /\ step = w) /\
     ("rgb8"%string <> "i420"%string ->
      Z.of_nat (List.length data) = w * h * 3 /\ step = w * 3)).
Proof.
  assert (H1 : well_shaped frame_2x2).
  { unfold well_shaped. simpl. lia. }
  assert (H2 : channels frame_2x2 = 3) by reflexivity.
  assert (H3 : In "rgb8"%string ["i420"; "rgb8"; "bgr8"]%string).
  { simpl. auto. }
  split; [exact H1 | split; [exact H2 | split; [exact H3 |]]].
  exact (proj1 (proj2 (@package_frame_layout sample_luma sample_u sample_v
                         frame_2x2 "rgb8" H1 H2 H3))).
Defined.

(** The claim as first stated asks, for i420, for a stride of at least
    [w * 3 / 2]; the 2 x 2 frame is packaged with stride 2. *)
Lemma package_frame_i420_stride_counterexample :
  package_frame sample_luma sample_u sample_v "i420" frame_2x2
  = Ok ([x02; x05; x08; x0b; x01; x03], 2, 2, "i420"%string, 2) /\
  ~ (forall data h w e step,
       package_frame sample_luma sample_u sample_v "i420" frame_2x2
       = Ok (data, h, w, e, step) ->
       h = 2 /\ w = 2 /\
       2 * Z.of_nat (List.length data) = w * h * 3 /\
       2 * step >= w * 3).
Proof.
  split; [reflexivity|].
  intros H.
  destruct (H [x02; x05; x08; x0b; x01; x03] 2 2 "i420"%string 2 eq_refl)
    as (_ & _ & _ & Hstep).
  lia.
Qed.

Lemma i420_payload_1280x720_witness :
  rows frame_720p = 720 /\ cols frame_720p = 1280 /\
  channels frame_720p = 3 /\
  exists data,
    package_frame sample_luma sample_u sample_v "i420" frame_720p
    = Ok (data, 720, 1280, "i420"%string, 1280) /\
    Z.of_nat (List.length data) = 1382400 /\
    1382400 = 1280 * 720 * 3 / 2.
Proof.
  split; [reflexivity | split; [reflexivity | split; [reflexivity |]]].
  exact (proj1 (@i420_payload_1280x720 sample_luma sample_u sample_v
                  frame_720p eq_refl eq_refl eq_refl)).
Defined.

Lemma conversion_failure_drops_frame_witness :
  running (sample_node "i420" [frame_1x3; frame_2x2]) = true /\
  items (raw_frame_queue (sample_node "i420" [frame_1x3; frame_2x2]))
  = frame_1x3 :: [frame_2x2] /\
  package_frame sample_luma sample_u sample_v "i420" frame_1x3
  = Raise (Cv2Error
      "(-215:Assertion failed) sz.width % 2 == 0 && sz.height % 2 == 0") /\
  processing_iter sample_luma sample_u sample_v
    (sample_node "i420" [frame_1x3; frame_2x2])
  = (Ok tt, after_take [frame_2x2] (sample_node "i420" [frame_1x3; frame_2x2]),
     [EvGetBlocking RawQueue 1 true;
      EvLog ERROR (MsgProcessingError (Cv2Error
        "(-215:Assertion failed) sz.width % 2 == 0 && sz.height % 2 == 0"))]).
Proof.
  split; [reflexivity | split; [reflexivity | split; [reflexivity |]]].
  exact (proj1 (@conversion_failure_drops_frame sample_luma sample_u sample_v
                  (sample_node "i420" [frame_1x3; frame_2x2])
                  frame_1x3 [frame_2x2] _ 0%nat eq_refl eq_refl eq_refl)).
Defined.

(** ** The capture stage *)

Lemma capture_iter_failed_read st frame :
  capture_iter (false, frame) st
  = (Ok tt, st, [EvRead false; EvSleep (1 # 100)]).
Proof. reflexivity. Qed.

(** A frame that was read becomes the newest item of the first relay. *)
Lemma capture_iter_frame st frame :
  within_capacity 2 (raw_frame_queue st) ->
  capture_iter (true, frame) st
  = (Ok tt,
     set_raw_frame_queue
       (mkQueue 2 (last_n 2 (items (raw_frame_queue st) ++ [frame]))) st,
     EvRead true ::
     (if full (raw_frame_queue st) then [EvGetNowait RawQueue true] else [])).
Proof.
  intros Hcap.
  pose proof (try_put_within_capacity frame (c := 2) ltac:(lia) Hcap) as Hput.
  destruct Hcap as [Hm Hlen].
  unfold capture_iter, raw_put_nowait, raw_get_nowait. unfold_monad. simpl.
  unfold try_put in Hput.
  destruct (put_nowait (raw_frame_queue st) frame) as [q1|e1] eqn:Hp1.
  - injection Hput as ->.
    assert (Hf : full (raw_frame_queue st) = false).
    { unfold put_nowait in Hp1. destruct (full _); [discriminate|reflexivity]. }
    rewrite Hf. reflexivity.
  - assert (Hf : full (raw_frame_queue st) = true).
    { unfold put_nowait in Hp1. destruct (full _); [reflexivity|discriminate]. }
    rewrite Hf.
    assert (He : e1 = QueueFull).
    { unfold put_nowait in Hp1. rewrite Hf in Hp1. congruence. }
    subst e1. simpl.
    destruct (get_nowait (raw_frame_queue st)) as [[y q2]|e2] eqn:Hg.
    + simpl. rewrite Hput. reflexivity.
    + unfold get_nowait in Hg.
      destruct (items (raw_frame_queue st)) eqn:Hit; [|discriminate].
      unfold full, qsize in Hf. rewrite Hit, Hm in Hf. discriminate.
Qed.

Lemma capture_loop_step rd reads st st1 t1 :
  running st = true ->
  capture_iter rd st = (Ok tt, st1, t1) ->
  capture_loop (rd :: reads) st =
    (let '(res, st2, t2) := capture_loop reads st1 in (res, st2, t1 ++ t2)).
Proof.
  intros Hrun Hit. simpl. unfold bind at 1. unfold gets. rewrite Hrun.
  unfold bind at 1. rewrite Hit.
  destruct (capture_loop reads st1) as [[res st2] t2]. reflexivity.
Qed.

(** Once the flag is down the loop leaves at its next guard without
    reading the camera again. *)
Lemma capture_loop_stops reads st :
  running st = false -> capture_loop reads st = (Ok Exited, st, []).
Proof.
  intros Hrun. destruct reads; simpl; unfold_monad; now rewrite Hrun.
Qed.

Lemma capture_loop_failed_reads frames : forall reads st,
  running st = true ->
  capture_loop (map (fun f => (false, f)) frames ++ reads) st =
    (let '(res, st', t) := capture_loop reads st in
     (res, st',
      flat_map (fun _ => [EvRead false; EvSleep (1 # 100)]) frames ++ t)).
Proof.
  induction frames as [|f frames IH]; intros reads st Hrun.
  - simpl. now destruct (capture_loop reads st) as [[res st'] t].
  - simpl map. simpl app at 1.
    rewrite (@capture_loop_step (false, f) _ st st _ Hrun
               (capture_iter_failed_read st f)).
    rewrite IH by exact Hrun.
    destruct (capture_loop reads st) as [[res st'] t]. reflexivity.
Qed.

(** ** The constructor *)

(** [open_camera] never raises, leaves the state alone, and hands out
    only handles that are open. *)
Lemma open_camera_result dev src :
  exists oc tr,
    (forall (S : Type) (s : S), open_camera dev src s = (Ok oc, s, tr)) /\
    (forall c, oc = Some c -> isOpened c = true).
Proof.
  unfold open_camera, release, cv2_VideoCapture. unfold_monad.
  cbn [isOpened].
  destruct (probe dev src CAP_V4L2).
  - do 2 eexists. split; [reflexivity|]. now intros c [= <-].
  - destruct src as [i|p].
    + destruct (probe dev _ CAP_V4L2) eqn:H2.
      * do 2 eexists. split; [reflexivity|]. now intros c [= <-].
      * destruct (probe dev _ CAP_ANY) eqn:H3.
        -- do 2 eexists. split; [reflexivity|]. now intros c [= <-].
        -- do 2 eexists. split; [reflexivity|]. discriminate.
    + destruct (probe dev _ CAP_ANY) eqn:H2.
      * do 2 eexists. split; [reflexivity|]. now intros c [= <-].
      * do 2 eexists. split; [reflexivity|]. discriminate.
Qed.

Lemma resolve_encoding_result (S : Type) (s : S) enc :
  resolve_encoding enc s =
    if str_in (lower enc) ["bgr8"; "rgb8"; "i420"]%string
    then (Ok (lower enc), s, [])
    else (Ok "i420"%string, s, [EvLog WARN (MsgUnsupportedEncoding enc)]).
Proof.
  unfold resolve_encoding. now destruct (str_in _ _).
Qed.

Lemma VideoWriter_fourcc_raises fourcc e :
  VideoWriter_fourcc fourcc = Raise e -> e = TypeError.
Proof.
  unfold VideoWriter_fourcc.
  destruct (first_bytes fourcc) as [|c1 [|c2 [|c3 [|c4 [|c5 l]]]]];
    congruence.
Qed.

Lemma init_camera_failure dev src topic w h fps display enc fourcc tr0 :
  open_camera dev src tt = (Ok None, tt, tr0) ->
  init dev src topic w h fps display enc fourcc tt =
    (Raise (SystemExit 1), tt,
     (if str_in (lower enc) ["bgr8"; "rgb8"; "i420"]%string then []
      else [EvLog WARN (MsgUnsupportedEncoding enc)])
     ++ tr0
     ++ [EvLog ERROR (MsgCannotOpenCamera src);
         EvLog ERROR MsgCameraTroubleshooting]).
Proof.
  intros Hopen. unfold init. unfold bind at 1.
  rewrite resolve_encoding_result.
  destruct (str_in _ _); unfold bind at 1; rewrite Hopen; reflexivity.
Qed.

Lemma init_success dev src topic w h fps display enc fourcc c tr0 :
  open_camera dev src tt = (Ok (Some c), tt, tr0) ->
  exists node tr,
    init dev src topic w h fps display enc fourcc tt = (Ok node, tt, tr) /\
    encoding node = effective_encoding enc /\
    cap node = Some c /\
    raw_frame_queue node = new_queue 2 /\
    processed_frame_queue node = new_queue 2 /\
    running node = true /\
    (str_in (lower enc) ["bgr8"; "rgb8"; "i420"]%string = false ->
     In (EvLog WARN (MsgUnsupportedEncoding enc)) tr).
Proof.
  intros Hopen.
  assert (Hc : isOpened c = true).
  { destruct (open_camera_result dev src) as (oc & tr & Hall & Hopened).
    rewrite Hall in Hopen. injection Hopen as -> _. now apply Hopened. }
  unfold init, effective_encoding. unfold bind at 1.
  rewrite resolve_encoding_result.
  destruct (str_in _ _); unfold bind at 1; rewrite Hopen; rewrite Hc;
    unfold_monad;
    destruct (negb (fourcc =? "")%string);
    destruct (VideoWriter_fourcc fourcc) as [code|e] eqn:Hf;
    try (apply VideoWriter_fourcc_raises in Hf; subst e; cbn [is_Exception]);
    destruct (negb (w =? 0)); destruct (negb (h =? 0));
    destruct (negb (Qeq_bool fps 0));
    do 2 eexists; (split; [reflexivity|]);
    cbn [encoding cap raw_frame_queue processed_frame_queue running];
    repeat (split; [reflexivity|]);
    try discriminate; intros _; simpl; auto.
Qed.

(** C8.  When [open_camera] finds no usable device the constructor logs
    the error (and a troubleshooting line) and leaves through
    [sys.exit(1)], whatever its other arguments; while capturing, every
    failed read is followed by a sleep of 0.01 s and then by the next
    read, with the node unchanged and the loop still alive, however many
    reads fail in a row. *)
Theorem camera_failure_at_startup_and_in_capture :
  (forall dev src topic w h fps display enc fourcc tr0,
     open_camera dev src tt = (Ok None, tt, tr0) ->
     exists tr,
       init dev src topic w h fps display enc fourcc tt =
         (Raise (SystemExit 1), tt,
          tr ++ [EvLog ERROR (MsgCannotOpenCamera src);
                 EvLog ERROR MsgCameraTroubleshooting])) /\
  (forall st frames reads,
     running st = true ->
     capture_loop (map (fun f => (false, f)) frames ++ reads) st =
       (let '(res, st', t) := capture_loop reads st in
        (res, st',
         flat_map (fun _ => [EvRead false; EvSleep (1 # 100)]) frames ++ t))).
Proof.
  split.
  - intros dev src topic w h fps display enc fourcc tr0 Hopen.
    eexists. erewrite init_camera_failure by exact Hopen.
    rewrite app_assoc. reflexivity.
  - intros st frames reads Hrun. now apply capture_loop_failed_reads.
Qed.

Lemma camera_failure_at_startup_and_in_capture_witness :
  open_camera dead_device (SrcIndex 0) tt
  = (Ok None, tt, [EvCapRelease; EvCapRelease]) /\
  running (sample_node "i420" []) = true /\
  (exists tr,
     init dead_device (SrcIndex 0) "/camera_front_wide" 1280 720 15 false
       "I420" "MJPG" tt =
       (Raise (SystemExit 1), tt,
        tr ++ [EvLog ERROR (MsgCannotOpenCamera (SrcIndex 0));
               EvLog ERROR MsgCameraTroubleshooting])) /\
  capture_loop (map (fun f => (false, f)) [frame_2x2; frame_2x2]
                ++ [(true, frame_2x2)]) (sample_node "i420" []) =
    (let '(res, st', t) :=
       capture_loop [(true, frame_2x2)] (sample_node "i420" []) in
     (res, st',
      flat_map (fun _ => [EvRead false; EvSleep (1 # 100)])
        [frame_2x2; frame_2x2] ++ t)).
Proof.
  split; [reflexivity | split; [reflexivity | split]].
  - exact (proj1 camera_failure_at_startup_and_in_capture
             dead_device (SrcIndex 0) "/camera_front_wide"%string 1280 720
             15%Q false "I420"%string "MJPG"%string
             [EvCapRelease; EvCapRelease] eq_refl).
  - exact (proj2 camera_failure_at_startup_and_in_capture
             (sample_node "i420" []) [frame_2x2; frame_2x2]
             [(true, frame_2x2)] eq_refl).
Defined.

(** ** The publish stage *)

(** C3.  A publish tick makes exactly one take on the processed-frame
    queue, a non-blocking one, and nothing in it can wait.  On an empty
    queue that take is all it does: the node is unchanged, nothing is
    published, no clock is read and nothing is logged.  Otherwise the
    oldest packaged frame leaves the queue and exactly one image is
    handed to the topic, built from that frame and stamped with the
    clock value read in this tick.  No tick publishes more than one
    image. *)
Theorem publish_frame_tick (now : Z) (sink : Image -> result unit)
    (st : Publisher) :
  let '(r, st', tr) := publish_frame now sink st in
  takes ProcessedQueue tr = 1%nat /\
  waits tr = 0%nat /\
  (List.length (published tr) <= 1)%nat /\
  match items (processed_frame_queue st) with
  | [] =>
      r = Ok tt /\ st' = st /\ tr = [EvGetNowait ProcessedQueue false] /\
      published tr = []
  | (data, h, w, enc, step) :: rest =>
      st' = set_processed_frame_queue
              (mkQueue (maxsize (processed_frame_queue st)) rest) st /\
      published tr = [mkImage now "camera_link" h w enc 0 step data] /\
      clock_reads tr = [now] /\
      exists tail,
        tr = [EvGetNowait ProcessedQueue true; EvClockNow now;
              EvPublish (mkImage now "camera_link" h w enc 0 step data)]
             ++ tail
  end.
Proof.
  unfold publish_frame, processed_get_nowait, get_nowait. unfold_monad.
  destruct (items (processed_frame_queue st))
    as [|[[[[data h] w] enc] step] rest].
  - simpl. repeat split; auto.
  - simpl.
    destruct (sink (mkImage now "camera_link" h w enc 0 step data))
      as [[]|e].
    + simpl. repeat split; auto. now exists [].
    + destruct e; simpl; repeat split; auto; eexists; reflexivity.
Qed.

(** ** The control message *)

Lemma bind_Ok_inv {S A B} (m : M S A) (k : A -> M S B) s b s' t :
  bind m k s = (Ok b, s', t) ->
  exists a s1 t1 t2,
    m s = (Ok a, s1, t1) /\ k a s1 = (Ok b, s', t2) /\ t = t1 ++ t2.
Proof.
  unfold bind. destruct (m s) as [[[a|e] s1] t1]; [|discriminate].
  destruct (k a s1) as [[r s2] t2] eqn:Hk. intros [= -> -> <-].
  exists a, s1, t1, t2. auto.
Qed.

(** The body of the [try] returns nothing but [True]. *)
Lemma update_body_returns_true py json_data m b m' t :
  update_body py json_data m = (Ok b, m', t) -> b = true.
Proof.
  unfold update_body. intros H.
  repeat (apply bind_Ok_inv in H;
          destruct H as (? & ? & ? & ? & _ & H & _)).
  unfold ret in H. congruence.
Qed.

(** On the scenario's message the method sets the throttle and the
    timestamp of the object it is called on and keeps everything else. *)
Lemma update_from_json_throttle_message m :
  update_from_json cpython throttle_message m
  = (Ok true, set_throttle half (set_timestamp (PyInt 1000) m), []).
Proof. destruct m. reflexivity. Qed.

(** The callback applies the message to a new object, not to the
    client's control state. *)
Lemma control_callback_throttle_message now c :
  control_callback cpython throttle_message now c
  = (Ok tt,
     mkClient (set_throttle half
                 (set_timestamp (PyInt 1000) (new_control_message now))),
     [EvLog INFO (MsgControlReceived (head100 throttle_message))]).
Proof. reflexivity. Qed.

(** A payload that is not an object makes the method leave through an
    exception it does not catch. *)
Lemma update_from_json_attribute_error m :
  update_from_json cpython (dq "{'type':'analog','v':3}") m
  = (Raise AttributeError, m, []).
Proof. reflexivity. Qed.

(** C4.  The client turns the wheel to 0.7 with one analog message and
    then receives the scenario's throttle message: the callback leaves a
    control state with throttle 0.5 and timestamp 1000, but with the
    rotation back at 0.0, not at the 0.7 of the state before. *)
Theorem control_callback_forgets_prior_axes :
  let c0 := mkClient (new_control_message 0) in
  let '(_, c1, _) := control_callback cpython rotation_message 900 c0 in
  let '(r, c2, _) := control_callback cpython throttle_message 1000 c1 in
  rotation (control_data c1) = PyFloat (float_of_decimal 7 (-1)) /\
  r = Ok tt /\
  throttle (control_data c2) = half /\
  timestamp (control_data c2) = PyInt 1000 /\
  rotation (control_data c2) = zero /\
  rotation (control_data c2) <> rotation (control_data c1).
Proof.
  vm_compute. repeat split; try reflexivity. discriminate.
Qed.

Lemma caught_by_update_iff e :
  caught_by_update e <-> is_parse_error e = true.
Proof.
  unfold caught_by_update. split.
  - intros [->|[[key ->]| ->]]; reflexivity.
  - destruct e; simpl; try discriminate; eauto.
Qed.

(** C10.  [update_from_json] returns [False] exactly when its body
    raises a [JSONDecodeError], a [KeyError] or a [TypeError]; any other
    exception of the body leaves the method.  On every text that
    [json.loads] decodes to an object without an applicable payload it
    returns [True], prints nothing, and changes no field except the
    timestamp, which becomes the object's "t" when there is one. *)
Theorem update_from_json_false_iff_parse_error :
  (forall py json_data m,
     fst (fst (update_from_json py json_data m)) = Ok false <->
     exists e,
       fst (fst (update_body py json_data m)) = Raise e /\
       caught_by_update e) /\
  (forall py json_data m e,
     fst (fst (update_body py json_data m)) = Raise e ->
     ~ caught_by_update e ->
     fst (fst (update_from_json py json_data m)) = Raise e) /\
  (forall py json_data d m,
     json_loads py json_data = Ok (PyDict d) ->
     payload_missing d ->
     update_from_json py json_data m = (Ok true, touch_timestamp d m, [])).
Proof.
  split; [|split].
  - intros py json_data m. unfold update_from_json, try_except.
    destruct (update_body py json_data m) as [[[b|e] m'] t] eqn:Hb.
    + apply update_body_returns_true in Hb. subst b. simpl. split.
      * discriminate.
      * intros (e & He & _). discriminate.
    + simpl. destruct (is_parse_error e) eqn:He.
      * unfold_monad. simpl. split; [|reflexivity].
        intros _. exists e. split; [reflexivity|].
        now apply caught_by_update_iff.
      * simpl. split; [discriminate|].
        intros (e' & [= <-] & He'). apply caught_by_update_iff in He'.
        congruence.
  - intros py json_data m e Hb Hno. unfold update_from_json, try_except.
    destruct (update_body py json_data m) as [[[b|e'] m'] t];
      simpl in Hb; [discriminate|]. injection Hb as ->.
    destruct (is_parse_error e) eqn:He; [|reflexivity].
    exfalso. apply Hno. now apply caught_by_update_iff.
  - intros py json_data d m Hload Hmiss.
    unfold update_from_json, update_body, touch_timestamp, payload_missing in *.
    unfold_monad. rewrite Hload. unfold and_then, py_in, py_getitem.
    destruct (dict_get d "t") as [t|];
      (destruct (dict_get d "type") as [ty|]; [|reflexivity]);
      destruct Hmiss as [Hg Hv]; unfold_monad;
      (destruct (py_eq_str ty "gear");
       [rewrite (Hg eq_refl) | idtac]);
      (destruct (py_eq_str ty "analog");
       [rewrite (Hv eq_refl) | idtac]);
      reflexivity.
Qed.

Lemma update_from_json_false_iff_parse_error_witness :
  (fst (fst (update_body cpython (dq "{'t':1,}") (new_control_message 0)))
   = Raise JSONDecodeError /\
   fst (fst (update_from_json cpython (dq "{'t':1,}")
               (new_control_message 0))) = Ok false) /\
  (fst (fst (update_body cpython "5" (new_control_message 0)))
   = Raise TypeError /\
   fst (fst (update_from_json cpython "5" (new_control_message 0)))
   = Ok false) /\
  (fst (fst (update_body cpython long_integer_message
               (new_control_message 0))) = Raise ValueError /\
   ~ caught_by_update ValueError /\
   fst (fst (update_from_json cpython long_integer_message
               (new_control_message 0))) = Raise ValueError) /\
  json_loads cpython (dq "{'type':'analog','t':7}")
  = Ok (PyDict [("type", PyStr "analog"); ("t", PyInt 7)]%string) /\
  payload_missing [("type", PyStr "analog"); ("t", PyInt 7)]%string /\
  update_from_json cpython (dq "{'type':'analog','t':7}")
    (new_control_message 0)
  = (Ok true,
     touch_timestamp [("type", PyStr "analog"); ("t", PyInt 7)]%string
       (new_control_message 0),
     []).
Proof.
  assert (B1 : fst (fst (update_body cpython (dq "{'t':1,}")
                           (new_control_message 0)))
               = Raise JSONDecodeError) by reflexivity.
  assert (B2 : fst (fst (update_body cpython "5" (new_control_message 0)))
               = Raise TypeError) by reflexivity.
  assert (B3 : fst (fst (update_body cpython long_integer_message
                           (new_control_message 0)))
               = Raise ValueError) by (vm_compute; reflexivity).
  assert (N3 : ~ caught_by_update ValueError).
  { intros [H|[[key H]|H]]; discriminate. }
  assert (H1 : json_loads cpython (dq "{'type':'analog','t':7}")
               = Ok (PyDict [("type", PyStr "analog"); ("t", PyInt 7)]%string))
    by reflexivity.
  assert (H2 : payload_missing
                 [("type", PyStr "analog"); ("t", PyInt 7)]%string).
  { unfold payload_missing. simpl. split; [discriminate | reflexivity]. }
  split; [split; [exact B1|]|split; [split; [exact B2|]|split;
    [split; [exact B3|split; [exact N3|]]|split; [exact H1|split;
    [exact H2|]]]]].
  - apply (proj1 update_from_json_false_iff_parse_error).
    exists JSONDecodeError. split; [exact B1|]. now left.
  - apply (proj1 update_from_json_false_iff_parse_error).
    exists TypeError. split; [exact B2|]. now right; right.
  - exact (proj1 (proj2 update_from_json_false_iff_parse_error)
             cpython long_integer_message (new_control_message 0)
             ValueError B3 N3).
  - exact (proj2 (proj2 update_from_json_false_iff_parse_error)
             cpython _ _ (new_control_message 0) H1 H2).
Defined.

(** The claim as first stated promises [True] for every syntactically
    valid object without a "type".  The object whose only member is the
    integer 10^4300 is one: an interpreter without the digit limit
    decodes it.  With CPython's default limit the method raises a
    [ValueError] on it. *)
Lemma update_from_json_long_integer_counterexample :
  json_loads no_digit_limit long_integer_message
  = Ok (PyDict [("a", PyInt (10 ^ 4300))]%string) /\
  payload_missing [("a", PyInt (10 ^ 4300))]%string /\
  update_from_json cpython long_integer_message (new_control_message 0)
  = (Raise ValueError, new_control_message 0, []) /\
  ~ (fst (fst (update_from_json cpython long_integer_message
                 (new_control_message 0))) = Ok true).
Proof.
  split; [vm_compute; reflexivity|].
  split; [exact I|].
  assert (H : update_from_json cpython long_integer_message
                (new_control_message 0)
              = (Raise ValueError, new_control_message 0, []))
    by (vm_compute; reflexivity).
  split; [exact H|]. rewrite H. discriminate.
Qed.

(** ** Shutdown *)

(** [destroy_node] lowers the flag and releases the camera; it cannot
    raise. *)
Lemma destroy_node_lowers_flag st :
  let '(r, st', tr) := destroy_node st in
  r = Ok tt /\ running st' = false /\
  raw_frame_queue st' = raw_frame_queue st /\
  processed_frame_queue st' = processed_frame_queue st.
Proof.
  unfold destroy_node, release. unfold_monad. simpl.
  destruct (cap st); simpl; auto.
Qed.

(** A loop that evaluates its guard after [destroy_node] leaves at once:
    no read, no wait, no item processed, no exception. *)
Lemma loops_exit_after_destroy_node luma chroma_u chroma_v st reads fuel :
  let '(_, st', _) := destroy_node st in
  capture_loop reads st' = (Ok Exited, st', []) /\
  processing_loop luma chroma_u chroma_v fuel st' = (Ok Exited, st', []).
Proof.
  pose proof (destroy_node_lowers_flag st) as H.
  destruct (destroy_node st) as [[r st'] tr].
  destruct H as (_ & Hrun & _).
  split; [now apply capture_loop_stops | now apply processing_loop_stops].
Qed.

(** ** Further facts about the model *)

(** The two loops put through [try_put]: what a pass leaves in its
    relay is what the drop-oldest put returns. *)
Lemma relay_puts_are_try_put luma chroma_u chroma_v st frame rest p :
  (within_capacity 2 (raw_frame_queue st) ->
   exists q,
     try_put (raw_frame_queue st) frame = Ok q /\
     snd (fst (capture_iter (true, frame) st)) = set_raw_frame_queue q st) /\
  (within_capacity 2 (processed_frame_queue st) ->
   items (raw_frame_queue st) = frame :: rest ->
   package_frame luma chroma_u chroma_v (encoding st) frame = Ok p ->
   exists q,
     try_put (processed_frame_queue st) p = Ok q /\
     snd (fst (processing_iter luma chroma_u chroma_v st))
     = set_processed_frame_queue q (after_take rest st)).
Proof.
  split.
  - intros Hcap. eexists. split.
    + apply try_put_within_capacity with (c := 2%nat); [lia | exact Hcap].
    + now rewrite capture_iter_frame.
  - intros Hcap Hraw Hp. eexists. split.
    + apply try_put_within_capacity with (c := 2%nat); [lia | exact Hcap].
    + now erewrite processing_iter_packages by eassumption.
Qed.

(** The relays of a node stay within capacity under every pass of the
    capture and processing loops. *)
Lemma capture_iter_within_capacity st rd :
  within_capacity 2 (raw_frame_queue st) ->
  within_capacity 2 (raw_frame_queue (snd (fst (capture_iter rd st)))).
Proof.
  intros Hcap. destruct rd as [[|] frame].
  - rewrite capture_iter_frame by exact Hcap. simpl.
    split; [reflexivity|]. simpl. rewrite length_last_n. lia.
  - exact Hcap.
Qed.

Lemma within_capacity_tail {A} (c : nat) (q : Queue A) x rest :
  within_capacity c q -> items q = x :: rest ->
  within_capacity c (mkQueue (maxsize q) rest).
Proof.
  intros [Hm Hl] Hit. split; [exact Hm|]. rewrite Hit in Hl. simpl in *. lia.
Qed.

(** The constructor starts the node with both relays empty, and every
    pass of a stage keeps them within capacity: the capacity premises of
    the statements above hold in every state the pipeline reaches. *)
Lemma init_relays_within_capacity dev src topic w h fps display enc fourcc
    node tr :
  init dev src topic w h fps display enc fourcc tt = (Ok node, tt, tr) ->
  relays_within_capacity node.
Proof.
  intros Hinit.
  destruct (open_camera_result dev src) as (oc & tr0 & Hall & _).
  destruct oc as [c|].
  - destruct (@init_success dev src topic w h fps display enc fourcc c tr0
                (Hall unit tt))
      as (node' & tr' & Hinit' & _ & _ & Hraw & Hproc & _).
    rewrite Hinit in Hinit'. injection Hinit' as <- _.
    unfold relays_within_capacity. rewrite Hraw, Hproc.
    split; (split; [reflexivity | simpl; lia]).
  - rewrite (@init_camera_failure dev src topic w h fps display enc fourcc
               tr0 (Hall unit tt)) in Hinit.
    discriminate.
Qed.

Lemma capture_iter_relays st rd :
  relays_within_capacity st ->
  relays_within_capacity (snd (fst (capture_iter rd st))).
Proof.
  intros [Hraw Hproc]. split.
  - now apply capture_iter_within_capacity.
  - destruct rd as [[|] frame].
    + rewrite capture_iter_frame by exact Hraw. exact Hproc.
    + exact Hproc.
Qed.

Lemma processing_iter_relays luma chroma_u chroma_v st :
  relays_within_capacity st ->
  relays_within_capacity
    (snd (fst (processing_iter luma chroma_u chroma_v st))).
Proof.
  intros [Hraw Hproc].
  destruct (items (raw_frame_queue st)) as [|frame rest] eqn:Hit.
  - rewrite processing_iter_idle by exact Hit. now split.
  - pose proof (within_capacity_tail Hraw Hit) as Hrest.
    destruct (package_frame luma chroma_u chroma_v (encoding st) frame)
      as [p|e] eqn:Hp.
    + erewrite processing_iter_packages by eassumption.
      split; [exact Hrest|].
      split; [reflexivity|]. simpl. rewrite length_last_n. lia.
    + erewrite processing_iter_conversion_failure by eassumption.
      split; [exact Hrest | exact Hproc].
Qed.

Lemma publish_frame_relays now sink st :
  relays_within_capacity st ->
  relays_within_capacity (snd (fst (publish_frame now sink st))).
Proof.
  intros [Hraw Hproc].
  unfold publish_frame, processed_get_nowait, get_nowait. unfold_monad.
  destruct (items (processed_frame_queue st))
    as [|[[[[data h] w] enc] step] rest] eqn:Hit.
  - now split.
  - pose proof (within_capacity_tail Hproc Hit) as Hrest. simpl.
    destruct (sink _) as [[]|e]; [now split|].
    destruct e; now split.
Qed.

Lemma assign_get_dict dv key field set_field m :
  assign_get (PyDict dv) key field set_field m
  = (Ok tt,
     set_field (match dict_get dv key with
                | Some v => v
                | None => field m
                end) m,
     []).
Proof.
  unfold assign_get, py_get. unfold_monad. now destruct (dict_get dv key).
Qed.

(** The axes are assigned without an exception when the payload is an
    object, and not at all otherwise. *)
Lemma assign_axes_result v_obj m :
  match v_obj with
  | PyDict _ => exists m', assign_axes v_obj m = (Ok tt, m', [])
  | _ => assign_axes v_obj m = (Raise AttributeError, m, [])
  end.
Proof.
  destruct v_obj as [| | | | | |dv]; try reflexivity.
  unfold assign_axes.
  repeat (unfold bind at 1; rewrite assign_get_dict; cbv iota beta).
  rewrite assign_get_dict. simpl. eauto.
Qed.

(** On a decoded object the method answers [True] or leaves through an
    [AttributeError]; it never answers [False]. *)
Lemma update_from_json_object_not_false py json_data d m :
  json_loads py json_data = Ok (PyDict d) ->
  fst (fst (update_from_json py json_data m)) = Ok true \/
  fst (fst (update_from_json py json_data m)) = Raise AttributeError.
Proof.
  intros Hload.
  unfold update_from_json, update_body, and_then.
  unfold_monad. rewrite Hload. unfold py_in, py_getitem.
  destruct (dict_get d "t") as [t|];
    (destruct (dict_get d "type") as [ty|]; [|now left]);
    destruct (py_eq_str ty "gear");
    try (destruct (dict_get d "gear") as [g|]; [now left|]);
    (destruct (py_eq_str ty "analog"); [|now left]);
    (destruct (dict_get d "v") as [v_obj|]; [|now left]);
    match goal with
    | |- context [assign_axes v_obj ?m0] =>
        pose proof (assign_axes_result v_obj m0) as Hax
    end;
    (destruct v_obj as [| | | | | |dv];
     [ rewrite Hax; now right .. | destruct Hax as [m' ->]; now left ]).
Qed.

(** The decoder raises nothing but the three classes of [json.loads]. *)
Lemma scan_number_raises py s e :
  scan_number py s = Some (Raise e) -> e = ValueError.
Proof.
  unfold scan_number. intros H.
  repeat match type of H with
         | context [match ?x with _ => _ end] =>
             destruct x; try discriminate
         end.
  all: congruence.
Qed.

Lemma scan_literal_raises py s e :
  scan_literal py s = Raise e -> raised_by_loads e.
Proof.
  unfold scan_literal, raised_by_loads. intros H.
  repeat match type of H with
         | context [match drop_prefix ?x ?y with _ => _ end] =>
             destruct (drop_prefix x y); try discriminate
         end.
  all: destruct (scan_number py s) as [[vr|e']|] eqn:Hn;
    [discriminate
    |apply scan_number_raises in Hn; injection H as <-; auto
    |].
  all: repeat match type of H with
         | context [match drop_prefix ?x ?y with _ => _ end] =>
             destruct (drop_prefix x y); try discriminate
         end.
  all: first [discriminate | injection H as <-; auto].
Qed.

Lemma scan_raises py fuel :
  (forall room s e,
     scan_once py room fuel s = Raise e -> raised_by_loads e) /\
  (forall room acc s e,
     scan_members py room fuel acc s = Raise e -> raised_by_loads e) /\
  (forall room acc s e,
     scan_elems py room fuel acc s = Raise e -> raised_by_loads e).
Proof.
  induction fuel as [|fuel (IHo & IHm & IHe)].
  - repeat split; intros; simpl in *;
      match goal with H : Raise _ = Raise _ |- _ => injection H as <- end;
      now left.
  - repeat split.
    + intros room s e H. cbn [scan_once] in H.
      destruct s as [|c r]; [injection H as <-; now left|].
      destruct (c =? dquote)%char.
      { destruct (scan_string _ r) as [[str rest]|];
          [discriminate | injection H as <-; now left]. }
      destruct (c =? "{")%char.
      { destruct room as [|room']; [injection H as <-; right; now right|].
        destruct (skip_ws r) as [|c1 r1] eqn:Hws; [now apply IHm in H|].
        destruct (c1 =? "}")%char eqn:Hc1.
        - apply Ascii.eqb_eq in Hc1. subst c1. discriminate.
        - assert (Hm : scan_members py room' fuel [] (String c1 r1) = Raise e).
          { revert H. destruct c1 as [[] [] [] [] [] [] [] []];
              try discriminate; exact (fun H => H). }
          now apply IHm in Hm. }
      destruct (c =? "[")%char.
      { destruct room as [|room']; [injection H as <-; right; now right|].
        destruct (skip_ws r) as [|c1 r1] eqn:Hws; [now apply IHe in H|].
        destruct (c1 =? "]")%char eqn:Hc1.
        - apply Ascii.eqb_eq in Hc1. subst c1. discriminate.
        - assert (Hm : scan_elems py room' fuel [] (String c1 r1) = Raise e).
          { revert H. destruct c1 as [[] [] [] [] [] [] [] []];
              try discriminate; exact (fun H => H). }
          now apply IHe in Hm. }
      now apply scan_literal_raises in H.
    + intros room acc s e H. cbn [scan_members] in H.
      destruct s as [|c r]; [injection H as <-; now left|].
      destruct (c =? dquote)%char; [|injection H as <-; now left].
      destruct (scan_string _ r) as [[key r1]|];
        [|injection H as <-; now left].
      destruct (skip_ws r1) as [|c1 r2]; [injection H as <-; now left|].
      destruct (c1 =? ":")%char eqn:Hc1.
      * apply Ascii.eqb_eq in Hc1. subst c1.
        destruct (scan_once py room fuel (skip_ws r2)) as [[v r3]|e'] eqn:Hv.
        -- destruct (skip_ws r3) as [|c2 r4]; [injection H as <-; now left|].
           destruct (c2 =? ",")%char eqn:Hc2.
           ++ apply Ascii.eqb_eq in Hc2. subst c2. now apply IHm in H.
           ++ destruct c2 as [[] [] [] [] [] [] [] []];
                try discriminate; try (injection H as <-; now left).
        -- injection H as <-. now apply IHo in Hv.
      * destruct c1 as [[] [] [] [] [] [] [] []];
          try discriminate; injection H as <-; now left.
    + intros room acc s e H. cbn [scan_elems] in H.
      destruct (scan_once py room fuel s) as [[v r1]|e'] eqn:Hv.
      * destruct (skip_ws r1) as [|c2 r2]; [injection H as <-; now left|].
        destruct (c2 =? ",")%char eqn:Hc2.
        -- apply Ascii.eqb_eq in Hc2. subst c2. now apply IHe in H.
        -- destruct c2 as [[] [] [] [] [] [] [] []];
             try discriminate; try (injection H as <-; now left).
      * injection H as <-. now apply IHo in Hv.
Qed.

Lemma json_loads_raises py json_data e :
  json_loads py json_data = Raise e -> raised_by_loads e.
Proof.
  unfold json_loads.
  destruct (scan_once _ _ _ _) as [[v rest]|e'] eqn:Hs.
  - destruct (skip_ws rest); [discriminate|].
    intros [= <-]. now left.
  - intros [= <-]. now apply (proj1 (scan_raises py _)) in Hs.
Qed.

(** Exactly which outcomes of the decoder make the method answer
    [False]. *)
Lemma update_from_json_false_characterisation py json_data m :
  fst (fst (update_from_json py json_data m)) = Ok false <->
  answers_false (json_loads py json_data) = true.
Proof.
  destruct (json_loads py json_data) as [data|e] eqn:Hload.
  - destruct data as [|b|z|f|s|l|d].
    1-4: unfold update_from_json, update_body; unfold_monad;
         rewrite Hload; simpl; split; reflexivity.
    + unfold update_from_json, update_body, and_then. unfold_monad.
      rewrite Hload. simpl.
      destruct (str_contains "t" s); simpl; [split; reflexivity|].
      destruct (str_contains "type" s); simpl; [split; reflexivity|].
      split; discriminate.
    + unfold update_from_json, update_body, and_then. unfold_monad.
      rewrite Hload. simpl.
      destruct (existsb (fun y => py_eq_str y "t") l); simpl;
        [split; reflexivity|].
      destruct (existsb (fun y => py_eq_str y "type") l); simpl;
        [split; reflexivity|].
      split; discriminate.
    + simpl. split; [|discriminate].
      destruct (update_from_json_object_not_false py json_data m Hload)
        as [H|H]; rewrite H; discriminate.
  - apply json_loads_raises in Hload as He.
    unfold update_from_json, update_body. unfold_monad. rewrite Hload.
    destruct He as [->|[->| ->]]; simpl; split;
      first [reflexivity | discriminate].
Qed.

(** A gear message followed by the throttle message: the callback leaves
    the gear at its default. *)
Lemma control_callback_forgets_gear :
  let c0 := mkClient (new_control_message 0) in
  let '(_, c1, _) := control_callback cpython gear_message 800 c0 in
  let '(_, c2, _) := control_callback cpython throttle_message 1000 c1 in
  gear (control_data c1) = PyStr "D" /\ gear (control_data c2) = PyStr "N".
Proof. vm_compute. split; reflexivity. Qed.

(** A tick whose publish call fails logs the failure and returns; the
    frame has left the queue all the same. *)
Example publish_frame_sink_failure :
  publish_frame 42 failing_sink
    (set_processed_frame_queue
       (mkQueue 2 [([x00; x01; x02], 1, 1, "bgr8"%string, 3)])
       (sample_node "bgr8" []))
  = (Ok tt,
     sample_node "bgr8" [],
     [EvGetNowait ProcessedQueue true; EvClockNow 42;
      EvPublish (mkImage 42 "camera_link" 1 1 "bgr8" 0 3 [x00; x01; x02]);
      EvLog ERROR (MsgPublishError SinkError)]).
Proof. reflexivity. Qed.

(** Decoder and method on sample texts. *)
Example json_loads_throttle_message :
  json_loads cpython throttle_message
  = Ok (PyDict [("type", PyStr "analog");
                ("v", PyDict [("throttle", half)]);
                ("t", PyInt 1000)]%string).
Proof. reflexivity. Qed.

Example json_loads_rejects_trailing_comma :
  json_loads cpython (dq "{'t':1,}") = Raise JSONDecodeError.
Proof. reflexivity. Qed.

Example json_loads_last_duplicate_wins :
  json_loads cpython (dq "{'t':1,'t':2}")
  = Ok (PyDict [("t", PyInt 2)]%string).
Proof. reflexivity. Qed.

(** A float is rounded to binary64, and is infinite beyond the range. *)
Example json_loads_rounds_floats :
  json_loads cpython "0.1"
  = Ok (PyFloat (FNum (3602879701896397 # 36028797018963968))) /\
  json_loads cpython "1e400" = Ok (PyFloat (FInf false)) /\
  json_loads cpython "-1e-400" = Ok (PyFloat (FNum 0)).
Proof. vm_compute. repeat split; reflexivity. Qed.

(** An integer of 4301 digits is refused, a float of as many is not; the
    first error in the text is the one raised. *)
Example json_loads_long_integer :
  json_loads cpython long_integer_message = Raise ValueError /\
  json_loads cpython (dq "{'a':1" ++ zeros 4300 ++ ",}")%string
  = Raise ValueError /\
  json_loads cpython (dq "{'a':1" ++ zeros 4300 ++ ".5}")%string
  = Ok (PyDict [("a", PyFloat (FInf false))]%string).
Proof. vm_compute. repeat split; reflexivity. Qed.

(** Nesting beyond the room the interpreter has left is refused. *)
Example json_loads_deep_nesting :
  json_loads (mkInterpreter 3 4300) "[[[1]]]"
  = Ok (PyList [PyList [PyList [PyInt 1]]]) /\
  json_loads (mkInterpreter 2 4300) "[[[1]]]" = Raise RecursionError /\
  json_loads (mkInterpreter 2 4300) "[[[1,]]]" = Raise RecursionError /\
  json_loads (mkInterpreter 2 4300) "[[1,]]" = Raise JSONDecodeError.
Proof. vm_compute. repeat split; reflexivity. Qed.

Example update_from_json_number_is_false :
  update_from_json cpython "5" (new_control_message 0)
  = (Ok false, new_control_message 0, [EvPrint TypeError]).
Proof. reflexivity. Qed.

Example update_from_json_empty_list_is_true :
  update_from_json cpython "[]" (new_control_message 0)
  = (Ok true, new_control_message 0, []).
Proof. reflexivity. Qed.

Example update_from_json_gear :
  update_from_json cpython (dq "{'type':'gear','gear':'D'}")
    (new_control_message 0)
  = (Ok true, set_gear (PyStr "D") (new_control_message 0), []).
Proof. reflexivity. Qed.

Example effective_encoding_default : effective_encoding "I420" = "i420"%string.
Proof. reflexivity. Qed.

Example effective_encoding_mixed_case : effective_encoding "Bgr8" = "bgr8"%string.
Proof. reflexivity. Qed.

Example effective_encoding_unknown : effective_encoding "yuyv" = "i420"%string.
Proof. reflexivity. Qed.

(* ===================================================================== *)
(** * Further properties *)
(* ===================================================================== *)

(** ** Subsequences *)

Lemma subseq_refl {A} (l : list A) : subseq l l.
Proof. induction l; constructor; assumption. Qed.

Lemma subseq_nil_l {A} (l : list A) : subseq [] l.
Proof. induction l; constructor; assumption. Qed.

Lemma subseq_trans {A} (l1 l2 l3 : list A) :
  subseq l1 l2 -> subseq l2 l3 -> subseq l1 l3.
Proof.
  intros H12 H23. revert l1 H12.
  induction H23 as [|x l2 l3 H IH|x l2 l3 H IH]; intros l1 H12.
  - exact H12.
  - constructor. now apply IH.
  - inversion H12; subst.
    + constructor. now apply IH.
    + apply subseq_take. now apply IH.
Qed.

Lemma subseq_app {A} (l1 l2 m1 m2 : list A) :
  subseq l1 l2 -> subseq m1 m2 -> subseq (l1 ++ m1) (l2 ++ m2).
Proof.
  intros H1 H2. induction H1; simpl; try constructor; assumption.
Qed.

Lemma subseq_skipn {A} n (l : list A) : subseq (skipn n l) l.
Proof.
  revert n. induction l as [|x l IH]; intros [|n]; simpl.
  - constructor.
  - constructor.
  - apply subseq_refl.
  - constructor. apply IH.
Qed.

Lemma subseq_last_n {A} n (l : list A) : subseq (last_n n l) l.
Proof. apply subseq_skipn. Qed.

Lemma subseq_In {A} (l1 l2 : list A) x :
  subseq l1 l2 -> In x l1 -> In x l2.
Proof.
  induction 1; simpl; intros Hin; auto.
  destruct Hin as [->|Hin]; auto.
Qed.

Lemma subseq_flat_map {A B} (g : A -> list B) (l1 l2 : list A) :
  subseq l1 l2 -> subseq (flat_map g l1) (flat_map g l2).
Proof.
  induction 1; simpl.
  - constructor.
  - apply (subseq_app (subseq_nil_l (g x)) IHsubseq).
  - apply subseq_app; [apply subseq_refl | assumption].
Qed.

Lemma subseq_length {A} (l1 l2 : list A) :
  subseq l1 l2 -> (List.length l1 <= List.length l2)%nat.
Proof. induction 1; simpl; lia. Qed.

(** ** Single passes *)

Lemma publish_frame_empty now sink st :
  items (processed_frame_queue st) = [] ->
  publish_frame now sink st = (Ok tt, st, [EvGetNowait ProcessedQueue false]).
Proof.
  intros Hit. unfold publish_frame, processed_get_nowait, get_nowait.
  unfold_monad. now rewrite Hit.
Qed.

Lemma publish_frame_item now sink st data h w enc stp rest :
  items (processed_frame_queue st) = (data, h, w, enc, stp) :: rest ->
  let img := mkImage now "camera_link" h w enc 0 stp data in
  publish_frame now sink st =
    (match sink img with
     | Ok _ => Ok tt
     | Raise e => if is_Exception e then Ok tt else Raise e
     end,
     set_processed_frame_queue
       (mkQueue (maxsize (processed_frame_queue st)) rest) st,
     [EvGetNowait ProcessedQueue true; EvClockNow now; EvPublish img]
     ++ match sink img with
        | Ok _ => []
        | Raise e =>
            if is_Exception e then
              match e with
              | QueueEmpty => []
              | _ => [EvLog ERROR (MsgPublishError e)]
              end
            else []
        end).
Proof.
  intros Hit img. unfold publish_frame, processed_get_nowait, get_nowait.
  unfold_monad. rewrite Hit. simpl. fold img.
  destruct (sink img) as [[]|e]; [reflexivity|].
  destruct e; reflexivity.
Qed.

Lemma destroy_node_result st :
  destroy_node st =
    (Ok tt,
     match cap st with
     | Some c =>
         set_cap (Some (mkCapture (cap_source c) (cap_backend c) false))
           (set_running false st)
     | None => set_running false st
     end,
     match cap st with Some _ => [EvCapRelease] | None => [] end).
Proof.
  unfold destroy_node, release. unfold_monad. simpl.
  destruct (cap st); reflexivity.
Qed.

Lemma guarded_stopped body st :
  running st = false -> guarded body st = (Ok tt, st, []).
Proof. intros H. unfold guarded. unfold_monad. now rewrite H. Qed.

Lemma guarded_running body st :
  running st = true ->
  guarded body st = (let '(r, st', t) := body st in (r, st', t)).
Proof.
  intros H. unfold guarded. unfold_monad. rewrite H.
  now destruct (body st) as [[r st'] t].
Qed.

(** ** Schedules *)

Lemma subseq_app_nil_r {A} (l m : list A) : subseq l (l ++ m).
Proof.
  rewrite <- (app_nil_r l) at 1.
  apply subseq_app; [apply subseq_refl | apply subseq_nil_l].
Qed.

Section ScheduleFacts.
Variables luma chroma_u chroma_v : byte -> byte -> byte -> byte.

Local Abbreviation act := (do_action luma chroma_u chroma_v).
Local Abbreviation sched := (run luma chroma_u chroma_v).
Local Abbreviation hist := (history luma chroma_u chroma_v).

Ltac same_conf := unfold same_configuration; simpl; repeat split; reflexivity.

Lemma same_configuration_refl st : same_configuration st st.
Proof. unfold same_configuration. repeat split. Qed.

Lemma history_nothing a st :
  relays_within_capacity st -> hist [a] st st [] [].
Proof.
  intros Hcap. unfold history. simpl.
  split; [exact Hcap|]. split; [apply same_configuration_refl|].
  split; [auto|]. split; [lia|].
  split; [apply subseq_app_nil_r|].
  split; [rewrite app_nil_r; apply subseq_refl | constructor].
Qed.

Lemma do_action_history a st :
  relays_within_capacity st -> tame_action a ->
  exists st1 tr1 taken1,
    act a st = (Ok tt, st1, tr1) /\ hist [a] st st1 tr1 taken1.
Proof.
  intros Hcap Htame. pose proof Hcap as [Hraw Hproc].
  destruct a as [[ok f]| |now sink|]; unfold do_action.
  - (* a pass of the capture loop *)
    destruct (running st) eqn:Hrun.
    2:{ exists st, [], []. split; [now apply guarded_stopped|].
        now apply history_nothing. }
    rewrite guarded_running by exact Hrun.
    destruct ok.
    + rewrite capture_iter_frame by exact Hraw.
      eexists _, _, []. split; [reflexivity|].
      destruct (full (raw_frame_queue st)); unfold history; simpl;
        (split; [split; [|exact Hproc]; split; [reflexivity|];
                 simpl; rewrite length_last_n; lia|]);
        (split; [same_conf|]);
        (split; [congruence|]); (split; [lia|]);
        (split; [apply subseq_last_n|]);
        (split; [rewrite app_nil_r; apply subseq_refl | constructor]).
    + rewrite capture_iter_failed_read.
      exists st, [EvRead false; EvSleep (1 # 100)], []. split; [reflexivity|].
      unfold history. simpl.
      split; [exact Hcap|]. split; [same_conf|].
      split; [auto|]. split; [lia|].
      split; [rewrite app_nil_r; apply subseq_refl|].
      split; [rewrite app_nil_r; apply subseq_refl | constructor].
  - (* a pass of the processing loop *)
    destruct (running st) eqn:Hrun.
    2:{ exists st, [], []. split; [now apply guarded_stopped|].
        now apply history_nothing. }
    rewrite guarded_running by exact Hrun.
    destruct (items (raw_frame_queue st)) as [|frame rest] eqn:Hit.
    + rewrite processing_iter_idle by exact Hit.
      exists st, [EvGetBlocking RawQueue 1 false], []. split; [reflexivity|].
      unfold history. simpl. rewrite Hit.
      split; [exact Hcap|]. split; [same_conf|].
      split; [auto|]. split; [lia|].
      split; [constructor|].
      split; [rewrite app_nil_r; apply subseq_refl | constructor].
    + pose proof (within_capacity_tail Hraw Hit) as Hrest.
      destruct (package_frame luma chroma_u chroma_v (encoding st) frame)
        as [p|e] eqn:Hp.
      * erewrite processing_iter_packages by eassumption.
        eexists _, _, [frame]. split; [reflexivity|].
        destruct (full (processed_frame_queue st));
          unfold history, pack; simpl; rewrite Hit, Hp;
          (split; [split; [exact Hrest|]; split; [reflexivity|];
                   simpl; rewrite length_last_n; lia|]);
          (split; [same_conf|]);
          (split; [congruence|]); (split; [lia|]);
          (split; [rewrite app_nil_r; apply subseq_refl|]);
          (split; [apply subseq_last_n | constructor]).
      * erewrite processing_iter_conversion_failure by eassumption.
        eexists _, _, [frame]. split; [reflexivity|].
        unfold history, pack. simpl. rewrite Hit, Hp.
        split; [split; [exact Hrest | exact Hproc]|].
        split; [same_conf|].
        split; [congruence|]. split; [lia|].
        split; [rewrite app_nil_r; apply subseq_refl|].
        split; [simpl; rewrite app_nil_r; apply subseq_refl | constructor].
  - (* a tick of the publish timer *)
    destruct (items (processed_frame_queue st))
      as [|[[[[data h] w] enc] stp] rest] eqn:Hit.
    + rewrite publish_frame_empty by exact Hit.
      exists st, [EvGetNowait ProcessedQueue false], [].
      split; [reflexivity|].
      unfold history. simpl. rewrite Hit.
      split; [exact Hcap|]. split; [same_conf|].
      split; [auto|]. split; [lia|].
      split; [rewrite app_nil_r; apply subseq_refl|].
      split; constructor.
    + rewrite (publish_frame_item now sink st Hit).
      pose proof (within_capacity_tail Hproc Hit) as Hrest.
      set (img := mkImage now "camera_link" h w enc 0 stp data).
      assert (Hres : (match sink img with
                      | Ok _ => Ok tt
                      | Raise e => if is_Exception e then Ok tt else Raise e
                      end) = Ok tt).
      { destruct (sink img) as [[]|e] eqn:Hs; [reflexivity|].
        now rewrite (Htame img e Hs). }
      rewrite Hres.
      eexists _, _, []. split; [reflexivity|].
      assert (Hpub : published
                ([EvGetNowait ProcessedQueue true; EvClockNow now;
                  EvPublish img]
                 ++ match sink img with
                    | Ok _ => []
                    | Raise e =>
                        if is_Exception e then
                          match e with
                          | QueueEmpty => []
                          | _ => [EvLog ERROR (MsgPublishError e)]
                          end
                        else []
                    end) = [img]).
      { destruct (sink img) as [[]|e]; [reflexivity|].
        destruct (is_Exception e); [|reflexivity]. now destruct e. }
      unfold history. rewrite Hpub. simpl. rewrite Hit.
      split; [split; [exact Hraw | exact Hrest]|].
      split; [same_conf|].
      split; [auto|]. split; [lia|].
      split; [rewrite app_nil_r; apply subseq_refl|].
      split; [rewrite app_nil_r; apply subseq_refl|].
      constructor; [split; reflexivity | constructor].
  - (* destroy_node *)
    rewrite destroy_node_result.
    eexists _, _, []. split; [reflexivity|].
    unfold history. simpl.
    destruct (cap st); simpl;
      (split; [exact Hcap|]);
      (split; [same_conf|]);
      (split; [auto|]); (split; [lia|]);
      (split; [rewrite app_nil_r; apply subseq_refl|]);
      (split; [rewrite app_nil_r; apply subseq_refl | constructor]).
Qed.
Lemma frames_read_cons a acts :
  frames_read (a :: acts) = frames_read [a] ++ frames_read acts.
Proof. unfold frames_read. simpl. now rewrite app_nil_r. Qed.

Lemma history_compose a acts st st1 st2 tr1 tr2 taken1 taken2 :
  hist [a] st st1 tr1 taken1 ->
  hist acts st1 st2 tr2 taken2 ->
  hist (a :: acts) st st2 (tr1 ++ tr2) (taken1 ++ taken2).
Proof.
  intros (_ & Hc1 & Hr1 & Hn1 & Hraw1 & Hproc1 & Himg1)
         (Hcap2 & Hc2 & Hr2 & Hn2 & Hraw2 & Hproc2 & Himg2).
  unfold history.
  split; [exact Hcap2|].
  split.
  { unfold same_configuration in *.
    destruct Hc1 as (? & ? & ? & ? & ? & ? & ?).
    destruct Hc2 as (? & ? & ? & ? & ? & ? & ?).
    repeat split; congruence. }
  split; [auto|].
  split; [rewrite Hn2, Hn1, length_app; lia|].
  split.
  { rewrite frames_read_cons, <- app_assoc.
    eapply subseq_trans.
    - apply subseq_app; [apply subseq_refl | exact Hraw2].
    - rewrite !app_assoc. apply subseq_app; [exact Hraw1 | apply subseq_refl]. }
  split.
  { assert (Henc : encoding st1 = encoding st) by apply Hc1.
    rewrite Henc in Hproc2.
    unfold published in *. rewrite flat_map_app, map_app, <- app_assoc.
    unfold pack in *. rewrite flat_map_app.
    eapply subseq_trans.
    - apply subseq_app; [apply subseq_refl | exact Hproc2].
    - rewrite !app_assoc. apply subseq_app; [exact Hproc1 | apply subseq_refl]. }
  unfold published in *. rewrite flat_map_app. apply Forall_app. now split.
Qed.

(** Whatever the schedule, no pass raises and the history relation holds
    between the node before and after. *)
Lemma run_history acts : forall st,
  relays_within_capacity st -> Forall tame_action acts ->
  exists st' tr taken,
    sched acts st = (Ok tt, st', tr) /\ hist acts st st' tr taken.
Proof.
  induction acts as [|a acts IH]; intros st Hcap Htame.
  - exists st, [], []. split; [reflexivity|].
    unfold history. simpl. rewrite !app_nil_r.
    split; [exact Hcap|]. split; [apply same_configuration_refl|].
    split; [auto|]. split; [lia|].
    split; [apply subseq_refl|]. split; [apply subseq_refl | constructor].
  - inversion Htame as [|? ? Ha Hacts]; subst.
    destruct (@do_action_history a st Hcap Ha)
      as (st1 & tr1 & taken1 & Hstep & H1).
    destruct (IH st1 (proj1 H1) Hacts) as (st2 & tr2 & taken2 & Hrun & H2).
    exists st2, (tr1 ++ tr2), (taken1 ++ taken2).
    split; [|now apply history_compose with (st1 := st1)].
    simpl. unfold bind. rewrite Hstep, Hrun. reflexivity.
Qed.
End ScheduleFacts.

Lemma package_frame_fields luma chroma_u chroma_v enc f data h w e stp :
  In enc ["i420"; "rgb8"; "bgr8"]%string ->
  package_frame luma chroma_u chroma_v enc f = Ok (data, h, w, e, stp) ->
  e = enc /\ h = rows f /\ w = cols f /\
  stp = (if (enc =? "i420")%string then w else w * 3) /\
  (bgr_frame f ->
   if (enc =? "i420")%string
   then 2 * Z.of_nat (List.length data) = 3 * (w * h)
   else Z.of_nat (List.length data) = w * 3 * h).
Proof.
  intros Henc.
  destruct Henc as [<-|[<-|[<-|[]]]]; unfold package_frame; simpl.
  - destruct (cvtColor _ _ _ _ _) as [yuv|] eqn:Hcv; [|discriminate].
    apply cvtColor_ok_inv in Hcv. destruct Hcv as (Hr & Hc & -> & Er & Ec).
    intros [= <- <- <- <- <-]. repeat split.
    intros _. apply Zlength_i420_even; try assumption; lia.
  - destruct (cvtColor _ _ _ _ _) as [rgb|] eqn:Hcv; [|discriminate].
    apply cvtColor_ok_inv in Hcv. destruct Hcv as (Hr & Hc & ->).
    intros [= <- <- <- <- <-]. repeat split.
    intros _. transitivity (cols f * rows f * 3); [|ring].
    apply Zlength_rgb; lia.
  - intros [= <- <- <- <- <-]. repeat split.
    intros [(_ & _ & _ & Hlen) Hch]. unfold tobytes. rewrite Hlen, Hch. ring.
Qed.

Lemma in_pack luma chroma_u chroma_v enc frames p :
  In p (pack luma chroma_u chroma_v enc frames) ->
  exists f, In f frames /\
            package_frame luma chroma_u chroma_v enc f = Ok p.
Proof.
  unfold pack. rewrite in_flat_map. intros (f & Hf & Hin).
  exists f. split; [exact Hf|].
  destruct (package_frame _ _ _ enc f) as [q|e]; [|contradiction].
  destruct Hin as [->|[]]. reflexivity.
Qed.

(** X1.  Whatever the order in which passes of the capture loop, passes
    of the processing loop, publish ticks and [destroy_node] take effect,
    no pass raises, both relays stay within their capacity of two, the
    fields written by the constructor keep their values, the lifecycle
    flag does not come back up once it is down, and the frame counter
    never decreases and grows by at most the number of frames queued or
    read. *)
Theorem schedule_keeps_node_sound luma chroma_u chroma_v
    (acts : list action) (st : Publisher) :
  relays_within_capacity st ->
  Forall tame_action acts ->
  exists st' tr,
    run luma chroma_u chroma_v acts st = (Ok tt, st', tr) /\
    relays_within_capacity st' /\
    same_configuration st st' /\
    (running st = false -> running st' = false) /\
    frame_count st <= frame_count st' /\
    frame_count st' <=
      frame_count st
      + Z.of_nat (List.length (items (raw_frame_queue st)))
      + Z.of_nat (List.length (frames_read acts)).
Proof.
  intros Hcap Htame.
  destruct (run_history luma chroma_u chroma_v Hcap Htame)
    as (st' & tr & taken & Hrun & Hcap' & Hconf & Hflag & Hn & Hraw & _).
  exists st', tr. repeat (split; [assumption|]).
  apply subseq_length in Hraw. rewrite !length_app in Hraw. lia.
Qed.

(** X2.  On a node that starts with empty relays and one of the three
    encodings, fed three-channel frames, every image published under any
    schedule is consistent: frame id camera_link, little-endian flag, the
    node's encoding, the height and width of a frame the camera
    delivered, stride [w] and [w * h * 3 / 2] payload bytes for i420,
    stride [3 * w] and [3 * w * h] payload bytes for rgb8 and bgr8. *)
Theorem published_images_are_consistent luma chroma_u chroma_v
    (acts : list action) (st : Publisher) :
  relays_within_capacity st ->
  items (raw_frame_queue st) = [] ->
  items (processed_frame_queue st) = [] ->
  In (encoding st) ["i420"; "rgb8"; "bgr8"]%string ->
  Forall tame_action acts ->
  Forall bgr_frame (frames_read acts) ->
  exists st' tr,
    run luma chroma_u chroma_v acts st = (Ok tt, st', tr) /\
    Forall (consistent_image (encoding st) (frames_read acts)) (published tr).
Proof.
  intros Hcap Hraw0 Hproc0 Henc Htame Hframes.
  destruct (run_history luma chroma_u chroma_v Hcap Htame)
    as (st' & tr & taken & Hrun & _ & _ & _ & _ & Hraw & Hproc & Himg).
  exists st', tr. split; [exact Hrun|].
  rewrite Hraw0 in Hraw. rewrite Hproc0 in Hproc. simpl in Hraw, Hproc.
  rewrite Forall_forall in *. intros img Hin.
  destruct (Himg img Hin) as [Hid Hbe].
  assert (Hp : In (tuple_of_image img)
                  (pack luma chroma_u chroma_v (encoding st) taken)).
  { eapply subseq_In; [exact Hproc|].
    apply in_or_app. left. now apply in_map. }
  apply in_pack in Hp. destruct Hp as (f & Hf & Hpk).
  assert (Hfr : In f (frames_read acts)).
  { eapply subseq_In; [exact Hraw|]. apply in_or_app. now left. }
  unfold tuple_of_image in Hpk.
  destruct (@package_frame_fields luma chroma_u chroma_v _ _ _ _ _ _ _
              Henc Hpk)
    as (He & Hh & Hw & Hstep & Hlen).
  specialize (Hlen (Hframes f Hfr)).
  unfold consistent_image.
  split; [exact Hid|]. split; [exact Hbe|]. split; [exact He|].
  split; [exists f; auto|].
  destruct (encoding st =? "i420")%string.
  - rewrite Hstep. split; [reflexivity | exact Hlen].
  - rewrite Hstep. split; [reflexivity | exact Hlen].
Qed.

(** X3.  On a node that starts with empty relays, the tuples published
    under any schedule are, in the order of publication, a subsequence of
    the packaged forms of the frames the camera delivered, in the order
    of delivery: frames may be dropped, but none is published twice and
    none overtakes an earlier one. *)
Theorem frames_are_published_in_capture_order luma chroma_u chroma_v
    (acts : list action) (st : Publisher) :
  relays_within_capacity st ->
  items (raw_frame_queue st) = [] ->
  items (processed_frame_queue st) = [] ->
  Forall tame_action acts ->
  exists st' tr,
    run luma chroma_u chroma_v acts st = (Ok tt, st', tr) /\
    subseq (map tuple_of_image (published tr))
           (pack luma chroma_u chroma_v (encoding st) (frames_read acts)) /\
    (List.length (published tr) <= List.length (frames_read acts))%nat.
Proof.
  intros Hcap Hraw0 Hproc0 Htame.
  destruct (run_history luma chroma_u chroma_v Hcap Htame)
    as (st' & tr & taken & Hrun & _ & _ & _ & _ & Hraw & Hproc & _).
  exists st', tr. split; [exact Hrun|].
  rewrite Hraw0 in Hraw. rewrite Hproc0 in Hproc. simpl in Hraw, Hproc.
  assert (Htaken : subseq taken (frames_read acts)).
  { eapply subseq_trans; [apply subseq_app_nil_r | exact Hraw]. }
  assert (Hpub : subseq (map tuple_of_image (published tr))
                   (pack luma chroma_u chroma_v (encoding st) taken)).
  { eapply subseq_trans; [apply subseq_app_nil_r | exact Hproc]. }
  assert (Hall : subseq (map tuple_of_image (published tr))
                   (pack luma chroma_u chroma_v (encoding st)
                      (frames_read acts))).
  { eapply subseq_trans; [exact Hpub|].
    unfold pack. now apply subseq_flat_map. }
  split; [exact Hall|].
  apply subseq_length in Hpub. apply subseq_length in Htaken.
  rewrite length_map in Hpub.
  assert (Hle : (List.length (pack luma chroma_u chroma_v (encoding st) taken)
                 <= List.length taken)%nat).
  { unfold pack. clear. induction taken as [|f l IH]; simpl; [lia|].
    rewrite length_app.
    destruct (package_frame _ _ _ _ f); simpl; lia. }
  lia.
Qed.

Lemma sample_node_within_capacity enc :
  relays_within_capacity (sample_node enc []).
Proof. split; (split; [reflexivity | simpl; lia]). Qed.

Lemma sample_schedule_tame : Forall tame_action sample_schedule.
Proof.
  unfold sample_schedule. repeat constructor.
  intros img e H. discriminate.
Qed.

Lemma sample_frames_bgr : Forall bgr_frame (frames_read sample_schedule).
Proof.
  simpl. repeat constructor; simpl; lia.
Qed.

Lemma schedule_keeps_node_sound_witness :
  relays_within_capacity (sample_node "i420" []) /\
  Forall tame_action sample_schedule /\
  exists st' tr,
    run sample_luma sample_u sample_v sample_schedule (sample_node "i420" [])
    = (Ok tt, st', tr) /\
    relays_within_capacity st' /\
    same_configuration (sample_node "i420" []) st' /\
    (running (sample_node "i420" []) = false -> running st' = false) /\
    frame_count (sample_node "i420" []) <= frame_count st' /\
    frame_count st' <=
      frame_count (sample_node "i420" [])
      + Z.of_nat (List.length (items (raw_frame_queue (sample_node "i420" []))))
      + Z.of_nat (List.length (frames_read sample_schedule)).
Proof.
  split; [apply sample_node_within_capacity|].
  split; [apply sample_schedule_tame|].
  exact (@schedule_keeps_node_sound sample_luma sample_u sample_v
           sample_schedule (sample_node "i420" [])
           (sample_node_within_capacity "i420") sample_schedule_tame).
Defined.

Lemma published_images_are_consistent_witness :
  relays_within_capacity (sample_node "i420" []) /\
  items (raw_frame_queue (sample_node "i420" [])) = [] /\
  items (processed_frame_queue (sample_node "i420" [])) = [] /\
  In (encoding (sample_node "i420" [])) ["i420"; "rgb8"; "bgr8"]%string /\
  Forall tame_action sample_schedule /\
  Forall bgr_frame (frames_read sample_schedule) /\
  exists st' tr,
    run sample_luma sample_u sample_v sample_schedule (sample_node "i420" [])
    = (Ok tt, st', tr) /\
    Forall (consistent_image (encoding (sample_node "i420" []))
              (frames_read sample_schedule))
           (published tr).
Proof.
  assert (Henc : In (encoding (sample_node "i420" []))
                    ["i420"; "rgb8"; "bgr8"]%string) by (simpl; auto).
  split; [apply sample_node_within_capacity|].
  split; [reflexivity|]. split; [reflexivity|]. split; [exact Henc|].
  split; [apply sample_schedule_tame|].
  split; [apply sample_frames_bgr|].
  exact (@published_images_are_consistent sample_luma sample_u sample_v
           sample_schedule (sample_node "i420" [])
           (sample_node_within_capacity "i420") eq_refl eq_refl Henc
           sample_schedule_tame sample_frames_bgr).
Defined.

Lemma frames_are_published_in_capture_order_witness :
  relays_within_capacity (sample_node "bgr8" []) /\
  items (raw_frame_queue (sample_node "bgr8" [])) = [] /\
  items (processed_frame_queue (sample_node "bgr8" [])) = [] /\
  Forall tame_action sample_schedule /\
  exists st' tr,
    run sample_luma sample_u sample_v sample_schedule (sample_node "bgr8" [])
    = (Ok tt, st', tr) /\
    subseq (map tuple_of_image (published tr))
           (pack sample_luma sample_u sample_v
              (encoding (sample_node "bgr8" []))
              (frames_read sample_schedule)) /\
    (List.length (published tr) <= List.length (frames_read sample_schedule))%nat.
Proof.
  split; [apply sample_node_within_capacity|].
  split; [reflexivity|]. split; [reflexivity|].
  split; [apply sample_schedule_tame|].
  exact (@frames_are_published_in_capture_order sample_luma sample_u sample_v
           sample_schedule (sample_node "bgr8" [])
           (sample_node_within_capacity "bgr8") eq_refl eq_refl
           sample_schedule_tame).
Defined.

(** The sample schedule under i420: the first frame read is the one
    published; the odd-sized frame is still queued when the node is
    destroyed, and the passes after that do nothing. *)
Example sample_schedule_run :
  let '(r, st', tr) :=
    run sample_luma sample_u sample_v sample_schedule (sample_node "i420" [])
  in
  r = Ok tt /\
  map tuple_of_image (published tr)
  = [([x02; x05; x08; x0b; x01; x03], 2, 2, "i420"%string, 2)] /\
  items (raw_frame_queue st') = [frame_1x3] /\
  frame_count st' = 1 /\ running st' = false.
Proof. vm_compute. repeat split. Qed.

(** ** Whole loops *)

Lemma waits_app tr1 tr2 : waits (tr1 ++ tr2) = (waits tr1 + waits tr2)%nat.
Proof. unfold waits. now rewrite filter_app, length_app. Qed.

Lemma logged_app lv tr1 tr2 :
  logged lv (tr1 ++ tr2) = (logged lv tr1 + logged lv tr2)%nat.
Proof. unfold logged. now rewrite filter_app, length_app. Qed.

Lemma set_raw_frame_queue_same st :
  within_capacity 2 (raw_frame_queue st) ->
  set_raw_frame_queue (mkQueue 2 (items (raw_frame_queue st))) st = st.
Proof.
  intros [Hm _]. destruct st as [? ? ? ? ? ? ? [m l] ? ? ? ?].
  simpl in *. subst m. reflexivity.
Qed.

(** X4.  A run of the capture loop over any answers of the camera
    leaves in the raw relay the newest two of the frames queued or read,
    touches no other field of the node, sleeps once per failed read and
    nowhere else, and never raises. *)
Theorem capture_loop_keeps_newest_frames (reads : list (bool * ndarray)) :
  forall st,
    running st = true ->
    within_capacity 2 (raw_frame_queue st) ->
    exists tr,
      capture_loop reads st =
        (Ok StillLooping,
         set_raw_frame_queue
           (mkQueue 2 (last_n 2 (items (raw_frame_queue st)
                                 ++ good_reads reads))) st,
         tr) /\
      waits tr
      = List.length (filter (fun rd : bool * ndarray => negb (fst rd)) reads).
Proof.
  induction reads as [|[ok f] reads IH]; intros st Hrun Hcap.
  - exists []. split; [|reflexivity].
    replace (items (raw_frame_queue st) ++ good_reads [])
      with (items (raw_frame_queue st)) by (simpl; now rewrite app_nil_r).
    rewrite last_n_short by apply Hcap.
    rewrite set_raw_frame_queue_same by exact Hcap.
    simpl. unfold_monad. now rewrite Hrun.
  - destruct ok.
    + pose proof (@capture_iter_frame st f Hcap) as Hit.
      set (st1 := set_raw_frame_queue
                    (mkQueue 2 (last_n 2 (items (raw_frame_queue st) ++ [f])))
                    st) in *.
      assert (Hcap1 : within_capacity 2 (raw_frame_queue st1)).
      { split; [reflexivity|]. simpl. rewrite length_last_n. lia. }
      destruct (IH st1 Hrun Hcap1) as (tr & Hloop & Hw).
      rewrite (@capture_loop_step (true, f) reads st st1 _ Hrun Hit), Hloop.
      eexists. split.
      * f_equal. f_equal. unfold st1. simpl.
        unfold set_raw_frame_queue. simpl. f_equal. f_equal.
        change (f :: good_reads reads) with ([f] ++ good_reads reads).
        now rewrite last_n_app, <- app_assoc.
      * rewrite waits_app, Hw. simpl.
        now destruct (full (raw_frame_queue st)).
    + destruct (IH st Hrun Hcap) as (tr & Hloop & Hw).
      rewrite (@capture_loop_step (false, f) reads st st _ Hrun
                 (capture_iter_failed_read st f)), Hloop.
      eexists. split; [reflexivity|].
      rewrite waits_app, Hw. reflexivity.
Qed.

Lemma capture_loop_keeps_newest_frames_witness :
  running (sample_node "i420" [frame_1x3]) = true /\
  within_capacity 2 (raw_frame_queue (sample_node "i420" [frame_1x3])) /\
  exists tr,
    capture_loop [(true, frame_2x2); (false, frame_2x2); (true, frame_720p)]
      (sample_node "i420" [frame_1x3]) =
      (Ok StillLooping,
       set_raw_frame_queue
         (mkQueue 2
            (last_n 2
               (items (raw_frame_queue (sample_node "i420" [frame_1x3]))
                ++ good_reads [(true, frame_2x2); (false, frame_2x2);
                               (true, frame_720p)])))
         (sample_node "i420" [frame_1x3]),
       tr) /\
    waits tr
    = List.length (filter (fun rd : bool * ndarray => negb (fst rd))
                     [(true, frame_2x2); (false, frame_2x2);
                      (true, frame_720p)]).
Proof.
  assert (Hcap : within_capacity 2
                   (raw_frame_queue (sample_node "i420" [frame_1x3]))).
  { split; [reflexivity | simpl; lia]. }
  split; [reflexivity|]. split; [exact Hcap|].
  exact (@capture_loop_keeps_newest_frames
           [(true, frame_2x2); (false, frame_2x2); (true, frame_720p)]
           (sample_node "i420" [frame_1x3]) eq_refl Hcap).
Defined.

Section ProcessingLoop.
Variables luma chroma_u chroma_v : byte -> byte -> byte -> byte.

Local Abbreviation pk := (pack luma chroma_u chroma_v).
Local Abbreviation ploop := (processing_loop luma chroma_u chroma_v).

(** X5.  Left alone with the frames in the raw relay, the processing
    loop takes them all in as many passes: the raw relay ends empty, the
    counter has grown by their number, the second relay holds the newest
    two of the tuples it held and those packaged from the frames that
    convert, and each frame that does not convert costs one ERROR line
    and nothing else. *)
Theorem processing_loop_works_through_queue frames : forall st,
  running st = true ->
  relays_within_capacity st ->
  items (raw_frame_queue st) = frames ->
  exists tr,
    ploop (List.length frames) st =
      (Ok StillLooping,
       set_processed_frame_queue
         (mkQueue 2 (last_n 2 (items (processed_frame_queue st)
                               ++ pk (encoding st) frames)))
         (set_frame_count (frame_count st + Z.of_nat (List.length frames))
            (set_raw_frame_queue (mkQueue (maxsize (raw_frame_queue st)) [])
               st)),
       tr) /\
    (logged ERROR tr + List.length (pk (encoding st) frames))%nat
    = List.length frames.
Proof.
  induction frames as [|f frames IH]; intros st Hrun [Hraw Hproc] Hit.
  - exists []. split; [|reflexivity].
    replace (items (processed_frame_queue st) ++ pk (encoding st) [])
      with (items (processed_frame_queue st))
      by (unfold pack; simpl; now rewrite app_nil_r).
    rewrite last_n_short by apply Hproc.
    destruct Hproc as [Hm _].
    destruct st as [? ? ? ? fc ? ? [mr lr] [mp lp] ? ? ?].
    simpl in *. subst. unfold_monad. simpl.
    unfold set_processed_frame_queue, set_frame_count, set_raw_frame_queue.
    simpl. now rewrite Z.add_0_r.
  - pose proof (within_capacity_tail Hraw Hit) as Hrest.
    destruct (package_frame luma chroma_u chroma_v (encoding st) f)
      as [p|e] eqn:Hp.
    + pose proof (@processing_iter_packages luma chroma_u chroma_v
                    st f frames p Hit Hp Hproc) as Hstep.
      set (st1 := set_processed_frame_queue
                    (mkQueue 2 (last_n 2 (items (processed_frame_queue st)
                                          ++ [p])))
                    (after_take frames st)) in *.
      assert (Hcap1 : relays_within_capacity st1).
      { split; [exact Hrest|].
        split; [reflexivity|]. simpl. rewrite length_last_n. lia. }
      destruct (IH st1 Hrun Hcap1 eq_refl) as (tr & Hloop & Hcount).
      simpl List.length.
      rewrite (@processing_loop_step luma chroma_u chroma_v
                 (List.length frames) st tt st1 _ Hrun Hstep), Hloop.
      eexists. split.
      * f_equal. f_equal. unfold st1, after_take.
        unfold set_processed_frame_queue, set_frame_count,
          set_raw_frame_queue. simpl.
        unfold pack. simpl. rewrite Hp.
        f_equal; [lia|]. f_equal.
        change ((p :: nil) ++ ?x) with (p :: x).
        rewrite last_n_app, <- app_assoc. reflexivity.
      * rewrite logged_app. unfold pack in *. simpl. rewrite Hp.
        simpl in Hcount. simpl.
        destruct (full (processed_frame_queue st)); simpl; lia.
    + pose proof (@processing_iter_conversion_failure luma chroma_u chroma_v
                    st f frames e Hit Hp) as Hstep.
      assert (Hcap1 : relays_within_capacity (after_take frames st)).
      { split; [exact Hrest | exact Hproc]. }
      destruct (IH (after_take frames st) Hrun Hcap1 eq_refl)
        as (tr & Hloop & Hcount).
      simpl List.length.
      rewrite (@processing_loop_step luma chroma_u chroma_v
                 (List.length frames) st tt (after_take frames st) _
                 Hrun Hstep), Hloop.
      eexists. split.
      * f_equal. f_equal. unfold after_take.
        unfold set_processed_frame_queue, set_frame_count,
          set_raw_frame_queue. simpl.
        unfold pack. simpl. rewrite Hp. simpl.
        f_equal. lia.
      * rewrite logged_app. unfold pack in *. simpl. rewrite Hp.
        simpl in Hcount. simpl. lia.
Qed.
End ProcessingLoop.

Lemma processing_loop_works_through_queue_witness :
  running (sample_node "i420" [frame_1x3; frame_2x2]) = true /\
  relays_within_capacity (sample_node "i420" [frame_1x3; frame_2x2]) /\
  exists tr,
    processing_loop sample_luma sample_u sample_v
      (List.length [frame_1x3; frame_2x2])
      (sample_node "i420" [frame_1x3; frame_2x2]) =
      (Ok StillLooping,
       set_processed_frame_queue
         (mkQueue 2
            (last_n 2
               (items (processed_frame_queue
                         (sample_node "i420" [frame_1x3; frame_2x2]))
                ++ pack sample_luma sample_u sample_v
                     (encoding (sample_node "i420" [frame_1x3; frame_2x2]))
                     [frame_1x3; frame_2x2])))
         (set_frame_count
            (frame_count (sample_node "i420" [frame_1x3; frame_2x2])
             + Z.of_nat (List.length [frame_1x3; frame_2x2]))
            (set_raw_frame_queue
               (mkQueue
                  (maxsize (raw_frame_queue
                              (sample_node "i420" [frame_1x3; frame_2x2])))
                  [])
               (sample_node "i420" [frame_1x3; frame_2x2]))),
       tr) /\
    (logged ERROR tr
     + List.length
         (pack sample_luma sample_u sample_v
            (encoding (sample_node "i420" [frame_1x3; frame_2x2]))
            [frame_1x3; frame_2x2]))%nat
    = List.length [frame_1x3; frame_2x2].
Proof.
  assert (Hcap : relays_within_capacity
                   (sample_node "i420" [frame_1x3; frame_2x2])).
  { split; (split; [reflexivity | simpl; lia]). }
  split; [reflexivity|]. split; [exact Hcap|].
  exact (@processing_loop_works_through_queue sample_luma sample_u sample_v
           [frame_1x3; frame_2x2]
           (sample_node "i420" [frame_1x3; frame_2x2]) eq_refl Hcap eq_refl).
Defined.

(** ** Publish ticks *)

(** X6.  When the publish call of a tick fails with an ordinary
    exception, the tick still returns normally; the frame it took has
    left the queue, so the next tick moves on to the frame after it, and
    the failure is logged once with ERROR, unless the exception is
    [queue.Empty], which the handler for the empty queue swallows without
    a line. *)
Theorem failed_publish_is_logged_and_not_retried
    (now : Z) (sink : Image -> result unit) (st : Publisher)
    data h w enc stp rest (e : exn) :
  items (processed_frame_queue st) = (data, h, w, enc, stp) :: rest ->
  sink (mkImage now "camera_link" h w enc 0 stp data) = Raise e ->
  is_Exception e = true ->
  exists tr,
    publish_frame now sink st =
      (Ok tt,
       set_processed_frame_queue
         (mkQueue (maxsize (processed_frame_queue st)) rest) st,
       tr) /\
    published tr = [mkImage now "camera_link" h w enc 0 stp data] /\
    logged ERROR tr = (if is_Empty e then 0 else 1)%nat /\
    (is_Empty e = false -> In (EvLog ERROR (MsgPublishError e)) tr).
Proof.
  intros Hit Hsink Hexc.
  rewrite (publish_frame_item now sink st Hit). rewrite Hsink, Hexc.
  eexists. split; [reflexivity|].
  destruct e; simpl; repeat split; auto; discriminate.
Qed.

Lemma failed_publish_is_logged_and_not_retried_witness :
  items (processed_frame_queue
           (set_processed_frame_queue
              (mkQueue 2 [([x00; x01; x02], 1, 1, "bgr8"%string, 3)])
              (sample_node "bgr8" [])))
  = ([x00; x01; x02], 1, 1, "bgr8"%string, 3) :: [] /\
  failing_sink (mkImage 42 "camera_link" 1 1 "bgr8" 0 3 [x00; x01; x02])
  = Raise SinkError /\
  is_Exception SinkError = true /\
  exists tr,
    publish_frame 42 failing_sink
      (set_processed_frame_queue
         (mkQueue 2 [([x00; x01; x02], 1, 1, "bgr8"%string, 3)])
         (sample_node "bgr8" [])) =
      (Ok tt,
       set_processed_frame_queue
         (mkQueue
            (maxsize (processed_frame_queue
                        (set_processed_frame_queue
                           (mkQueue 2
                              [([x00; x01; x02], 1, 1, "bgr8"%string, 3)])
                           (sample_node "bgr8" []))))
            [])
         (set_processed_frame_queue
            (mkQueue 2 [([x00; x01; x02], 1, 1, "bgr8"%string, 3)])
            (sample_node "bgr8" [])),
       tr) /\
    published tr = [mkImage 42 "camera_link" 1 1 "bgr8" 0 3 [x00; x01; x02]] /\
    logged ERROR tr = (if is_Empty SinkError then 0 else 1)%nat /\
    (is_Empty SinkError = false ->
     In (EvLog ERROR (MsgPublishError SinkError)) tr).
Proof.
  split; [reflexivity|]. split; [reflexivity|]. split; [reflexivity|].
  exact (@failed_publish_is_logged_and_not_retried 42 failing_sink
           (set_processed_frame_queue
              (mkQueue 2 [([x00; x01; x02], 1, 1, "bgr8"%string, 3)])
              (sample_node "bgr8" []))
           [x00; x01; x02] 1 1 "bgr8"%string 3 [] SinkError
           eq_refl eq_refl eq_refl).
Defined.

(** X7.  With encoding bgr8 a frame goes through the pipeline untouched:
    on a running node with empty relays, a read, a processing pass and a
    publish tick publish exactly one image, whose payload is the buffer
    of the frame as read, byte for byte, with the frame's height and
    width and stride [3 * w], and leave both relays empty again.  No
    condition on the frame is needed. *)
Theorem bgr8_frame_is_published_unchanged luma chroma_u chroma_v
    (frame : ndarray) (now : Z) (sink : Image -> result unit)
    (st : Publisher) :
  running st = true ->
  encoding st = "bgr8"%string ->
  raw_frame_queue st = new_queue 2 ->
  processed_frame_queue st = new_queue 2 ->
  tame_sink sink ->
  exists st' tr,
    run luma chroma_u chroma_v
      [ACapture (true, frame); AProcess; ATick now sink] st
    = (Ok tt, st', tr) /\
    published tr
    = [mkImage now "camera_link" (rows frame) (cols frame) "bgr8" 0
         (cols frame * 3) (buf frame)] /\
    items (raw_frame_queue st') = [] /\
    items (processed_frame_queue st') = [] /\
    frame_count st' = frame_count st + 1.
Proof.
  intros Hrun Henc Hraw Hproc Htame.
  destruct st as [tp dp fps fi fc enc cp rq pq rn dbg tmr].
  simpl in *. subst.
  unfold run, do_action, guarded, capture_iter, processing_iter,
    publish_frame, package_frame.
  unfold raw_put_nowait, raw_get, processed_put_nowait, processed_get_nowait.
  unfold_monad. simpl.
  set (img := mkImage now "camera_link" (rows frame) (cols frame) "bgr8" 0
                (cols frame * 3) (tobytes frame)).
  destruct (sink img) as [[]|e] eqn:Hs.
  - simpl. do 2 eexists. repeat split.
  - rewrite (Htame img e Hs).
    destruct e; simpl; do 2 eexists; repeat split.
Qed.

Lemma bgr8_frame_is_published_unchanged_witness :
  running (sample_node "bgr8" []) = true /\
  encoding (sample_node "bgr8" []) = "bgr8"%string /\
  raw_frame_queue (sample_node "bgr8" []) = new_queue 2 /\
  processed_frame_queue (sample_node "bgr8" []) = new_queue 2 /\
  tame_sink accepting_sink /\
  exists st' tr,
    run sample_luma sample_u sample_v
      [ACapture (true, frame_1x3); AProcess; ATick 9 accepting_sink]
      (sample_node "bgr8" [])
    = (Ok tt, st', tr) /\
    published tr
    = [mkImage 9 "camera_link" (rows frame_1x3) (cols frame_1x3) "bgr8" 0
         (cols frame_1x3 * 3) (buf frame_1x3)] /\
    items (raw_frame_queue st') = [] /\
    items (processed_frame_queue st') = [] /\
    frame_count st' = frame_count (sample_node "bgr8" []) + 1.
Proof.
  assert (Ht : tame_sink accepting_sink) by (intros img e H; discriminate).
  split; [reflexivity|]. split; [reflexivity|]. split; [reflexivity|].
  split; [reflexivity|]. split; [exact Ht|].
  exact (@bgr8_frame_is_published_unchanged sample_luma sample_u sample_v
           frame_1x3 9 accepting_sink (sample_node "bgr8" [])
           eq_refl eq_refl eq_refl eq_refl Ht).
Defined.

(** ** Opening the camera and constructing the node *)

(** X8.  [open_camera] tries the source with V4L2, then, for a device
    index, the path /dev/video<index> with V4L2 and with the default
    backend, or, for a path, the path with the default backend; it
    returns the handle of the first attempt that opens and [None] exactly
    when none does; it never raises, and all it does besides is release
    at most two handles that failed to open. *)
Theorem open_camera_takes_first_device_that_opens
    (dev : Device) (src : camera_source) :
  exists tr,
    (forall (S : Type) (s : S),
       open_camera dev src s = (Ok (first_opening dev src), s, tr)) /\
    Forall (fun ev => ev = EvCapRelease) tr /\
    (List.length tr <= 2)%nat /\
    (first_opening dev src = None <->
     forall a, In a (attempts src) -> probe dev (fst a) (snd a) = false).
Proof.
  unfold first_opening.
  assert (Hnone : forall l : list (camera_source * backend),
            find (fun a => probe dev (fst a) (snd a)) l = None <->
            forall a, In a l -> probe dev (fst a) (snd a) = false).
  { intros l. split.
    - intros H a Ha. now apply (find_none _ _ H a Ha).
    - intros H. induction l as [|a l IH]; [reflexivity|]. simpl.
      rewrite (H a (or_introl eq_refl)). apply IH.
      intros b Hb. apply H. now right. }
  assert (Hiff : (match find (fun a : camera_source * backend =>
                                probe dev (fst a) (snd a)) (attempts src)
                  with
                  | Some (p, b) => Some (mkCapture p b true)
                  | None => None
                  end = None) <->
                 forall a, In a (attempts src) ->
                           probe dev (fst a) (snd a) = false).
  { rewrite <- Hnone.
    destruct (find _ (attempts src)) as [[p b]|]; split; congruence. }
  unfold open_camera, release, cv2_VideoCapture in *. unfold_monad.
  cbn [isOpened].
  destruct src as [i|p]; cbn [attempts find fst snd] in *.
  - destruct (probe dev (SrcIndex i) CAP_V4L2).
    + exists []. repeat split; auto; simpl; try lia; apply Hiff.
    + destruct (probe dev _ CAP_V4L2).
      * exists [EvCapRelease]. repeat split; auto; simpl; try lia;
          apply Hiff.
      * destruct (probe dev _ CAP_ANY);
          exists [EvCapRelease; EvCapRelease];
          repeat split; auto; simpl; try lia; apply Hiff.
  - destruct (probe dev (SrcPath p) CAP_V4L2).
    + exists []. repeat split; auto; simpl; try lia; apply Hiff.
    + destruct (probe dev (SrcPath p) CAP_ANY);
        exists [EvCapRelease];
        repeat split; auto; simpl; try lia; apply Hiff.
Qed.

Lemma open_camera_only_releases dev src (S : Type) (s : S) r s' tr :
  open_camera dev src s = (r, s', tr) ->
  Forall (fun ev => ev = EvCapRelease) tr.
Proof.
  unfold open_camera, release, cv2_VideoCapture. unfold_monad.
  cbn [isOpened].
  destruct (probe dev src CAP_V4L2); [intros [= <- <- <-]; constructor|].
  destruct src as [i|p].
  - destruct (probe dev _ CAP_V4L2);
      [intros [= <- <- <-]; repeat constructor|].
    destruct (probe dev _ CAP_ANY); intros [= <- <- <-]; repeat constructor.
  - destruct (probe dev _ CAP_ANY); intros [= <- <- <-]; repeat constructor.
Qed.

Lemma logged_releases lv tr :
  Forall (fun ev => ev = EvCapRelease) tr -> logged lv tr = 0%nat.
Proof.
  induction 1 as [|ev tr -> _ IH]; [reflexivity|].
  unfold logged in *. simpl. exact IH.
Qed.

(** The node and the trace of a constructor call whose camera opens. *)
Lemma init_result dev src topic w h fps display enc fourcc c tr0 :
  open_camera dev src tt = (Ok (Some c), tt, tr0) ->
  init dev src topic w h fps display enc fourcc tt =
    (Ok (mkPublisher topic display fps
           (if Qgt_bool fps 0 then (1 / fps)%Q else 0%Q) 0
           (effective_encoding enc) (Some c) (new_queue 2) (new_queue 2)
           true false
           (if Qgt_bool (if Qgt_bool fps 0 then (1 / fps)%Q else 0%Q) 0
            then (if Qgt_bool fps 0 then (1 / fps)%Q else 0%Q) else 0%Q)),
     tt,
     (if str_in (lower enc) ["bgr8"; "rgb8"; "i420"]%string then []
      else [EvLog WARN (MsgUnsupportedEncoding enc)])
     ++ tr0
     ++ (if negb (fourcc =? "")%string then
           match VideoWriter_fourcc fourcc with
           | Ok code =>
               [EvCapSet "CAP_PROP_FOURCC" (inject_Z code);
                EvLog INFO (MsgFourccSet fourcc)]
           | Raise e => [EvLog WARN (MsgFourccFailed e)]
           end
         else [])
     ++ (if negb (w =? 0)
         then [EvCapSet "CAP_PROP_FRAME_WIDTH" (inject_Z w)] else [])
     ++ (if negb (h =? 0)
         then [EvCapSet "CAP_PROP_FRAME_HEIGHT" (inject_Z h)] else [])
     ++ (if negb (Qeq_bool fps 0) then [EvCapSet "CAP_PROP_FPS" fps] else [])
     ++ [EvLog INFO (MsgCameraParams (actual_w dev) (actual_h dev)
                       (actual_fps dev));
         EvLog INFO MsgCaptureThreadStarted;
         EvLog INFO MsgProcessingThreadStarted]).
Proof.
  intros Hopen.
  assert (Hc : isOpened c = true).
  { destruct (open_camera_result dev src) as (oc & tr & Hall & Hopened).
    rewrite Hall in Hopen. injection Hopen as -> _. now apply Hopened. }
  unfold init, effective_encoding. unfold bind at 1.
  rewrite resolve_encoding_result.
  destruct (str_in _ _); unfold bind at 1; rewrite Hopen; rewrite Hc;
    unfold_monad;
    destruct (negb (fourcc =? "")%string);
    destruct (VideoWriter_fourcc fourcc) as [code|e] eqn:Hf;
    try (apply VideoWriter_fourcc_raises in Hf; subst e; cbn [is_Exception]);
    destruct (negb (w =? 0)); destruct (negb (h =? 0));
    destruct (negb (Qeq_bool fps 0));
    simpl; rewrite ?app_nil_r; reflexivity.
Qed.

(** A character spells a character that is not a capital exactly when
    lowering it gives that character. *)
Lemma spells_lower c k :
  lower_ascii k = k -> (spells c k = true <-> lower_ascii c = k).
Proof.
  unfold spells, lower_ascii. intros Hk.
  pose proof (nat_ascii_bounded c) as Hbc.
  pose proof (nat_ascii_bounded k) as Hbk.
  assert (Hm : ~ (65 <= nat_of_ascii k <= 90)%nat).
  { intros Hr.
    replace ((65 <=? nat_of_ascii k) && (nat_of_ascii k <=? 90))%nat
      with true in Hk
      by (symmetry; apply andb_true_iff; split; apply Nat.leb_le; lia).
    apply (f_equal nat_of_ascii) in Hk.
    rewrite nat_ascii_embedding in Hk by lia. lia. }
  rewrite orb_true_iff, !andb_true_iff, !Nat.leb_le, Nat.eqb_eq,
    Ascii.eqb_eq.
  destruct ((65 <=? nat_of_ascii c) && (nat_of_ascii c <=? 90))%nat eqn:Hc.
  - apply andb_true_iff in Hc. rewrite !Nat.leb_le in Hc. split.
    + intros [->|[_ Heq]]; [exfalso; apply Hm; lia|].
      rewrite <- Heq. apply ascii_nat_embedding.
    + intros <-. right. rewrite nat_ascii_embedding by lia. lia.
  - apply andb_false_iff in Hc. rewrite !Nat.leb_gt in Hc. split.
    + intros [->|[[H1 H2] Heq]]; [reflexivity|]. lia.
    + intros ->. now left.
Qed.

Lemma spelling_lower s : forall name,
  lower name = name -> (spelling s name = true <-> lower s = name).
Proof.
  induction s as [|c s IH]; intros [|k name] Hname; simpl;
    try (split; discriminate); [split; reflexivity|].
  simpl in Hname. injection Hname as Hk Hname.
  rewrite andb_true_iff, (@spells_lower c k Hk), (IH name Hname).
  split; [intros [-> ->]; reflexivity | intros [= -> ->]; now split].
Qed.

Lemma supported_encodings_lower name :
  In name supported_encodings -> lower name = name.
Proof. intros [<-|[<-|[<-|[]]]]; reflexivity. Qed.

(** The membership test of the constructor accepts exactly the spellings
    of the three names. *)
Lemma str_in_lower_spelling enc :
  str_in (lower enc) ["bgr8"; "rgb8"; "i420"]%string
  = existsb (spelling enc) supported_encodings.
Proof.
  apply eq_true_iff_eq. unfold str_in. rewrite !existsb_exists.
  split; intros (name & Hin & H); exists name; (split; [exact Hin|]).
  - apply String.eqb_eq in H.
    now apply (@spelling_lower enc name
                 (@supported_encodings_lower name Hin)).
  - apply String.eqb_eq.
    now apply (@spelling_lower enc name
                 (@supported_encodings_lower name Hin)).
Qed.

Lemma spelling_supported enc name :
  In name supported_encodings -> spelling enc name = true ->
  str_in (lower enc) ["bgr8"; "rgb8"; "i420"]%string = true /\
  lower enc = name.
Proof.
  intros Hin Hsp. split.
  - rewrite str_in_lower_spelling. apply existsb_exists. eauto.
  - now apply (@spelling_lower enc name
                 (@supported_encodings_lower name Hin)).
Qed.

Lemma no_spelling_unsupported enc :
  (forall name, In name supported_encodings -> spelling enc name = false) ->
  str_in (lower enc) ["bgr8"; "rgb8"; "i420"]%string = false.
Proof.
  intros Hno. rewrite str_in_lower_spelling.
  destruct (existsb _ _) eqn:He; [|reflexivity].
  apply existsb_exists in He. destruct He as (name & Hin & Hsp).
  rewrite (Hno name Hin) in Hsp. discriminate.
Qed.

(** C9.  An encoding argument that spells bgr8, rgb8 or i420 in any mix
    of capitals and small letters makes the constructor settle on that
    name, in lower case, without a warning about the encoding; every
    other argument makes it log that warning and settle on i420.
    Whenever the camera opens the constructor returns the node with that
    encoding, so an unsupported encoding never makes it exit. *)
Theorem unsupported_encoding_falls_back_to_i420 :
  (forall (S : Type) (s : S) enc name,
     In name supported_encodings ->
     spelling enc name = true ->
     resolve_encoding enc s = (Ok name, s, [])) /\
  (forall (S : Type) (s : S) enc,
     (forall name,
        In name supported_encodings -> spelling enc name = false) ->
     resolve_encoding enc s
     = (Ok "i420"%string, s, [EvLog WARN (MsgUnsupportedEncoding enc)])) /\
  (forall dev src topic w h fps display enc fourcc c tr0,
     open_camera dev src tt = (Ok (Some c), tt, tr0) ->
     exists node tr,
       init dev src topic w h fps display enc fourcc tt = (Ok node, tt, tr) /\
       (forall name,
          In name supported_encodings ->
          spelling enc name = true ->
          encoding node = name /\
          ~ In (EvLog WARN (MsgUnsupportedEncoding enc)) tr) /\
       ((forall name,
           In name supported_encodings -> spelling enc name = false) ->
        encoding node = "i420"%string /\
        In (EvLog WARN (MsgUnsupportedEncoding enc)) tr)).
Proof.
  split; [|split].
  - intros S s enc name Hin Hsp. rewrite resolve_encoding_result.
    destruct (@spelling_supported enc name Hin Hsp) as [-> ->]. reflexivity.
  - intros S s enc Hno. rewrite resolve_encoding_result.
    now rewrite (@no_spelling_unsupported enc Hno).
  - intros dev src topic w h fps display enc fourcc c tr0 Hopen.
    do 2 eexists.
    split; [now apply init_result with (c := c) (tr0 := tr0)|].
    pose proof (open_camera_only_releases _ _ _ Hopen) as Hrel.
    cbn [encoding]. unfold effective_encoding. split.
    + intros name Hin Hsp.
      destruct (@spelling_supported enc name Hin Hsp) as [-> ->].
      split; [reflexivity|].
      rewrite !in_app_iff.
      intros [Hw|[Hw|[Hw|[Hw|[Hw|[Hw|Hw]]]]]].
      * destruct Hw.
      * rewrite Forall_forall in Hrel. specialize (Hrel _ Hw).
        discriminate.
      * destruct (negb (fourcc =? "")%string); [|destruct Hw].
        destruct (VideoWriter_fourcc fourcc) as [code|e].
        -- destruct Hw as [Hw|[Hw|[]]]; discriminate.
        -- destruct Hw as [Hw|[]]. discriminate.
      * destruct (negb (w =? 0)); [|destruct Hw].
        destruct Hw as [Hw|[]]. discriminate.
      * destruct (negb (h =? 0)); [|destruct Hw].
        destruct Hw as [Hw|[]]. discriminate.
      * destruct (negb (Qeq_bool fps 0)); [|destruct Hw].
        destruct Hw as [Hw|[]]. discriminate.
      * destruct Hw as [Hw|[Hw|[Hw|[]]]]; discriminate.
    + intros Hno. rewrite (@no_spelling_unsupported enc Hno).
      split; [reflexivity|]. apply in_or_app. left. now left.
Qed.

Lemma unsupported_encoding_falls_back_to_i420_witness :
  open_camera friendly_device (SrcIndex 0) tt
  = (Ok (Some (mkCapture (SrcIndex 0) CAP_V4L2 true)), tt, []) /\
  resolve_encoding "Bgr8" tt = (Ok "bgr8"%string, tt, []) /\
  resolve_encoding "yuyv" tt
  = (Ok "i420"%string, tt, [EvLog WARN (MsgUnsupportedEncoding "yuyv")]) /\
  (exists node tr,
     init friendly_device (SrcIndex 0) "/camera_front_wide" 1280 720 15
       false "RGB8" "MJPG" tt = (Ok node, tt, tr) /\
     encoding node = "rgb8"%string /\
     ~ In (EvLog WARN (MsgUnsupportedEncoding "RGB8")) tr) /\
  (exists node tr,
     init friendly_device (SrcIndex 0) "/camera_front_wide" 1280 720 15
       false "YUYV" "MJPG" tt = (Ok node, tt, tr) /\
     encoding node = "i420"%string /\
     In (EvLog WARN (MsgUnsupportedEncoding "YUYV")) tr).
Proof.
  assert (Hno : forall enc,
            existsb (spelling enc) supported_encodings = false ->
            forall name,
              In name supported_encodings -> spelling enc name = false).
  { intros enc He name Hin.
    destruct (spelling enc name) eqn:Hsp; [|reflexivity].
    rewrite <- He. symmetry. apply existsb_exists. eauto. }
  split; [reflexivity|]. split; [|split; [|split]].
  - apply (proj1 unsupported_encoding_falls_back_to_i420 unit tt
             "Bgr8"%string "bgr8"%string); [now left | reflexivity].
  - apply (proj1 (proj2 unsupported_encoding_falls_back_to_i420) unit tt
             "yuyv"%string). now apply Hno.
  - destruct (proj2 (proj2 unsupported_encoding_falls_back_to_i420)
                friendly_device (SrcIndex 0) "/camera_front_wide"%string
                1280 720 15%Q false "RGB8"%string "MJPG"%string
                (mkCapture (SrcIndex 0) CAP_V4L2 true) [] eq_refl)
      as (node & tr & Hinit & Hyes & _).
    exists node, tr. split; [exact Hinit|].
    apply (Hyes "rgb8"%string); [right; now left | reflexivity].
  - destruct (proj2 (proj2 unsupported_encoding_falls_back_to_i420)
                friendly_device (SrcIndex 0) "/camera_front_wide"%string
                1280 720 15%Q false "YUYV"%string "MJPG"%string
                (mkCapture (SrcIndex 0) CAP_V4L2 true) [] eq_refl)
      as (node & tr & Hinit & _ & Hnot).
    exists node, tr. split; [exact Hinit|].
    apply Hnot. now apply Hno.
Defined.

Lemma Qgt_bool_inv (q : Q) :
  Qgt_bool q 0 = true -> Qgt_bool (1 / q) 0 = true.
Proof.
  unfold Qgt_bool. rewrite !negb_true_iff.
  intros H.
  destruct (Qle_bool (1 / q) 0) eqn:E; [|reflexivity].
  apply Qle_bool_iff in E.
  assert (Hq : (0 < q)%Q).
  { apply Qnot_le_lt. intros Hle. apply Qle_bool_iff in Hle. congruence. }
  exfalso. apply (Qlt_not_le 0 (1 / q)); [|exact E].
  unfold Qdiv. rewrite Qmult_1_l. now apply Qinv_lt_0_compat.
Qed.

(** X9.  Whenever the camera opens, the constructor returns a running
    node with two empty relays of capacity two and the counter at zero;
    its frame interval and timer period are [1 / fps] for a positive
    frame rate, and both are zero for a frame rate that is zero or
    negative, which is therefore accepted without a division and gives a
    timer that fires as fast as it can. *)
Theorem constructor_accepts_any_frame_rate
    dev src topic w h (fps : Q) display enc fourcc c tr0 :
  open_camera dev src tt = (Ok (Some c), tt, tr0) ->
  exists node tr,
    init dev src topic w h fps display enc fourcc tt = (Ok node, tt, tr) /\
    running node = true /\ frame_count node = 0 /\
    raw_frame_queue node = new_queue 2 /\
    processed_frame_queue node = new_queue 2 /\
    target_fps node = fps /\
    (Qgt_bool fps 0 = true ->
     frame_interval node = (1 / fps)%Q /\ timer_period node = (1 / fps)%Q) /\
    (Qgt_bool fps 0 = false ->
     frame_interval node = 0%Q /\ timer_period node = 0%Q).
Proof.
  intros Hopen. do 2 eexists.
  split; [now apply init_result with (c := c) (tr0 := tr0)|].
  cbn [running frame_count raw_frame_queue processed_frame_queue target_fps
       frame_interval timer_period].
  repeat (split; [reflexivity|]).
  split.
  - intros Hpos. rewrite Hpos. now rewrite (Qgt_bool_inv _ Hpos).
  - intros Hneg. rewrite Hneg. now split.
Qed.

Lemma constructor_accepts_any_frame_rate_witness :
  open_camera friendly_device (SrcPath "/dev/video2") tt
  = (Ok (Some (mkCapture (SrcPath "/dev/video2") CAP_V4L2 true)), tt, []) /\
  exists node tr,
    init friendly_device (SrcPath "/dev/video2") "/camera_front_wide"
      1280 720 0 false "rgb8" "MJPG" tt = (Ok node, tt, tr) /\
    running node = true /\ frame_count node = 0 /\
    raw_frame_queue node = new_queue 2 /\
    processed_frame_queue node = new_queue 2 /\
    target_fps node = 0%Q /\
    (Qgt_bool 0 0 = true ->
     frame_interval node = (1 / 0)%Q /\ timer_period node = (1 / 0)%Q) /\
    (Qgt_bool 0 0 = false ->
     frame_interval node = 0%Q /\ timer_period node = 0%Q).
Proof.
  split; [reflexivity|].
  exact (@constructor_accepts_any_frame_rate friendly_device
           (SrcPath "/dev/video2") "/camera_front_wide"%string 1280 720
           0%Q false "rgb8"%string "MJPG"%string
           (mkCapture (SrcPath "/dev/video2") CAP_V4L2 true) [] eq_refl).
Defined.

(** X10.  Whenever the camera opens, the constructor logs no error, and
    it warns exactly once for an encoding that spells none of the three
    names and exactly once for a non-empty FOURCC that does not have
    exactly four characters; such a FOURCC is not passed to the device,
    an empty one is skipped without a line, and one of four characters,
    ASCII or not, is set on the device with the code that
    [cv2.VideoWriter_fourcc] makes of them. *)
Theorem constructor_warnings
    dev src topic w h (fps : Q) display enc fourcc c tr0 :
  open_camera dev src tt = (Ok (Some c), tt, tr0) ->
  exists node tr,
    init dev src topic w h fps display enc fourcc tt = (Ok node, tt, tr) /\
    logged ERROR tr = 0%nat /\
    logged WARN tr
    = ((if existsb (spelling enc) supported_encodings then 0 else 1)
       + (if (fourcc =? "")%string then 0
          else if (py_len fourcc =? 4)%nat then 0 else 1))%nat /\
    (forall code,
       In (EvCapSet "CAP_PROP_FOURCC" (inject_Z code)) tr <->
       VideoWriter_fourcc fourcc = Ok code).
Proof.
  intros Hopen. do 2 eexists.
  split; [now apply init_result with (c := c) (tr0 := tr0)|].
  pose proof (open_camera_only_releases _ _ _ Hopen) as Hrel.
  assert (Hlen : forall e, VideoWriter_fourcc fourcc = Raise e ->
                           (py_len fourcc =? 4)%nat = false).
  { unfold VideoWriter_fourcc, py_len.
    destruct (first_bytes fourcc) as [|c1 [|c2 [|c3 [|c4 [|c5 l]]]]];
      intros e He; try reflexivity. discriminate. }
  assert (Hlen4 : forall code, VideoWriter_fourcc fourcc = Ok code ->
                  (py_len fourcc =? 4)%nat = true /\
                  (fourcc =? "")%string = false).
  { unfold VideoWriter_fourcc, py_len. intros code He. split.
    - destruct (first_bytes fourcc) as [|c1 [|c2 [|c3 [|c4 [|c5 l]]]]];
        try discriminate. reflexivity.
    - destruct fourcc; [discriminate | reflexivity]. }
  assert (Hnotin : forall code,
            ~ In (EvCapSet "CAP_PROP_FOURCC" (inject_Z code)) tr0).
  { intros code Hin. rewrite Forall_forall in Hrel.
    specialize (Hrel _ Hin). discriminate. }
  split; [|split].
  - rewrite !logged_app, (logged_releases ERROR Hrel).
    destruct (str_in _ _); destruct (negb (fourcc =? "")%string);
      destruct (VideoWriter_fourcc fourcc);
      destruct (negb (w =? 0)); destruct (negb (h =? 0));
      destruct (negb (Qeq_bool fps 0)); reflexivity.
  - rewrite <- str_in_lower_spelling.
    rewrite !logged_app, (logged_releases WARN Hrel).
    destruct (fourcc =? "")%string eqn:Hempty; simpl negb; cbv iota.
    + destruct (str_in _ _);
        destruct (negb (w =? 0)); destruct (negb (h =? 0));
        destruct (negb (Qeq_bool fps 0)); reflexivity.
    + destruct (VideoWriter_fourcc fourcc) as [code|e] eqn:Hf.
      * destruct (Hlen4 code eq_refl) as [-> _].
        destruct (str_in _ _);
          destruct (negb (w =? 0)); destruct (negb (h =? 0));
          destruct (negb (Qeq_bool fps 0)); reflexivity.
      * rewrite (Hlen e eq_refl).
        destruct (str_in _ _);
          destruct (negb (w =? 0)); destruct (negb (h =? 0));
          destruct (negb (Qeq_bool fps 0)); reflexivity.
  - intros code. rewrite !in_app_iff. split.
    + intros [Hin|[Hin|[Hin|[Hin|[Hin|[Hin|Hin]]]]]].
      * destruct (str_in _ _); [destruct Hin|].
        destruct Hin as [Hin|[]]. discriminate.
      * now apply Hnotin in Hin.
      * destruct (negb (fourcc =? "")%string); [|destruct Hin].
        destruct (VideoWriter_fourcc fourcc) as [code'|e].
        -- destruct Hin as [Hin|[Hin|[]]]; [|discriminate].
           injection Hin as Hin. now subst.
        -- destruct Hin as [Hin|[]]. discriminate.
      * destruct (negb (w =? 0)); [|destruct Hin].
        destruct Hin as [Hin|[]]. discriminate.
      * destruct (negb (h =? 0)); [|destruct Hin].
        destruct Hin as [Hin|[]]. discriminate.
      * destruct (negb (Qeq_bool fps 0)); [|destruct Hin].
        destruct Hin as [Hin|[]]. discriminate.
      * destruct Hin as [Hin|[Hin|[Hin|[]]]]; discriminate.
    + intros Hf. right. right. left.
      destruct (Hlen4 code Hf) as [_ ->]. rewrite Hf. simpl. auto.
Qed.

Lemma constructor_warnings_witness :
  open_camera friendly_device (SrcIndex 0) tt
  = (Ok (Some (mkCapture (SrcIndex 0) CAP_V4L2 true)), tt, []) /\
  py_len mjpe_acute = 4%nat /\ String.length mjpe_acute = 5%nat /\
  VideoWriter_fourcc mjpe_acute = Ok (-1018148275) /\
  (exists node tr,
     init friendly_device (SrcIndex 0) "/camera_front_wide" 1280 720 15
       false "RGB8" mjpe_acute tt = (Ok node, tt, tr) /\
     logged ERROR tr = 0%nat /\
     logged WARN tr = 0%nat /\
     In (EvCapSet "CAP_PROP_FOURCC" (inject_Z (-1018148275))) tr) /\
  (exists node tr,
     init friendly_device (SrcIndex 0) "/camera_front_wide" 1280 720 15
       false "YUYV" "MJ" tt = (Ok node, tt, tr) /\
     logged ERROR tr = 0%nat /\
     logged WARN tr = 2%nat /\
     forall code, ~ In (EvCapSet "CAP_PROP_FOURCC" (inject_Z code)) tr).
Proof.
  split; [reflexivity|]. split; [reflexivity|]. split; [reflexivity|].
  assert (Hcode : VideoWriter_fourcc mjpe_acute = Ok (-1018148275))
    by reflexivity.
  split; [exact Hcode|]. split.
  - destruct (@constructor_warnings friendly_device (SrcIndex 0)
                "/camera_front_wide"%string 1280 720 15%Q false
                "RGB8"%string mjpe_acute
                (mkCapture (SrcIndex 0) CAP_V4L2 true) [] eq_refl)
      as (node & tr & Hinit & Herr & Hwarn & Hset).
    exists node, tr. split; [exact Hinit|]. split; [exact Herr|].
    split; [exact Hwarn|]. now apply Hset.
  - destruct (@constructor_warnings friendly_device (SrcIndex 0)
                "/camera_front_wide"%string 1280 720 15%Q false
                "YUYV"%string "MJ"%string
                (mkCapture (SrcIndex 0) CAP_V4L2 true) [] eq_refl)
      as (node & tr & Hinit & Herr & Hwarn & Hset).
    exists node, tr. split; [exact Hinit|]. split; [exact Herr|].
    split; [exact Hwarn|].
    intros code Hin. apply Hset in Hin. discriminate.
Defined.

(** ** Shutdown *)

(** X11.  [destroy_node] lowers the flag and releases the camera: on a
    node that holds a capture handle its only event is that release, and
    the handle is closed afterwards; the relays and the counter are as
    they were.  After it every pass of the capture loop and of the
    processing loop finds its guard false, and a further [destroy_node]
    only releases again: the node stays exactly as [destroy_node] left
    it, the camera is not read, nothing is waited for, no frame is taken
    or processed, nothing is logged and no pass raises. *)
Theorem destroyed_node_stays_quiet luma chroma_u chroma_v
    (acts : list action) (st : Publisher) :
  Forall not_a_tick acts ->
  let '(r, st_d, tr_d) := destroy_node st in
  r = Ok tt /\
  tr_d = match cap st with
         | Some _ => [EvCapRelease]
         | None => []
         end /\
  cap st_d = match cap st with
             | Some c => Some (mkCapture (cap_source c) (cap_backend c) false)
             | None => None
             end /\
  running st_d = false /\
  raw_frame_queue st_d = raw_frame_queue st /\
  processed_frame_queue st_d = processed_frame_queue st /\
  frame_count st_d = frame_count st /\
  exists tr,
    run luma chroma_u chroma_v acts st_d = (Ok tt, st_d, tr) /\
    Forall (fun ev => ev = EvCapRelease) tr.
Proof.
  intros Hacts. rewrite destroy_node_result.
  set (st_d := match cap st with
               | Some c =>
                   set_cap (Some (mkCapture (cap_source c) (cap_backend c)
                                    false)) (set_running false st)
               | None => set_running false st
               end).
  assert (Hrun : running st_d = false) by (unfold st_d; now destruct (cap st)).
  assert (Hagain : exists tr1, destroy_node st_d = (Ok tt, st_d, tr1) /\
                               Forall (fun ev => ev = EvCapRelease) tr1).
  { rewrite destroy_node_result. unfold st_d.
    destruct st as [? ? ? ? ? ? [c|] ? ? ? ? ?]; simpl;
      eexists; split; try reflexivity; repeat constructor. }
  split; [reflexivity|]. split; [reflexivity|].
  split; [unfold st_d; destruct st as [? ? ? ? ? ? [c|] ? ? ? ? ?];
          reflexivity|].
  split; [exact Hrun|].
  split; [unfold st_d; now destruct (cap st)|].
  split; [unfold st_d; now destruct (cap st)|].
  split; [unfold st_d; now destruct (cap st)|].
  clear -Hacts Hrun Hagain.
  induction acts as [|a acts IH].
  - exists []. split; [reflexivity | constructor].
  - inversion Hacts as [|? ? Ha Hrest]; subst.
    destruct (IH Hrest) as (tr2 & Hrun2 & Hrel2).
    destruct Hagain as (tr1 & Hd & Hrel1).
    assert (Hstep : exists t, do_action luma chroma_u chroma_v a st_d
                              = (Ok tt, st_d, t) /\
                              Forall (fun ev => ev = EvCapRelease) t).
    { destruct a as [rd| |now sink|]; simpl.
      - exists []. split; [now apply guarded_stopped | constructor].
      - exists []. split; [now apply guarded_stopped | constructor].
      - destruct Ha.
      - exists tr1. now split. }
    destruct Hstep as (t & Hstep & Hrelt).
    exists (t ++ tr2). split.
    + simpl. unfold bind. now rewrite Hstep, Hrun2.
    + apply Forall_app. now split.
Qed.

Lemma destroyed_node_stays_quiet_witness :
  Forall not_a_tick [AProcess; ACapture (true, frame_2x2); ADestroy; AProcess] /\
  cap (sample_node "i420" [frame_1x3])
  = Some (mkCapture (SrcIndex 0) CAP_V4L2 true) /\
  let '(r, st_d, tr_d) := destroy_node (sample_node "i420" [frame_1x3]) in
  r = Ok tt /\
  tr_d = [EvCapRelease] /\
  cap st_d = Some (mkCapture (SrcIndex 0) CAP_V4L2 false) /\
  running st_d = false /\
  raw_frame_queue st_d = raw_frame_queue (sample_node "i420" [frame_1x3]) /\
  processed_frame_queue st_d
  = processed_frame_queue (sample_node "i420" [frame_1x3]) /\
  frame_count st_d = frame_count (sample_node "i420" [frame_1x3]) /\
  exists tr,
    run sample_luma sample_u sample_v
      [AProcess; ACapture (true, frame_2x2); ADestroy; AProcess] st_d
    = (Ok tt, st_d, tr) /\
    Forall (fun ev => ev = EvCapRelease) tr.
Proof.
  assert (H : Forall not_a_tick
                [AProcess; ACapture (true, frame_2x2); ADestroy; AProcess])
    by (repeat constructor).
  split; [exact H|]. split; [reflexivity|].
  exact (@destroyed_node_stays_quiet sample_luma sample_u sample_v
           [AProcess; ACapture (true, frame_2x2); ADestroy; AProcess]
           (sample_node "i420" [frame_1x3]) H).
Defined.

(** ** The control message, in general *)

Lemma assign_axes_dict dv m :
  assign_axes (PyDict dv) m = (Ok tt, with_axes dv m, []).
Proof.
  unfold assign_axes.
  repeat (unfold bind at 1; rewrite assign_get_dict; cbv iota beta).
  rewrite assign_get_dict. destruct m. reflexivity.
Qed.

Lemma assign_axes_not_object v m :
  not_an_object v -> assign_axes v m = (Raise AttributeError, m, []).
Proof. destruct v; simpl; intros H; try reflexivity. destruct H. Qed.

(** X12.  A gear message, that is any text that decodes to an object
    whose "type" is "gear" and that has a "gear" key, makes the method
    answer [True] and store the value of that key as the gear, whatever
    kind of value it is; the timestamp follows "t" when present, and no
    axis changes, not even when the object carries a "v" payload. *)
Theorem gear_message_sets_only_the_gear
    (py : Interpreter) (json_data : string) (d : list (string * pyval)) (g : pyval)
    (m : UnifiedControlMessage) :
  json_loads py json_data = Ok (PyDict d) ->
  dict_get d "type" = Some (PyStr "gear") ->
  dict_get d "gear" = Some g ->
  update_from_json py json_data m
  = (Ok true, set_gear g (touch_timestamp d m), []).
Proof.
  intros Hload Hty Hg.
  unfold update_from_json, update_body, and_then, touch_timestamp.
  unfold_monad. rewrite Hload. unfold py_in, py_getitem.
  rewrite Hty, Hg.
  destruct (dict_get d "t") as [t|]; reflexivity.
Qed.

Lemma gear_message_sets_only_the_gear_witness :
  json_loads cpython (dq "{'type':'gear','gear':3,'v':{'throttle':1},'t':8}")
  = Ok (PyDict [("type", PyStr "gear"); ("gear", PyInt 3);
                ("v", PyDict [("throttle", PyInt 1)]); ("t", PyInt 8)]%string) /\
  update_from_json cpython (dq "{'type':'gear','gear':3,'v':{'throttle':1},'t':8}")
    (new_control_message 0)
  = (Ok true,
     set_gear (PyInt 3)
       (touch_timestamp
          [("type", PyStr "gear"); ("gear", PyInt 3);
           ("v", PyDict [("throttle", PyInt 1)]); ("t", PyInt 8)]%string
          (new_control_message 0)),
     []).
Proof.
  split; [reflexivity|].
  exact (@gear_message_sets_only_the_gear cpython
           (dq "{'type':'gear','gear':3,'v':{'throttle':1},'t':8}")
           [("type", PyStr "gear"); ("gear", PyInt 3);
            ("v", PyDict [("throttle", PyInt 1)]); ("t", PyInt 8)]%string
           (PyInt 3) (new_control_message 0) eq_refl eq_refl eq_refl).
Defined.

(** X13.  An analog message, that is any text that decodes to an object
    whose "type" is "analog" and whose "v" is an object, makes the method
    answer [True]; each of the nine axes takes the value under its key in
    "v" (rotation, brake, throttle, boom, bucket, leftTrack, rightTrack,
    swing, stick) when the key is there, whatever the value, and keeps
    its value otherwise; gear and device type are kept and the timestamp
    follows "t" when present. *)
Theorem analog_message_updates_named_axes
    (py : Interpreter) (json_data : string) (d dv : list (string * pyval))
    (m : UnifiedControlMessage) :
  json_loads py json_data = Ok (PyDict d) ->
  dict_get d "type" = Some (PyStr "analog") ->
  dict_get d "v" = Some (PyDict dv) ->
  update_from_json py json_data m
  = (Ok true, with_axes dv (touch_timestamp d m), []).
Proof.
  intros Hload Hty Hv.
  unfold update_from_json, update_body, and_then, touch_timestamp.
  unfold_monad. rewrite Hload. unfold py_in, py_getitem.
  rewrite Hty, Hv. simpl.
  destruct (dict_get d "t") as [t|]; rewrite assign_axes_dict; reflexivity.
Qed.

Lemma analog_message_updates_named_axes_witness :
  json_loads cpython (dq "{'type':'analog','v':{'boom':-2,'leftTrack':'x'}}")
  = Ok (PyDict [("type", PyStr "analog");
                ("v", PyDict [("boom", PyInt (-2));
                              ("leftTrack", PyStr "x")])]%string) /\
  update_from_json cpython (dq "{'type':'analog','v':{'boom':-2,'leftTrack':'x'}}")
    (new_control_message 0)
  = (Ok true,
     with_axes [("boom", PyInt (-2)); ("leftTrack", PyStr "x")]%string
       (touch_timestamp
          [("type", PyStr "analog");
           ("v", PyDict [("boom", PyInt (-2));
                         ("leftTrack", PyStr "x")])]%string
          (new_control_message 0)),
     []).
Proof.
  split; [reflexivity|].
  exact (@analog_message_updates_named_axes cpython
           (dq "{'type':'analog','v':{'boom':-2,'leftTrack':'x'}}")
           [("type", PyStr "analog");
            ("v", PyDict [("boom", PyInt (-2));
                          ("leftTrack", PyStr "x")])]%string
           [("boom", PyInt (-2)); ("leftTrack", PyStr "x")]%string
           (new_control_message 0) eq_refl eq_refl eq_refl).
Defined.

(** X14.  An analog message whose "v" is not an object makes the method
    leave through an [AttributeError], which it does not catch, after it
    has already overwritten the timestamp with the "t" of the message;
    no other field has changed.  The client's callback catches that
    exception: it logs one ERROR line and keeps its control state as it
    was. *)
Theorem analog_payload_that_is_no_object
    (py : Interpreter) (json_data : string) (d : list (string * pyval)) (v : pyval)
    (m : UnifiedControlMessage) (now_ms : Z) (c : LoadExcClient) :
  json_loads py json_data = Ok (PyDict d) ->
  dict_get d "type" = Some (PyStr "analog") ->
  dict_get d "v" = Some v ->
  not_an_object v ->
  update_from_json py json_data m
  = (Raise AttributeError, touch_timestamp d m, []) /\
  control_callback py json_data now_ms c
  = (Ok tt, c, [EvLog ERROR (MsgControlHandlingError AttributeError)]).
Proof.
  intros Hload Hty Hv Hno.
  assert (Hup : forall m0, update_from_json py json_data m0
                = (Raise AttributeError, touch_timestamp d m0, [])).
  { intros m0.
    unfold update_from_json, update_body, and_then, touch_timestamp.
    unfold_monad. rewrite Hload. unfold py_in, py_getitem.
    rewrite Hty, Hv. simpl.
    destruct (dict_get d "t") as [t|];
      rewrite (assign_axes_not_object _ _ Hno); reflexivity. }
  split; [apply Hup|].
  unfold control_callback, on_object. unfold_monad. now rewrite Hup.
Qed.

Lemma analog_payload_that_is_no_object_witness :
  json_loads cpython (dq "{'t':77,'type':'analog','v':[0.5]}")
  = Ok (PyDict [("t", PyInt 77); ("type", PyStr "analog");
                ("v", PyList [half])]%string) /\
  not_an_object (PyList [half]) /\
  update_from_json cpython (dq "{'t':77,'type':'analog','v':[0.5]}")
    (new_control_message 0)
  = (Raise AttributeError,
     touch_timestamp
       [("t", PyInt 77); ("type", PyStr "analog");
        ("v", PyList [half])]%string (new_control_message 0),
     []) /\
  control_callback cpython (dq "{'t':77,'type':'analog','v':[0.5]}") 5
    (mkClient (new_control_message 0))
  = (Ok tt, mkClient (new_control_message 0),
     [EvLog ERROR (MsgControlHandlingError AttributeError)]).
Proof.
  split; [reflexivity|]. split; [exact I|].
  exact (@analog_payload_that_is_no_object cpython
           (dq "{'t':77,'type':'analog','v':[0.5]}")
           [("t", PyInt 77); ("type", PyStr "analog");
            ("v", PyList [half])]%string
           (PyList [half]) (new_control_message 0) 5
           (mkClient (new_control_message 0)) eq_refl eq_refl eq_refl I).
Defined.

(** Every outcome of the method: [True] with nothing printed; [False]
    with the message untouched and the exception printed; an
    [AttributeError] from an analog payload, with only the timestamp
    touched; or the [ValueError] or [RecursionError] of the decoder, with
    the message untouched. *)
Lemma update_from_json_outcomes py json_data m :
  (exists m', update_from_json py json_data m = (Ok true, m', [])) \/
  (exists e, (e = JSONDecodeError \/ e = TypeError) /\
             update_from_json py json_data m = (Ok false, m, [EvPrint e])) \/
  (exists d, json_loads py json_data = Ok (PyDict d) /\
             update_from_json py json_data m
             = (Raise AttributeError, touch_timestamp d m, [])) \/
  (exists e, (e = ValueError \/ e = RecursionError) /\
             json_loads py json_data = Raise e /\
             update_from_json py json_data m = (Raise e, m, [])).
Proof.
  destruct (json_loads py json_data) as [data|e] eqn:Hload.
  - destruct data as [|b|z|f|s|l|d].
    1-4: right; left; exists TypeError; split; [now right|];
         unfold update_from_json, update_body; unfold_monad;
         rewrite Hload; reflexivity.
    + unfold update_from_json, update_body, and_then. unfold_monad.
      rewrite Hload. simpl.
      destruct (str_contains "t" s); simpl;
        [right; left; exists TypeError; split; [now right|reflexivity]|].
      destruct (str_contains "type" s); simpl;
        [right; left; exists TypeError; split; [now right|reflexivity]|].
      left. eexists. reflexivity.
    + unfold update_from_json, update_body, and_then. unfold_monad.
      rewrite Hload. simpl.
      destruct (existsb (fun y => py_eq_str y "t") l); simpl;
        [right; left; exists TypeError; split; [now right|reflexivity]|].
      destruct (existsb (fun y => py_eq_str y "type") l); simpl;
        [right; left; exists TypeError; split; [now right|reflexivity]|].
      left. eexists. reflexivity.
    + unfold update_from_json, update_body, and_then.
      unfold_monad. rewrite Hload. unfold py_in, py_getitem.
      destruct (dict_get d "t") as [t|] eqn:Ht;
        (destruct (dict_get d "type") as [ty|]; [|left; eexists; reflexivity]);
        destruct (py_eq_str ty "gear");
        try (destruct (dict_get d "gear") as [g|]; [left; eexists; reflexivity|]);
        (destruct (py_eq_str ty "analog"); [|left; eexists; reflexivity]);
        (destruct (dict_get d "v") as [v_obj|]; [|left; eexists; reflexivity]);
        match goal with
        | |- context [assign_axes v_obj ?m0] =>
            pose proof (assign_axes_result v_obj m0) as Hax
        end;
        (destruct v_obj as [| | | | | |dv];
         [ rewrite Hax; right; right; left; exists d; unfold touch_timestamp;
           rewrite Ht; split; reflexivity ..
         | destruct Hax as [m' ->]; left; eexists; reflexivity ]).
  - apply json_loads_raises in Hload as He.
    unfold update_from_json, update_body. unfold_monad. rewrite Hload.
    destruct He as [->|[->| ->]]; simpl.
    + right; left. exists JSONDecodeError. split; [now left|reflexivity].
    + right; right; right. exists ValueError.
      split; [now left|]. now split.
    + right; right; right. exists RecursionError.
      split; [now right|]. now split.
Qed.

(** X15.  The method answers [False] on exactly these outcomes of the
    decoder: a [JSONDecodeError]; null, a boolean or a number; and a
    string or a list in which "t" or "type" is found.  When it does, the
    message object is exactly as it was and one line was printed, for a
    [JSONDecodeError] or a [TypeError]; in every other case nothing is
    printed.  Any other exception of the decoder, the [ValueError] for
    an integer beyond the digit limit or the [RecursionError] for nesting
    beyond the room left, leaves the method, with the message as it
    was. *)
Theorem false_answer_leaves_message_untouched
    (py : Interpreter) (json_data : string) (m : UnifiedControlMessage) :
  match update_from_json py json_data m with
  | (Ok false, m', tr) =>
      answers_false (json_loads py json_data) = true /\ m' = m /\
      exists e, (e = JSONDecodeError \/ e = TypeError) /\ tr = [EvPrint e]
  | (_, _, tr) =>
      answers_false (json_loads py json_data) = false /\ tr = []
  end /\
  (forall e,
     json_loads py json_data = Raise e ->
     e <> JSONDecodeError ->
     (e = ValueError \/ e = RecursionError) /\
     update_from_json py json_data m = (Raise e, m, [])).
Proof.
  pose proof (update_from_json_false_characterisation py json_data m)
    as Hiff.
  destruct (update_from_json_outcomes py json_data m)
    as [[m' H]|[(e & He & H)|[(d & Hload & H)|(e & He & Hload & H)]]];
    rewrite H in *; simpl in *.
  - split.
    + split; [|reflexivity].
      destruct (answers_false _); [|reflexivity].
      pose proof (proj2 Hiff eq_refl) as Hf. discriminate Hf.
    + intros e Hload Hne.
      pose proof (json_loads_raises _ _ Hload) as [->|[->| ->]];
        [congruence| |];
        unfold update_from_json, update_body in H; unfold_monad;
        rewrite Hload in H; simpl in H; discriminate.
  - split.
    + split; [now apply Hiff|]. split; [reflexivity|]. eauto.
    + intros e' Hload Hne.
      pose proof (json_loads_raises _ _ Hload) as [->|[->| ->]];
        [congruence| |];
        unfold update_from_json, update_body in H; unfold_monad;
        rewrite Hload in H; simpl in H; discriminate.
  - split.
    + split; [|reflexivity]. now rewrite Hload.
    + intros e Hload'. rewrite Hload in Hload'. discriminate.
  - split.
    + split; [|reflexivity]. rewrite Hload.
      destruct He as [->| ->]; reflexivity.
    + intros e' Hload' Hne. rewrite Hload in Hload'.
      injection Hload' as <-. split; [exact He | reflexivity].
Qed.

Lemma false_answer_leaves_message_untouched_witness :
  json_loads cpython long_integer_message = Raise ValueError /\
  update_from_json cpython long_integer_message (new_control_message 0)
  = (Raise ValueError, new_control_message 0, []).
Proof.
  assert (H : json_loads cpython long_integer_message = Raise ValueError)
    by (vm_compute; reflexivity).
  split; [exact H|].
  apply (proj2 (false_answer_leaves_message_untouched cpython
                  long_integer_message (new_control_message 0))
           ValueError H).
  discriminate.
Defined.

(** X16.  The callback returns for every message text: it never raises,
    it logs exactly one line, and the control state is afterwards either
    the one it was or the object that the method filled in from a fresh
    message, which does not depend on the state before.  The state is
    replaced exactly when the method answers [True]. *)
Theorem control_callback_always_returns
    (py : Interpreter) (msg_data : string) (now_ms : Z)
    (c : LoadExcClient) :
  let '(answer, new_control, _) :=
    update_from_json py msg_data (new_control_message now_ms) in
  exists tr,
    control_callback py msg_data now_ms c
    = (Ok tt,
       match answer with
       | Ok true => mkClient new_control
       | _ => c
       end,
       tr) /\
    (logged INFO tr + logged WARN tr + logged ERROR tr = 1)%nat /\
    logged INFO tr
    = match answer with
      | Ok true => 1%nat
      | _ => 0%nat
      end.
Proof.
  unfold control_callback, on_object. unfold_monad.
  destruct (update_from_json_outcomes py msg_data
              (new_control_message now_ms))
    as [[m' H]|[(e & He & H)|[(d & Hload & H)|(e & He & Hload & H)]]];
    rewrite H; simpl;
    try (destruct He as [->| ->]; simpl);
    eexists; (split; [reflexivity|]); simpl; now split.
Qed.

(** X17.  The status that [get_control_status] returns is the [to_dict]
    form of the control state.  Sent back as the payload of an analog
    message it restores rotation, brake, throttle, boom, bucket, swing
    and stick, but not the two tracks: [to_dict] writes them under
    "left_track" and "right_track", and the method reads "leftTrack" and
    "rightTrack".  Gear, device type and timestamp are not read from a
    payload either. *)
Theorem status_echo_restores_all_but_the_tracks
    (py : Interpreter) (json_data : string) (c_src : LoadExcClient) (status : pyval)
    (m : UnifiedControlMessage) :
  fst (fst (get_control_status c_src)) = Ok status ->
  json_loads py json_data
  = Ok (PyDict [("type", PyStr "analog"); ("v", status)]%string) ->
  let src := control_data c_src in
  status = to_dict src /\
  update_from_json py json_data m
  = (Ok true,
     mkControl (rotation src) (brake src) (throttle src) (gear m)
       (boom src) (bucket src) (left_track m) (right_track m)
       (swing src) (stick src) (device_type m) (timestamp m),
     []).
Proof.
  intros Hst Hload src. simpl in Hst. injection Hst as <-.
  split; [reflexivity|].
  unfold to_dict in *.
  match type of Hload with
  | _ = Ok (PyDict ?l) => set (d := l) in *
  end.
  assert (Ht : dict_get d "t" = None) by reflexivity.
  assert (Hty : dict_get d "type" = Some (PyStr "analog")) by reflexivity.
  pose proof (eq_refl : dict_get d "v" = Some _) as Hv. cbn [snd] in Hv.
  unfold update_from_json, update_body, and_then. unfold_monad.
  rewrite Hload. unfold py_in, py_getitem.
  rewrite Ht, Hty, Hv. cbv beta iota.
  change (py_eq_str (PyStr "analog") "gear") with false.
  change (py_eq_str (PyStr "analog") "analog") with true. cbv beta iota.
  rewrite assign_axes_dict. destruct m. reflexivity.
Qed.

Lemma status_echo_restores_all_but_the_tracks_witness :
  fst (fst (get_control_status (mkClient echoed_state)))
  = Ok (to_dict echoed_state) /\
  json_loads cpython echo_message
  = Ok (PyDict [("type", PyStr "analog");
                ("v", to_dict echoed_state)]%string) /\
  update_from_json cpython echo_message (new_control_message 9)
  = (Ok true,
     set_rotation (PyFloat (FNum (1 # 4))) (new_control_message 9), []).
Proof.
  split; [reflexivity|]. split; [reflexivity|].
  exact (proj2 (@status_echo_restores_all_but_the_tracks cpython
                  echo_message (mkClient echoed_state)
                  (to_dict echoed_state) (new_control_message 9)
                  eq_refl eq_refl)).
Defined.

(** ** The client's video tick *)

(** X18.  Each video tick of the client writes the current time in
    milliseconds into the timestamp of the client's own control state
    and changes nothing else in it, whether the renderer, the conversion
    or the publish call succeed or raise; so the "t" of a control message
    does not survive the next tick.  A tick publishes at most one image,
    and what it lets out is never an ordinary exception. *)
Theorem video_tick_overwrites_timestamp
    (luma chroma_u chroma_v : byte -> byte -> byte -> byte)
    (render : UnifiedControlMessage -> result ndarray)
    (now_ms now : Z) (sink : Image -> result unit) (c : LoadExcClient) :
  let '(r, c', tr) :=
    publish_video_frame luma chroma_u chroma_v render now_ms now sink c in
  c' = mkClient (set_timestamp (PyInt now_ms) (control_data c)) /\
  (List.length (published tr) <= 1)%nat /\
  match r with
  | Ok _ => True
  | Raise e => is_Exception e = false
  end.
Proof.
  unfold publish_video_frame, publish_rendered. unfold_monad. simpl.
  destruct (render _) as [frame|e]; simpl.
  - destruct (cvtColor _ _ _ _ _) as [yuv|e2]; simpl.
    + destruct (sink _) as [[]|e3]; simpl; [auto|].
      destruct e3; simpl; auto.
    + destruct e2; simpl; auto.
  - destruct e; simpl; auto.
Qed.

(** ** The preview window *)

(** X19.  The preview switch.  With window calls that go through, two
    toggles bring the flag and the size back.  With window calls that
    raise, a toggle always ends with the preview off, and when it was off
    before, the method still logs that the preview was enabled, after the
    line for the failed set-up.  [close_preview] never clears the flag.
    [resize_preview_window] stores the new size whenever the preview is
    on, also when the window call raises, and ignores it when the preview
    is off. *)
Theorem preview_switch (p : Preview) (ok : bool) (w h : Z) :
  (show_preview (toggle_preview true (toggle_preview true p))
   = show_preview p /\
   preview_width (toggle_preview true (toggle_preview true p))
   = preview_width p /\
   preview_height (toggle_preview true (toggle_preview true p))
   = preview_height p) /\
  show_preview (toggle_preview false p) = false /\
  toggle_preview false (pv_show false p)
  = mkPreview false (preview_width p) (preview_height p)
      (preview_log p ++ [PvSetupFailed; PvEnabled]) /\
  show_preview (close_preview ok p) = show_preview p /\
  (preview_width (resize_preview_window ok w h p),
   preview_height (resize_preview_window ok w h p))
  = (if show_preview p then (w, h)
     else (preview_width p, preview_height p)).
Proof.
  destruct p as [[] pw ph l]; destruct ok;
    unfold toggle_preview, setup_preview_window, resize_preview_window,
      close_preview, pv_log, pv_show; simpl;
    rewrite <- ?app_assoc; simpl; repeat split; reflexivity.
Qed.

(** ** The format name of a FOURCC code *)

Lemma fourcc_bytes a b c d :
  0 <= a < 256 -> 0 <= b < 256 -> 0 <= c < 256 -> 0 <= d < 256 ->
  let code := a + Z.shiftl b 8 + Z.shiftl c 16 + Z.shiftl d 24 in
  Z.land (Z.shiftr code 0) 255 = a /\
  Z.land (Z.shiftr code 8) 255 = b /\
  Z.land (Z.shiftr code 16) 255 = c /\
  Z.land (Z.shiftr code 24) 255 = d.
Proof.
  intros Ha Hb Hc Hd code. subst code.
  change 255 with (Z.ones 8).
  rewrite !Z.land_ones, !Z.shiftr_div_pow2, !Z.shiftl_mul_pow2 by lia.
  change (2 ^ 0) with 1. change (2 ^ 8) with 256.
  change (2 ^ 16) with 65536. change (2 ^ 24) with 16777216.
  repeat split; Z.div_mod_to_equations; lia.
Qed.

Lemma int32_small z : 0 <= z < 2 ^ 31 -> int32 z = z.
Proof.
  intros Hz. unfold int32. rewrite Z.mod_small; [lia|].
  change (2 ^ 32) with (2 * 2 ^ 31). lia.
Qed.

Lemma is_ascii_not_continuation c :
  is_ascii c -> is_continuation c = false.
Proof.
  unfold is_ascii, is_continuation. intros Hc.
  apply andb_false_iff. left. apply Nat.leb_gt. exact Hc.
Qed.

Lemma chr_utf8_ascii c :
  is_ascii c ->
  chr_utf8 (Z.of_nat (nat_of_ascii c)) = String c EmptyString.
Proof.
  unfold is_ascii, chr_utf8, byte_char. intros Hc.
  destruct (Z.ltb_spec (Z.of_nat (nat_of_ascii c)) 128); [|lia].
  now rewrite Nat2Z.id, ascii_nat_embedding.
Qed.

(** X20.  The format name that the camera test decodes from a FOURCC
    code, its four low bytes as characters, lowest first, is the four
    characters from which [cv2.VideoWriter_fourcc] built the code,
    whenever these are ASCII characters. *)
Theorem fourcc_name_round_trip (c1 c2 c3 c4 : ascii) :
  is_ascii c1 -> is_ascii c2 -> is_ascii c3 -> is_ascii c4 ->
  exists code,
    VideoWriter_fourcc
      (String c1 (String c2 (String c3 (String c4 EmptyString))))
    = Ok code /\
    fourcc_name code
    = String c1 (String c2 (String c3 (String c4 EmptyString))).
Proof.
  intros H1 H2 H3 H4.
  assert (Hb : forall c, 0 <= Z.of_nat (nat_of_ascii c) < 256).
  { intros c. pose proof (nat_ascii_bounded c). lia. }
  unfold VideoWriter_fourcc. cbn [first_bytes].
  rewrite !is_ascii_not_continuation by assumption.
  rewrite int32_small.
  2:{ unfold is_ascii in H4. rewrite !Z.shiftl_mul_pow2 by lia.
      pose proof (Hb c1). pose proof (Hb c2). pose proof (Hb c3).
      change (2 ^ 8) with 256. change (2 ^ 16) with 65536.
      change (2 ^ 24) with 16777216. change (2 ^ 31) with 2147483648.
      lia. }
  eexists. split; [reflexivity|].
  unfold fourcc_name. cbn [map].
  change (8 * 0) with 0. change (8 * 1) with 8.
  change (8 * 2) with 16. change (8 * 3) with 24.
  destruct (@fourcc_bytes _ _ _ _ (Hb c1) (Hb c2) (Hb c3) (Hb c4))
    as (E1 & E2 & E3 & E4).
  cbv zeta in E1, E2, E3, E4. rewrite E1, E2, E3, E4.
  rewrite !chr_utf8_ascii by assumption. reflexivity.
Qed.

Lemma fourcc_name_round_trip_witness :
  exists code,
    VideoWriter_fourcc "YUYV" = Ok code /\ fourcc_name code = "YUYV"%string.
Proof.
  apply (@fourcc_name_round_trip "Y"%char "U"%char "Y"%char "V"%char);
    unfold is_ascii; apply Nat.ltb_lt; reflexivity.
Defined.
